(** * The DXVK submission queue (src/dxvk/dxvk_queue.cpp)

    A shallow embedding of [DxvkSubmissionQueue]: the producer entry points
    ([submit], [present], [synchronize], [synchronizeSubmission],
    [lockDeviceQueue], [unlockDeviceQueue], the destructor) and the two
    worker loops ([submitCmdLists], [finishCmdLists]).

    Every region of code that runs with [m_mutex] held is one atomic step of
    the model; the regions a worker runs with [m_mutex] released (the device
    call of the submitter, the fence wait of the finisher) are steps of their
    own, so that the other threads interleave with them exactly where the
    source lets them.  Condition variables are explicit: a thread blocked in
    [wait] is [Waiting] until a [notify_all] on its condition variable (or a
    spurious wake-up) makes it [Notified]; it then takes the mutex again and
    tests its predicate again.  Calls into the device layer are recorded in a
    trace of events, and what the device answers is supplied by an oracle. *)

From Stdlib Require Import ZArith List Bool Lia.
From stdpp Require Import base option list gmap.

Open Scope Z_scope.

(** ** Vulkan results (the values of the [VkResult] enum that occur) *)

Definition VkResult := Z.

Definition VK_SUCCESS : VkResult := 0.
Definition VK_NOT_READY : VkResult := 1.
Definition VK_ERROR_OUT_OF_HOST_MEMORY : VkResult := -1.
Definition VK_ERROR_OUT_OF_DEVICE_MEMORY : VkResult := -2.
Definition VK_ERROR_DEVICE_LOST : VkResult := -4.

(** ** Entries.  A pointer is a handle, [None] is [nullptr]. *)

Record DxvkSubmitInfo := {
  cmdList  : option nat;
  waitSync : option nat;
  wakeSync : option nat
}.

Record DxvkPresentInfo := {
  presenter : option nat;
  frameId   : Z
}.

Record DxvkSubmitEntry := {
  entry_status  : option nat;
  entry_submit  : DxvkSubmitInfo;
  entry_present : DxvkPresentInfo
}.

(** [DxvkSubmitEntry entry = { };] *)
Definition empty_entry : DxvkSubmitEntry :=
  {| entry_status  := None;
     entry_submit  := {| cmdList := None; waitSync := None; wakeSync := None |};
     entry_present := {| presenter := None; frameId := 0 |} |}.

Definition submit_entry (submitInfo : DxvkSubmitInfo) : DxvkSubmitEntry :=
  {| entry_status  := entry_status empty_entry;
     entry_submit  := submitInfo;
     entry_present := entry_present empty_entry |}.

Definition present_entry (presentInfo : DxvkPresentInfo) (status : option nat)
  : DxvkSubmitEntry :=
  {| entry_status  := status;
     entry_submit  := entry_submit empty_entry;
     entry_present := presentInfo |}.

(** [entry.submit.cmdList != nullptr] *)
Definition has_cmdList (e : DxvkSubmitEntry) : bool :=
  match cmdList (entry_submit e) with Some _ => true | None => false end.

(** ** Device configuration (the two options the queue reads) *)

Record DxvkOptions := {
  presentThrottleDelay : Z;
  enableAftermath      : bool
}.

(** ** Calls into the device layer, as they appear in the trace *)

Inductive ReflexMarker := VK_PRESENT_START | VK_PRESENT_END.

Inductive CrashDumpStatus :=
| CrashDump_NotStarted
| CrashDump_CollectingData
| CrashDump_CollectingDataFailed
| CrashDump_InvokingCallback
| CrashDump_Finished
| CrashDump_Unknown.

Inductive LogMessage := CommandSubmissionFailed | FailedToSyncFence.

Inductive Event :=
| EvQueueLock                                   (* m_mutexQueue taken by the submitter *)
| EvQueueUnlock
| EvCmdSubmit (c : nat) (waitS wakeS : option nat) (r : VkResult)
| EvSetMarker (frame : Z) (m : ReflexMarker)
| EvPresentImage (p : nat) (r : VkResult)
| EvSleep (ms : Z)
| EvLogErr (msg : LogMessage) (r : VkResult)
| EvGetCrashDumpStatus (st : CrashDumpStatus)
| EvWaitForIdle
| EvCmdSynchronize (c : nat) (r : VkResult)
| EvNotifySignals (c : nat)
| EvReset (c : nat)
| EvRecycle (c : nat).

(** What the outside world answers during one step of a worker: the result of
    the device call ([submit], [presentImage] or [synchronize]), the crash
    dump status seen at the n-th poll, and the microseconds the finisher
    spent in its wait. *)
Record Oracle := {
  o_result    : VkResult;
  o_crashDump : nat -> CrashDumpStatus;
  o_elapsed   : Z
}.

(** ** Threads *)

Inductive Wake := Waiting | Notified.

Inductive SubmitPhase :=
| SubStart                                      (* thread created, line 120 *)
| SubWait (w : Wake)                            (* inside m_appendCond.wait, line 123 *)
| SubPeeked (e : DxvkSubmitEntry)               (* line 131 done, m_mutex released *)
| SubLockQueue (e : DxvkSubmitEntry)            (* line 138, about to take m_mutexQueue *)
| SubRelock (e : DxvkSubmitEntry) (status : VkResult) (* line 168, about to take m_mutex *)
| SubExited.

Inductive FinishPhase :=
| FinStart                                      (* thread created, line 208 *)
| FinWait (w : Wake)                            (* inside m_submitCond.wait, line 214 *)
| FinPeeked (e : DxvkSubmitEntry)               (* line 226 done, m_mutex released *)
| FinLoaded (e : DxvkSubmitEntry) (status : VkResult) (* line 228 done *)
| FinRelock (e : DxvkSubmitEntry)               (* line 243, about to take m_mutex *)
| FinExited
| FinFault.                                     (* a null command list was dereferenced *)

Inductive DtorStage :=
| DtorNotifyAppend | DtorNotifySubmit | DtorJoinSubmit | DtorJoinFinish.

(** A producer thread inside a call that has not returned yet. *)
Inductive CallPhase :=
| InSubmit (submitInfo : DxvkSubmitInfo) (w : Wake)      (* m_finishCond.wait *)
| InSynchronizeSubmission (slot : nat) (w : Wake)        (* m_submitCond.wait *)
| InSynchronize (w : Wake)                               (* m_submitCond.wait *)
| InDestroy (stage : DtorStage).

Inductive Call :=
| CallSubmit (submitInfo : DxvkSubmitInfo)
| CallPresent (presentInfo : DxvkPresentInfo) (status : option nat)
| CallSynchronizeSubmission (slot : nat)
| CallSynchronize
| CallLockDeviceQueue
| CallUnlockDeviceQueue
| CallDestroy.

Inductive Thread := TSubmit | TFinish | TCaller (t : nat).

Inductive Label :=
| LCall (t : nat) (c : Call)         (* producer thread t enters a call *)
| LResume (t : nat)                  (* producer thread t goes on inside its call *)
| LSubmitThread (o : Oracle)         (* next step of submitCmdLists *)
| LFinishThread (o : Oracle)         (* next step of finishCmdLists *)
| LSpurious (th : Thread).           (* a wait returns without a notify *)

(** ** The state of the queue object and of the threads that use it *)

Record State := {
  m_submitQueue : list DxvkSubmitEntry;
  m_finishQueue : list DxvkSubmitEntry;
  m_pending     : Z;                    (* std::atomic<uint32_t> *)
  m_gpuIdle     : Z;                    (* std::atomic<uint64_t> *)
  m_lastError   : VkResult;
  m_stopped     : bool;
  m_mutexQueue  : option nat;           (* the producer that holds the device queue lock *)
  submitThread  : SubmitPhase;
  finishThread  : FinishPhase;
  callers       : gmap nat CallPhase;   (* producers inside a call; absent = not in a call *)
  slots         : gmap nat VkResult;    (* the DxvkSubmitStatus cells *)
  trace         : list Event            (* device-layer calls so far, oldest first *)
}.

Definition with_submitQueue (q : list DxvkSubmitEntry) (s : State) : State :=
  {| m_submitQueue := q; m_finishQueue := m_finishQueue s; m_pending := m_pending s;
     m_gpuIdle := m_gpuIdle s; m_lastError := m_lastError s; m_stopped := m_stopped s;
     m_mutexQueue := m_mutexQueue s; submitThread := submitThread s;
     finishThread := finishThread s; callers := callers s; slots := slots s;
     trace := trace s |}.

Definition with_finishQueue (q : list DxvkSubmitEntry) (s : State) : State :=
  {| m_submitQueue := m_submitQueue s; m_finishQueue := q; m_pending := m_pending s;
     m_gpuIdle := m_gpuIdle s; m_lastError := m_lastError s; m_stopped := m_stopped s;
     m_mutexQueue := m_mutexQueue s; submitThread := submitThread s;
     finishThread := finishThread s; callers := callers s; slots := slots s;
     trace := trace s |}.

Definition with_pending (n : Z) (s : State) : State :=
  {| m_submitQueue := m_submitQueue s; m_finishQueue := m_finishQueue s; m_pending := n;
     m_gpuIdle := m_gpuIdle s; m_lastError := m_lastError s; m_stopped := m_stopped s;
     m_mutexQueue := m_mutexQueue s; submitThread := submitThread s;
     finishThread := finishThread s; callers := callers s; slots := slots s;
     trace := trace s |}.

Definition with_gpuIdle (n : Z) (s : State) : State :=
  {| m_submitQueue := m_submitQueue s; m_finishQueue := m_finishQueue s;
     m_pending := m_pending s; m_gpuIdle := n; m_lastError := m_lastError s;
     m_stopped := m_stopped s; m_mutexQueue := m_mutexQueue s;
     submitThread := submitThread s; finishThread := finishThread s;
     callers := callers s; slots := slots s; trace := trace s |}.

Definition with_lastError (r : VkResult) (s : State) : State :=
  {| m_submitQueue := m_submitQueue s; m_finishQueue := m_finishQueue s;
     m_pending := m_pending s; m_gpuIdle := m_gpuIdle s; m_lastError := r;
     m_stopped := m_stopped s; m_mutexQueue := m_mutexQueue s;
     submitThread := submitThread s; finishThread := finishThread s;
     callers := callers s; slots := slots s; trace := trace s |}.

Definition with_stopped (b : bool) (s : State) : State :=
  {| m_submitQueue := m_submitQueue s; m_finishQueue := m_finishQueue s;
     m_pending := m_pending s; m_gpuIdle := m_gpuIdle s; m_lastError := m_lastError s;
     m_stopped := b; m_mutexQueue := m_mutexQueue s;
     submitThread := submitThread s; finishThread := finishThread s;
     callers := callers s; slots := slots s; trace := trace s |}.

Definition with_mutexQueue (o : option nat) (s : State) : State :=
  {| m_submitQueue := m_submitQueue s; m_finishQueue := m_finishQueue s;
     m_pending := m_pending s; m_gpuIdle := m_gpuIdle s; m_lastError := m_lastError s;
     m_stopped := m_stopped s; m_mutexQueue := o;
     submitThread := submitThread s; finishThread := finishThread s;
     callers := callers s; slots := slots s; trace := trace s |}.

Definition with_submitThread (p : SubmitPhase) (s : State) : State :=
  {| m_submitQueue := m_submitQueue s; m_finishQueue := m_finishQueue s;
     m_pending := m_pending s; m_gpuIdle := m_gpuIdle s; m_lastError := m_lastError s;
     m_stopped := m_stopped s; m_mutexQueue := m_mutexQueue s;
     submitThread := p; finishThread := finishThread s;
     callers := callers s; slots := slots s; trace := trace s |}.

Definition with_finishThread (p : FinishPhase) (s : State) : State :=
  {| m_submitQueue := m_submitQueue s; m_finishQueue := m_finishQueue s;
     m_pending := m_pending s; m_gpuIdle := m_gpuIdle s; m_lastError := m_lastError s;
     m_stopped := m_stopped s; m_mutexQueue := m_mutexQueue s;
     submitThread := submitThread s; finishThread := p;
     callers := callers s; slots := slots s; trace := trace s |}.

Definition with_callers (c : gmap nat CallPhase) (s : State) : State :=
  {| m_submitQueue := m_submitQueue s; m_finishQueue := m_finishQueue s;
     m_pending := m_pending s; m_gpuIdle := m_gpuIdle s; m_lastError := m_lastError s;
     m_stopped := m_stopped s; m_mutexQueue := m_mutexQueue s;
     submitThread := submitThread s; finishThread := finishThread s;
     callers := c; slots := slots s; trace := trace s |}.

Definition with_slots (m : gmap nat VkResult) (s : State) : State :=
  {| m_submitQueue := m_submitQueue s; m_finishQueue := m_finishQueue s;
     m_pending := m_pending s; m_gpuIdle := m_gpuIdle s; m_lastError := m_lastError s;
     m_stopped := m_stopped s; m_mutexQueue := m_mutexQueue s;
     submitThread := submitThread s; finishThread := finishThread s;
     callers := callers s; slots := m; trace := trace s |}.

(** Appends the device-layer calls [evs] to the trace. *)
Definition emit (evs : list Event) (s : State) : State :=
  {| m_submitQueue := m_submitQueue s; m_finishQueue := m_finishQueue s;
     m_pending := m_pending s; m_gpuIdle := m_gpuIdle s; m_lastError := m_lastError s;
     m_stopped := m_stopped s; m_mutexQueue := m_mutexQueue s;
     submitThread := submitThread s; finishThread := finishThread s;
     callers := callers s; slots := slots s; trace := trace s ++ evs |}.

(** The queue right after the constructor: both threads created, nothing
    queued, [m_lastError] is [VK_SUCCESS]. *)
Definition init : State :=
  {| m_submitQueue := []; m_finishQueue := []; m_pending := 0; m_gpuIdle := 0;
     m_lastError := VK_SUCCESS; m_stopped := false; m_mutexQueue := None;
     submitThread := SubStart; finishThread := FinStart;
     callers := ∅; slots := ∅; trace := [] |}.

(** ** Arithmetic of the atomic counters *)

Definition u32 (z : Z) : Z := z mod 2 ^ 32.
Definition u64 (z : Z) : Z := z mod 2 ^ 64.

(** ** Condition variables *)

Definition wake_submitThread (p : SubmitPhase) : SubmitPhase :=
  match p with SubWait _ => SubWait Notified | _ => p end.

Definition wake_finishThread (p : FinishPhase) : FinishPhase :=
  match p with FinWait _ => FinWait Notified | _ => p end.

Definition wake_on_submitCond (c : CallPhase) : CallPhase :=
  match c with
  | InSynchronizeSubmission slot _ => InSynchronizeSubmission slot Notified
  | InSynchronize _ => InSynchronize Notified
  | _ => c
  end.

Definition wake_on_finishCond (c : CallPhase) : CallPhase :=
  match c with
  | InSubmit submitInfo _ => InSubmit submitInfo Notified
  | _ => c
  end.

(** [m_appendCond.notify_all()]: only the submitter waits on it. *)
Definition notify_all_appendCond (s : State) : State :=
  with_submitThread (wake_submitThread (submitThread s)) s.

(** [m_submitCond.notify_all()]: the finisher and the callers of
    [synchronize] and [synchronizeSubmission] wait on it. *)
Definition notify_all_submitCond (s : State) : State :=
  with_callers (wake_on_submitCond <$> callers s)
    (with_finishThread (wake_finishThread (finishThread s)) s).

(** [m_finishCond.notify_all()]: the callers of [submit] wait on it. *)
Definition notify_all_finishCond (s : State) : State :=
  with_callers (wake_on_finishCond <$> callers s) s.

(** ** The crash dump poll of lines 179-193 *)

Definition kTimeoutPreventionLimit : Z := 5000.
Definition kTimeoutPerTry : Z := 100.

Definition crashDump_done (st : CrashDumpStatus) : bool :=
  match st with
  | CrashDump_Finished | CrashDump_Unknown => true
  | _ => false
  end.

(** [n] counts the polls made so far; the loop runs at most fifty times,
    which is what [poll_fuel] is. *)
Fixpoint aftermath_poll (fuel : nat) (counter : Z) (n : nat)
    (crash : nat -> CrashDumpStatus) : list Event :=
  match fuel with
  | O => []
  | S fuel' =>
    if counter <? kTimeoutPreventionLimit then
      EvGetCrashDumpStatus (crash n) ::
      (if crashDump_done (crash n) then []
       else EvSleep kTimeoutPerTry ::
            aftermath_poll fuel' (counter + kTimeoutPerTry) (S n) crash)
    else []
  end.

Definition poll_fuel : nat := 50.

Definition is_crashDump_poll (ev : Event) : bool :=
  match ev with EvGetCrashDumpStatus _ => true | _ => false end.

(** What the submitter does with the device queue in lines 138-157: taking
    and releasing [m_mutexQueue], [CmdList.submit], [Presenter.presentImage]
    and the latency markers around it. *)
Definition is_queue_call (ev : Event) : bool :=
  match ev with
  | EvQueueLock | EvQueueUnlock | EvCmdSubmit _ _ _ _ | EvSetMarker _ _
  | EvPresentImage _ _ => true
  | _ => false
  end.


Definition queue_calls (tr : list Event) : list Event := List.filter is_queue_call tr.
Definition crashDump_polls (tr : list Event) : list Event :=
  List.filter is_crashDump_poll tr.

Section Queue.

(** [MaxNumQueuedCommandBuffers] is a constant of the class, declared in
    dxvk_queue.h; [config] is what [m_device->config()] returns. *)
Variable MaxNumQueuedCommandBuffers : nat.
Variable config : DxvkOptions.

(** ** Producer entry points *)

(** The predicate of the wait in [submit], line 57. *)
Definition submit_may_proceed (s : State) : bool :=
  (length (m_submitQueue s) + length (m_finishQueue s) <=? MaxNumQueuedCommandBuffers)%nat.

(** [DxvkSubmissionQueue::submit], lines 54-65, for producer [t]: run on
    entry and again each time the wait on [m_finishCond] is woken. *)
Definition submit (t : nat) (submitInfo : DxvkSubmitInfo) (s : State) : State :=
  if submit_may_proceed s then
    notify_all_appendCond
      (with_callers (delete t (callers s))
        (with_submitQueue (m_submitQueue s ++ [submit_entry submitInfo])
          (with_pending (u32 (m_pending s + 1)) s)))
  else
    with_callers (<[t := InSubmit submitInfo Waiting]> (callers s)) s.

(** [DxvkSubmissionQueue::present], lines 71-78: no wait at all. *)
Definition present (t : nat) (presentInfo : DxvkPresentInfo) (status : option nat)
    (s : State) : State :=
  notify_all_appendCond
    (with_callers (delete t (callers s))
      (with_submitQueue (m_submitQueue s ++ [present_entry presentInfo status]) s)).

(** Modelled from the spec: the declaration of [DxvkSubmitStatus] is in
    dxvk_queue.h, which is not part of the sources; a status cell nobody has
    written yet reads as [VK_NOT_READY] ("initialized to PENDING"). *)
Definition slot_result (s : State) (slot : nat) : VkResult :=
  default VK_NOT_READY (slots s !! slot).

(** [DxvkSubmissionQueue::synchronizeSubmission], lines 85-89. *)
Definition synchronizeSubmission (t : nat) (slot : nat) (s : State) : State :=
  if negb (slot_result s slot =? VK_NOT_READY) then
    with_callers (delete t (callers s)) s
  else
    with_callers (<[t := InSynchronizeSubmission slot Waiting]> (callers s)) s.

(** [DxvkSubmissionQueue::synchronize], lines 95-99. *)
Definition synchronize (t : nat) (s : State) : State :=
  match m_submitQueue s with
  | [] => with_callers (delete t (callers s)) s
  | _ :: _ => with_callers (<[t := InSynchronize Waiting]> (callers s)) s
  end.

(** [lockDeviceQueue]: a thread that finds the mutex taken cannot step. *)
Definition lockDeviceQueue (t : nat) (s : State) : option State :=
  match m_mutexQueue s with
  | None => Some (with_mutexQueue (Some t) s)
  | Some _ => None
  end.

(** [unlockDeviceQueue], line 111: the mutex is released, whoever the caller
    is and whoever took it. *)
Definition unlockDeviceQueue (t : nat) (s : State) : option State :=
  Some (with_mutexQueue None s).

(** The destructor, lines 40-48: the store under the mutex, then one stage
    per statement. *)
Definition destroy_begin (t : nat) (s : State) : State :=
  with_callers (<[t := InDestroy DtorNotifyAppend]> (callers s)) (with_stopped true s).

Definition destroy_stage (t : nat) (stage : DtorStage) (s : State) : option State :=
  match stage with
  | DtorNotifyAppend =>
      let s1 := notify_all_appendCond s in
      Some (with_callers (<[t := InDestroy DtorNotifySubmit]> (callers s1)) s1)
  | DtorNotifySubmit =>
      let s1 := notify_all_submitCond s in
      Some (with_callers (<[t := InDestroy DtorJoinSubmit]> (callers s1)) s1)
  | DtorJoinSubmit =>
      match submitThread s with
      | SubExited => Some (with_callers (<[t := InDestroy DtorJoinFinish]> (callers s)) s)
      | _ => None
      end
  | DtorJoinFinish =>
      match finishThread s with
      | FinExited => Some (with_callers (delete t (callers s)) s)
      | _ => None
      end
  end.

Definition call (t : nat) (c : Call) (s : State) : option State :=
  match callers s !! t with
  | Some _ => None
  | None =>
    match c with
    | CallSubmit submitInfo => Some (submit t submitInfo s)
    | CallPresent presentInfo status => Some (present t presentInfo status s)
    | CallSynchronizeSubmission slot => Some (synchronizeSubmission t slot s)
    | CallSynchronize => Some (synchronize t s)
    | CallLockDeviceQueue => lockDeviceQueue t s
    | CallUnlockDeviceQueue => unlockDeviceQueue t s
    | CallDestroy => Some (destroy_begin t s)
    end
  end.

Definition resume (t : nat) (s : State) : option State :=
  match callers s !! t with
  | Some (InSubmit submitInfo Notified) => Some (submit t submitInfo s)
  | Some (InSynchronizeSubmission slot Notified) => Some (synchronizeSubmission t slot s)
  | Some (InSynchronize Notified) => Some (synchronize t s)
  | Some (InDestroy stage) => destroy_stage t stage s
  | _ => None
  end.

(** ** The submitter, [submitCmdLists] *)

(** Lines 122-131 with [m_mutex] held: the loop test, the wait and the peek.
    Line 130 moves the entry out of the head slot, and the slot stays in the
    queue until line 198.  The submitter works on its own copy, which is what
    [SubPeeked] carries; the slot left behind is kept with the value it had,
    and no step reads it before it is popped: the producers and the waits
    only look at the size of the queue. *)
Definition submitCmdLists_top (s : State) : State :=
  if m_stopped s then with_submitThread SubExited s
  else match m_submitQueue s with
       | [] => with_submitThread (SubWait Waiting) s
       | e :: _ => with_submitThread (SubPeeked e) s
       end.

(** Lines 138-157: the device call, under [m_mutexQueue]. *)
Definition dispatch (o : Oracle) (e : DxvkSubmitEntry) : VkResult * list Event :=
  match cmdList (entry_submit e) with
  | Some c =>
      (o_result o,
       [EvQueueLock;
        EvCmdSubmit c (waitSync (entry_submit e)) (wakeSync (entry_submit e)) (o_result o);
        EvQueueUnlock])
  | None =>
    match presenter (entry_present e) with
    | Some p =>
        (o_result o,
         [EvQueueLock;
          EvSetMarker (frameId (entry_present e)) VK_PRESENT_START;
          EvPresentImage p (o_result o);
          EvSetMarker (frameId (entry_present e)) VK_PRESENT_END]
         ++ (if 0 <? presentThrottleDelay config
             then [EvSleep (presentThrottleDelay config)] else [])
         ++ [EvQueueUnlock])
    | None => (VK_NOT_READY, [EvQueueLock; EvQueueUnlock])
    end
  end.

(** Lines 164-165. *)
Definition publish (e : DxvkSubmitEntry) (status : VkResult) (s : State) : State :=
  match entry_status e with
  | Some slot => with_slots (<[slot := status]> (slots s)) s
  | None => s
  end.

(** Lines 174-195: what the failure branch does besides the store. *)
Definition failure_events (o : Oracle) (status : VkResult) : list Event :=
  EvLogErr CommandSubmissionFailed status ::
  (if enableAftermath config
   then aftermath_poll poll_fuel 0 0 (o_crashDump o) else [])
  ++ [EvWaitForIdle].

(** Lines 170-196. *)
Definition complete (o : Oracle) (e : DxvkSubmitEntry) (status : VkResult)
    (s : State) : State :=
  if status =? VK_SUCCESS then
    if has_cmdList e then with_finishQueue (m_finishQueue s ++ [e]) s else s
  else if (status =? VK_ERROR_DEVICE_LOST) || has_cmdList e then
    emit (failure_events o status) (with_lastError status s)
  else s.

Definition submitCmdLists_step (o : Oracle) (s : State) : option State :=
  match submitThread s with
  | SubStart | SubWait Notified => Some (submitCmdLists_top s)
  | SubWait Waiting | SubExited => None
  | SubPeeked e =>
      if negb (m_lastError s =? VK_ERROR_DEVICE_LOST) then
        Some (with_submitThread (SubLockQueue e) s)
      else
        Some (with_submitThread (SubRelock e VK_ERROR_DEVICE_LOST)
               (publish e VK_ERROR_DEVICE_LOST s))
  | SubLockQueue e =>
      match m_mutexQueue s with
      | Some _ => None
      | None =>
          let (status, evs) := dispatch o e in
          Some (with_submitThread (SubRelock e status) (publish e status (emit evs s)))
      end
  | SubRelock e status =>
      let s1 := complete o e status s in
      let s2 := with_submitQueue (tail (m_submitQueue s1)) s1 in
      Some (submitCmdLists_top (notify_all_submitCond s2))
  end.

(** ** The finisher, [finishCmdLists] *)

(** Lines 210-226 entered from the top of the loop with [m_mutex] held.  As
    in the submitter, line 225 moves the entry out of the head slot and the
    finisher works on its copy. *)
Definition finishCmdLists_top (s : State) : State :=
  if m_stopped s then with_finishThread FinExited s
  else match m_finishQueue s with
       | [] => with_finishThread (FinWait Waiting) s
       | e :: _ => with_finishThread (FinPeeked e) s
       end.

(** Lines 214-226 when the wait on [m_submitCond] is woken. *)
Definition finishCmdLists_woken (o : Oracle) (s : State) : State :=
  if m_stopped s then
    with_finishThread FinExited (with_gpuIdle (u64 (m_gpuIdle s + o_elapsed o)) s)
  else match m_finishQueue s with
       | [] => with_finishThread (FinWait Waiting) s
       | e :: _ =>
           with_finishThread (FinPeeked e) (with_gpuIdle (u64 (m_gpuIdle s + o_elapsed o)) s)
       end.

(** Lines 233-237.  The finisher runs them without [m_mutex]; they are part
    of the one step the model makes of lines 230-241. *)
Definition sync_failure (status : VkResult) (s : State) : State :=
  if negb (status =? VK_SUCCESS) then
    emit [EvLogErr FailedToSyncFence status; EvWaitForIdle] (with_lastError status s)
  else s.

(** Lines 230-241, with [status] already loaded from [m_lastError]. *)
Definition finish_entry (o : Oracle) (e : DxvkSubmitEntry) (status : VkResult)
    (s : State) : State :=
  match cmdList (entry_submit e) with
  | None =>
      if negb (status =? VK_ERROR_DEVICE_LOST) then with_finishThread FinFault s
      else with_finishThread FinFault (sync_failure status s)
  | Some c =>
      let status' := if negb (status =? VK_ERROR_DEVICE_LOST) then o_result o else status in
      let s1 := if negb (status =? VK_ERROR_DEVICE_LOST)
                then emit [EvCmdSynchronize c (o_result o)] s else s in
      with_finishThread (FinRelock e)
        (emit [EvNotifySignals c; EvReset c; EvRecycle c] (sync_failure status' s1))
  end.

Definition finishCmdLists_step (o : Oracle) (s : State) : option State :=
  match finishThread s with
  | FinStart => Some (finishCmdLists_top s)
  | FinWait Notified => Some (finishCmdLists_woken o s)
  | FinWait Waiting | FinExited | FinFault => None
  | FinPeeked e => Some (with_finishThread (FinLoaded e (m_lastError s)) s)
  | FinLoaded e status => Some (finish_entry o e status s)
  | FinRelock e =>
      let s1 := with_pending (u32 (m_pending s - 1)) s in
      let s2 := with_finishQueue (tail (m_finishQueue s1)) s1 in
      Some (finishCmdLists_top (notify_all_finishCond s2))
  end.

(** ** Spurious wake-ups *)

Definition spurious (th : Thread) (s : State) : option State :=
  match th with
  | TSubmit =>
      match submitThread s with
      | SubWait Waiting => Some (with_submitThread (SubWait Notified) s)
      | _ => None
      end
  | TFinish =>
      match finishThread s with
      | FinWait Waiting => Some (with_finishThread (FinWait Notified) s)
      | _ => None
      end
  | TCaller t =>
      match callers s !! t with
      | Some (InSubmit submitInfo Waiting) =>
          Some (with_callers (<[t := InSubmit submitInfo Notified]> (callers s)) s)
      | Some (InSynchronizeSubmission slot Waiting) =>
          Some (with_callers (<[t := InSynchronizeSubmission slot Notified]> (callers s)) s)
      | Some (InSynchronize Waiting) =>
          Some (with_callers (<[t := InSynchronize Notified]> (callers s)) s)
      | _ => None
      end
  end.

(** ** One step of the whole system, and runs *)

Definition step (l : Label) (s : State) : option State :=
  match l with
  | LCall t c => call t c s
  | LResume t => resume t s
  | LSubmitThread o => submitCmdLists_step o s
  | LFinishThread o => finishCmdLists_step o s
  | LSpurious th => spurious th s
  end.

Fixpoint exec (ls : list Label) (s : State) : option State :=
  match ls with
  | [] => Some s
  | l :: ls' =>
      match step l s with
      | Some s' => exec ls' s'
      | None => None
      end
  end.

Definition reachable (s : State) : Prop := exists ls, exec ls init = Some s.

End Queue.

(** ** Views of a state used in the statements *)

(** The quantity the wait of [submit] compares with the bound. *)
Definition gate_quantity (s : State) : nat :=
  (length (m_submitQueue s) + length (m_finishQueue s))%nat.

(** Entries of a queue that carry a command list, and the others. *)
Definition submit_entries (q : list DxvkSubmitEntry) : list DxvkSubmitEntry :=
  List.filter has_cmdList q.

Definition other_entries (q : list DxvkSubmitEntry) : list DxvkSubmitEntry :=
  List.filter (fun e => negb (has_cmdList e)) q.

(** Both workers blocked in their waits and no producer inside a call. *)
Definition quiescent (s : State) : Prop :=
  submitThread s = SubWait Waiting /\ finishThread s = FinWait Waiting /\ callers s = ∅.

(** The entry the submitter has peeked and not popped yet. *)
Definition in_flight (s : State) : option DxvkSubmitEntry :=
  match submitThread s with
  | SubPeeked e | SubLockQueue e | SubRelock e _ => Some e
  | _ => None
  end.

(** The entry the finisher has peeked and not popped yet. *)
Definition finishing (s : State) : option DxvkSubmitEntry :=
  match finishThread s with
  | FinPeeked e | FinLoaded e _ | FinRelock e => Some e
  | _ => None
  end.

(** The entries of the pending queue, the one in flight read from the
    submitter's copy (its slot at the head of the queue has been moved out
    of) and the others from the queue. *)
Definition pending_entries (s : State) : list DxvkSubmitEntry :=
  match in_flight s with
  | Some e => e :: tail (m_submitQueue s)
  | None => m_submitQueue s
  end.

(** The same for the completion queue and the finisher. *)
Definition completion_entries (s : State) : list DxvkSubmitEntry :=
  match finishing s with
  | Some e => e :: tail (m_finishQueue s)
  | None => m_finishQueue s
  end.

(** [e] has a command list, and [CmdList.submit] was called on it with the
    semaphores of [e] and returned [VK_SUCCESS]. *)
Definition submitted_ok (tr : list Event) (e : DxvkSubmitEntry) : Prop :=
  exists c, cmdList (entry_submit e) = Some c /\
    In (EvCmdSubmit c (waitSync (entry_submit e)) (wakeSync (entry_submit e)) VK_SUCCESS) tr.

(** [m_lastError] is [VK_ERROR_DEVICE_LOST] and neither worker is past a
    test of [m_lastError] that it made before the loss. *)
Definition device_lost_settled (s : State) : Prop :=
  m_lastError s = VK_ERROR_DEVICE_LOST /\
  (forall e, submitThread s <> SubLockQueue e) /\
  (forall e st, submitThread s = SubRelock e st -> st = VK_ERROR_DEVICE_LOST) /\
  (forall e st, finishThread s = FinLoaded e st -> st = VK_ERROR_DEVICE_LOST).

(** ** Invariants *)

(** An entry in flight is still the head of the pending queue. *)
Definition head_in_flight (s : State) : Prop :=
  forall e, in_flight s = Some e -> head (m_submitQueue s) = Some e.

(** What is known of the entries on their way to the finisher. *)
Definition finish_inv (s : State) : Prop :=
  Forall (submitted_ok (trace s)) (m_finishQueue s) /\
  (forall e, finishing s = Some e -> submitted_ok (trace s) e) /\
  (forall e, submitThread s = SubRelock e VK_SUCCESS -> has_cmdList e = true ->
     submitted_ok (trace s) e) /\
  finishThread s <> FinFault.

(** Every status cell is either untouched or holds [VK_ERROR_DEVICE_LOST]. *)
Definition slots_lost (s s' : State) : Prop :=
  forall slot, slots s' !! slot = slots s !! slot \/
               slots s' !! slot = Some VK_ERROR_DEVICE_LOST.

(** The labels of the two worker threads. *)
Definition is_worker_label (l : Label) : bool :=
  match l with
  | LSubmitThread _ | LFinishThread _ => true
  | _ => false
  end.

(** ** Concrete scenarios *)

Definition cfg_plain : DxvkOptions :=
  {| presentThrottleDelay := 0; enableAftermath := false |}.

Definition cfg_aftermath : DxvkOptions :=
  {| presentThrottleDelay := 0; enableAftermath := true |}.

(** The device answers [r]; the crash dump is finished at the third poll. *)
Definition answer (r : VkResult) : Oracle :=
  {| o_result := r;
     o_crashDump := fun n => if (n <? 2)%nat then CrashDump_CollectingData
                             else CrashDump_Finished;
     o_elapsed := 7 |}.

Definition cmdA : DxvkSubmitInfo := {| cmdList := Some 1%nat; waitSync := None; wakeSync := None |}.
Definition cmdB : DxvkSubmitInfo := {| cmdList := Some 2%nat; waitSync := None; wakeSync := None |}.
Definition cmdC : DxvkSubmitInfo := {| cmdList := Some 3%nat; waitSync := None; wakeSync := None |}.
Definition frame1 : DxvkPresentInfo := {| presenter := Some 9%nat; frameId := 1 |}.

(** One submit, dispatched by the submitter with result [r] and completed by
    it (four steps of the submitter), then the finisher started. *)
Definition run_one_submit (r : VkResult) : list Label :=
  [LCall 0 (CallSubmit cmdA);
   LSubmitThread (answer r); LSubmitThread (answer r);
   LSubmitThread (answer r); LSubmitThread (answer r);
   LFinishThread (answer r)].

(** Two submits queued, the first one dispatched and failed with [r]; the
    submitter has peeked the second one. *)
Definition run_first_fails (r : VkResult) : list Label :=
  [LCall 0 (CallSubmit cmdA); LCall 0 (CallSubmit cmdB);
   LSubmitThread (answer r); LSubmitThread (answer r);
   LSubmitThread (answer r); LSubmitThread (answer r)].

Definition two_submits : list Label :=
  [LCall 0 (CallSubmit cmdA); LCall 0 (CallSubmit cmdB)].

Definition three_presents : list Label :=
  [LCall 0 (CallPresent frame1 None); LCall 0 (CallPresent frame1 None);
   LCall 0 (CallPresent frame1 None)].

(** The submitter has peeked the one submit, found [m_lastError] clear, and
    is about to take [m_mutexQueue] for the device call. *)
Definition run_to_device_call : list Label :=
  [LCall 0 (CallSubmit cmdA);
   LSubmitThread (answer VK_SUCCESS); LSubmitThread (answer VK_SUCCESS)].

(** The submitter has dispatched the one submit with result [r] and is about
    to take [m_mutex] to complete it. *)
Definition run_to_relock (r : VkResult) : list Label :=
  [LCall 0 (CallSubmit cmdA);
   LSubmitThread (answer r); LSubmitThread (answer r); LSubmitThread (answer r)].

(** The steps by which the finisher completes the entry at the head of the
    completion queue once it has peeked it. *)
Definition run_finish : list Label :=
  [LFinishThread (answer VK_SUCCESS); LFinishThread (answer VK_SUCCESS);
   LFinishThread (answer VK_SUCCESS)].

(** Three submits fill a pipeline whose bound is two; a second producer then
    calls [submit]. *)
Definition run_blocked_producer : list Label :=
  [LCall 0 (CallSubmit cmdA); LCall 0 (CallSubmit cmdB); LCall 0 (CallSubmit cmdC);
   LCall 1 (CallSubmit cmdA)].

(** The state a run from [init] ends in ([init] itself if the run is not
    possible). *)
Definition state_after (MaxNumQueuedCommandBuffers : nat) (config : DxvkOptions)
    (ls : list Label) : State :=
  default init (exec MaxNumQueuedCommandBuffers config ls init).

(** ** Further views and scenarios *)

(** An entry the finisher holds is still the head of the completion queue. *)
Definition head_finishing (s : State) : Prop :=
  forall e, finishing s = Some e -> head (m_finishQueue s) = Some e.

(** Steps in which every device call answers [VK_SUCCESS] and every submit
    carries a command list. *)
Definition answers_success (l : Label) : bool :=
  match l with
  | LCall _ (CallSubmit submitInfo) =>
      match cmdList submitInfo with Some _ => true | None => false end
  | LSubmitThread o | LFinishThread o => o_result o =? VK_SUCCESS
  | _ => true
  end.

(** The result of the last failure written to the log, [acc] if there is none. *)
Definition logged_result (ev : Event) : option VkResult :=
  match ev with EvLogErr _ r => Some r | _ => None end.

Fixpoint last_logged (tr : list Event) (acc : VkResult) : VkResult :=
  match tr with
  | [] => acc
  | ev :: tr' => last_logged tr' (default acc (logged_result ev))
  end.

Definition logs_failure (ev : Event) : bool :=
  match ev with EvLogErr _ _ => true | _ => false end.

(** [m_lastError] is the last result written to the log.  This holds of the
    model, whose steps keep each store together with its log line; the
    statements below use of it only what holds whichever way the stores of
    the two workers interleave. *)
Definition lastError_inv (s : State) : Prop :=
  m_lastError s = last_logged (trace s) VK_SUCCESS /\
  Forall (fun ev => logged_result ev <> Some VK_SUCCESS) (trace s).

(** ** The history of a run *)

(** The entry a step of a producer appends to the pending queue: the one of
    a [present], and the one of a [submit] that its wait lets through, on
    entry or after a wake-up. *)
Definition pushed_by (MaxNumQueuedCommandBuffers : nat) (l : Label) (s : State)
    : list DxvkSubmitEntry :=
  match l with
  | LCall _ (CallSubmit submitInfo) =>
      if submit_may_proceed MaxNumQueuedCommandBuffers s
      then [submit_entry submitInfo] else []
  | LCall _ (CallPresent presentInfo status) => [present_entry presentInfo status]
  | LResume t =>
      match callers s !! t with
      | Some (InSubmit submitInfo Notified) =>
          if submit_may_proceed MaxNumQueuedCommandBuffers s
          then [submit_entry submitInfo] else []
      | _ => []
      end
  | _ => []
  end.

(** The entry the submitter completes in a step (lines 168-199), with the
    status it completes it with: its own copy of the entry. *)
Definition completed_by (l : Label) (s : State) : list (DxvkSubmitEntry * VkResult) :=
  match l with
  | LSubmitThread _ =>
      match submitThread s with
      | SubRelock e status => [(e, status)]
      | _ => []
      end
  | _ => []
  end.

(** The entry the finisher retires in a step (lines 243-247). *)
Definition finished_by (l : Label) (s : State) : list DxvkSubmitEntry :=
  match l with
  | LFinishThread _ =>
      match finishThread s with
      | FinRelock e => [e]
      | _ => []
      end
  | _ => []
  end.

(** The test of lines 170-171: a completed entry goes on to the finisher. *)
Definition forwarded (c : DxvkSubmitEntry * VkResult) : bool :=
  (snd c =? VK_SUCCESS) && has_cmdList (fst c).

(** What the steps of a run contribute, in the order of the run. *)
Fixpoint history {A : Type} (MaxNumQueuedCommandBuffers : nat) (config : DxvkOptions)
    (f : Label -> State -> list A) (ls : list Label) (s : State) : list A :=
  match ls with
  | [] => []
  | l :: ls' =>
      match step MaxNumQueuedCommandBuffers config l s with
      | Some s' => f l s ++ history MaxNumQueuedCommandBuffers config f ls' s'
      | None => []
      end
  end.

Definition is_finisher_label (l : Label) : bool :=
  match l with LFinishThread _ => true | _ => false end.

(** Every producer blocked in [submit] carries a command list. *)
Definition submit_infos_ok (m : gmap nat CallPhase) : Prop :=
  forall t i w, m !! t = Some (InSubmit i w) -> cmdList i <> None.

(** What holds of the counter as long as no device call has failed. *)
Definition pending_inv (s : State) : Prop :=
  m_lastError s = VK_SUCCESS /\
  m_pending s =
    u32 (Z.of_nat (length (submit_entries (m_submitQueue s)) + length (m_finishQueue s))) /\
  (forall e st, submitThread s = SubRelock e st ->
     st <> VK_ERROR_DEVICE_LOST /\ (has_cmdList e = true -> st = VK_SUCCESS)) /\
  (forall e st, finishThread s = FinLoaded e st -> st = VK_SUCCESS) /\
  submit_infos_ok (callers s).

(** No waiter has missed its wake-up: a worker still waiting has nothing to
    take, and a caller of [synchronize] still waiting has something to wait
    for. *)
Definition wakeup_inv (s : State) : Prop :=
  (submitThread s = SubWait Waiting -> m_submitQueue s = []) /\
  (finishThread s = FinWait Waiting -> m_finishQueue s = []) /\
  (forall t, callers s !! t = Some (InSynchronize Waiting) -> m_submitQueue s <> []).

(** The milliseconds slept in a list of calls. *)
Definition sleep_total (evs : list Event) : Z :=
  fold_right (fun ev acc => match ev with EvSleep ms => ms + acc | _ => acc end) 0 evs.

(** The steps of the submitter alone, the device answering [os k] at the
    k-th of them. *)
Definition submitter_run (os : nat -> Oracle) (start n : nat) : list Label :=
  map (fun k => LSubmitThread (os k)) (seq start n).

(** ** Further scenarios *)

(** A producer holds the device queue lock while a submit is queued and the
    submitter has come to its device call. *)
Definition run_locked_queue : list Label :=
  [LCall 1 CallLockDeviceQueue; LCall 0 (CallSubmit cmdA);
   LSubmitThread (answer VK_SUCCESS); LSubmitThread (answer VK_SUCCESS)].

(** Two submits are queued, nobody has dispatched them, and the destructor
    is entered. *)
Definition run_destroy : list Label :=
  two_submits ++ [LCall 1 CallDestroy].

(** The destructor's two notifications, then each worker's next step. *)
Definition run_after_stop : list Label :=
  [LResume 1; LResume 1; LSubmitThread (answer VK_SUCCESS);
   LFinishThread (answer VK_SUCCESS)].

(** Three presents are queued with a bound of two, a producer blocks in
    [submit], and the submitter has presented the first one and is about to
    complete it. *)
Definition run_blocked_behind_presents : list Label :=
  three_presents ++
  [LCall 1 (CallSubmit cmdA);
   LSubmitThread (answer VK_SUCCESS); LSubmitThread (answer VK_SUCCESS);
   LSubmitThread (answer VK_SUCCESS)].


(** The submitter completes two queued submits, a present being queued in
    between, and the finisher retires the first of them. *)
Definition run_both_workers : list Label :=
  [LSubmitThread (answer VK_SUCCESS); LSubmitThread (answer VK_SUCCESS);
   LSubmitThread (answer VK_SUCCESS); LSubmitThread (answer VK_SUCCESS);
   LCall 0 (CallPresent frame1 None);
   LSubmitThread (answer VK_SUCCESS); LSubmitThread (answer VK_SUCCESS);
   LSubmitThread (answer VK_SUCCESS);
   LFinishThread (answer VK_SUCCESS); LFinishThread (answer VK_SUCCESS);
   LFinishThread (answer VK_SUCCESS); LFinishThread (answer VK_SUCCESS)].

(** The destructor is entered and makes its two notifications while the
    submitter is about to complete the first present; the submitter then
    completes it and exits; the wait of the blocked producer returns
    spuriously and the producer tests its predicate again. *)
Definition run_release_in_shutdown : list Label :=
  [LCall 2 CallDestroy; LResume 2; LResume 2;
   LSubmitThread (answer VK_SUCCESS);
   LSpurious (TCaller 1); LResume 1].

(** With a bound of zero: both workers reach their waits, one submit is
    accepted, a second producer blocks in [submit], the device refuses the
    first submit and the workers go back to their waits. *)
Definition run_blocked_workers_idle : list Label :=
  [LSubmitThread (answer VK_SUCCESS); LFinishThread (answer VK_SUCCESS);
   LCall 0 (CallSubmit cmdA); LCall 1 (CallSubmit cmdB);
   LSubmitThread (answer VK_ERROR_OUT_OF_HOST_MEMORY);
   LSubmitThread (answer VK_ERROR_OUT_OF_HOST_MEMORY);
   LSubmitThread (answer VK_ERROR_OUT_OF_HOST_MEMORY);
   LSubmitThread (answer VK_ERROR_OUT_OF_HOST_MEMORY);
   LFinishThread (answer VK_SUCCESS)].

(** The finisher has loaded [m_lastError] for a first command list before a
    second one is lost; its fence wait then fails with another error, and a
    third command list is dispatched. *)
Definition run_loss_overwritten : list Label :=
  [LCall 0 (CallSubmit cmdA);
   LSubmitThread (answer VK_SUCCESS); LSubmitThread (answer VK_SUCCESS);
   LSubmitThread (answer VK_SUCCESS); LSubmitThread (answer VK_SUCCESS);
   LFinishThread (answer VK_SUCCESS); LFinishThread (answer VK_SUCCESS);
   LCall 0 (CallSubmit cmdB);
   LSubmitThread (answer VK_ERROR_DEVICE_LOST); LSubmitThread (answer VK_ERROR_DEVICE_LOST);
   LSubmitThread (answer VK_ERROR_DEVICE_LOST); LSubmitThread (answer VK_ERROR_DEVICE_LOST)].

Definition run_after_overwrite : list Label :=
  [LCall 0 (CallSubmit cmdC);
   LFinishThread (answer VK_ERROR_OUT_OF_HOST_MEMORY);
   LSubmitThread (answer VK_SUCCESS); LSubmitThread (answer VK_SUCCESS);
   LSubmitThread (answer VK_SUCCESS)].

(** A present with status cell 4 is queued, its producer waits for the cell,
    and the submitter has presented with result [r] and is about to complete
    the entry. *)
Definition run_present_with_slot (r : VkResult) : list Label :=
  [LCall 0 (CallPresent frame1 (Some 4%nat)); LCall 0 (CallSynchronizeSubmission 4);
   LSubmitThread (answer r); LSubmitThread (answer r); LSubmitThread (answer r)].

(** * Properties *)

Section Properties.

Variable MAX : nat.
Variable cfg : DxvkOptions.

Local Abbreviation qstep := (step MAX cfg).
Local Abbreviation qexec := (exec MAX cfg).
Local Abbreviation qsubmit := (submit MAX).
Local Abbreviation qreachable := (reachable MAX cfg).

(** ** Runs *)

Lemma exec_app (ls1 ls2 : list Label) (s : State) :
  qexec (ls1 ++ ls2) s =
  match qexec ls1 s with Some s' => qexec ls2 s' | None => None end.
Proof.
  revert s. induction ls1 as [|l ls1 IH]; intros s; simpl; [reflexivity|].
  destruct (qstep l s); [apply IH | reflexivity].
Qed.

Lemma reachable_init : qreachable init.
Proof. exists []. reflexivity. Qed.

Lemma reachable_step (l : Label) (s s' : State) :
  qreachable s -> qstep l s = Some s' -> qreachable s'.
Proof.
  intros [ls Hls] Hstep. exists (ls ++ [l]).
  rewrite exec_app, Hls. simpl. rewrite Hstep. reflexivity.
Qed.

(** Induction over the states a run goes through. *)
Lemma exec_invariant (P : State -> Prop) :
  (forall l s s', P s -> qstep l s = Some s' -> P s') ->
  forall ls s s', P s -> qexec ls s = Some s' -> P s'.
Proof.
  intros Hstep ls. induction ls as [|l ls IH]; intros s s' HP Hexec; simpl in Hexec.
  - congruence.
  - destruct (qstep l s) as [s1|] eqn:E; [|discriminate].
    eapply IH; [eapply Hstep; eassumption | exact Hexec].
Qed.

Lemma reachable_invariant (P : State -> Prop) :
  P init ->
  (forall l s s', P s -> qstep l s = Some s' -> P s') ->
  forall s, qreachable s -> P s.
Proof.
  intros H0 Hstep s [ls Hls]. eapply exec_invariant; eassumption.
Qed.

(** ** The gate of [submit] *)

Lemma submit_proceeds (t : nat) (i : DxvkSubmitInfo) (s : State) :
  (gate_quantity s <= MAX)%nat ->
  callers (qsubmit t i s) !! t = None /\
  m_submitQueue (qsubmit t i s) = m_submitQueue s ++ [submit_entry i] /\
  m_finishQueue (qsubmit t i s) = m_finishQueue s /\
  m_pending (qsubmit t i s) = u32 (m_pending s + 1).
Proof.
  intros Hle. unfold submit, submit_may_proceed. unfold gate_quantity in Hle.
  destruct (Nat.leb_spec (length (m_submitQueue s) + length (m_finishQueue s)) MAX) as [_|Hgt];
    [|lia].
  simpl. rewrite lookup_delete_eq. auto.
Qed.

Lemma submit_blocks (t : nat) (i : DxvkSubmitInfo) (s : State) :
  (MAX < gate_quantity s)%nat ->
  qsubmit t i s = with_callers (<[t := InSubmit i Waiting]> (callers s)) s.
Proof.
  intros Hgt. unfold submit, submit_may_proceed. unfold gate_quantity in Hgt.
  destruct (Nat.leb_spec (length (m_submitQueue s) + length (m_finishQueue s)) MAX) as [Hle|_];
    [lia | reflexivity].
Qed.

Lemma call_submit (t : nat) (i : DxvkSubmitInfo) (s : State) :
  callers s !! t = None -> qstep (LCall t (CallSubmit i)) s = Some (qsubmit t i s).
Proof. intros H. simpl. unfold call. rewrite H. reflexivity. Qed.



(** ** [present] *)

(** C8.  A call of [present] by an idle producer returns in its one critical
    section with its entry at the tail of the pending queue, whatever the
    two queues hold: there is no wait on the capacity condition. *)
Theorem present_never_blocks (t : nat) (presentInfo : DxvkPresentInfo)
    (status : option nat) (s : State) :
  callers s !! t = None ->
  exists s',
    qstep (LCall t (CallPresent presentInfo status)) s = Some s' /\
    callers s' = callers s /\
    m_submitQueue s' = m_submitQueue s ++ [present_entry presentInfo status] /\
    m_finishQueue s' = m_finishQueue s /\
    m_pending s' = m_pending s /\
    submitThread s' = wake_submitThread (submitThread s).
Proof.
  intros Hidle. exists (present t presentInfo status s).
  simpl. unfold call. rewrite Hidle. unfold present. simpl.
  rewrite delete_id by exact Hidle. auto 10.
Qed.

(** C5, as amended.  The quantity the wait of [submit] compares with the bound
    is the number of all entries of the pending queue, those of presents
    included, plus the length of the completion queue: a submit blocks
    exactly when that exceeds MaxNumQueuedCommandBuffers, and every present
    that is queued raises it by one. *)
Theorem submit_gate_counts_presents (t : nat) (i : DxvkSubmitInfo) (s : State) :
  callers s !! t = None ->
  gate_quantity s =
    (length (submit_entries (m_submitQueue s)) + length (other_entries (m_submitQueue s))
     + length (m_finishQueue s))%nat /\
  (exists s', qstep (LCall t (CallSubmit i)) s = Some s' /\
     (callers s' !! t = Some (InSubmit i Waiting) <-> (MAX < gate_quantity s)%nat) /\
     (callers s' !! t = None <-> (gate_quantity s <= MAX)%nat)) /\
  (forall t' p st s', qstep (LCall t' (CallPresent p st)) s = Some s' ->
     length (other_entries (m_submitQueue s')) = S (length (other_entries (m_submitQueue s))) /\
     length (submit_entries (m_submitQueue s')) = length (submit_entries (m_submitQueue s)) /\
     gate_quantity s' = S (gate_quantity s)).
Proof.
  intros Hidle. split; [|split].
  - unfold gate_quantity, submit_entries, other_entries.
    f_equal. induction (m_submitQueue s) as [|e q IH]; simpl; [reflexivity|].
    destruct (has_cmdList e); simpl; lia.
  - exists (qsubmit t i s). split; [apply call_submit, Hidle|].
    destruct (Nat.le_gt_cases (gate_quantity s) MAX) as [Hle|Hgt].
    + destruct (submit_proceeds t i s Hle) as (Hc & _). rewrite Hc.
      split; split; intros; try discriminate; try lia; auto.
    + rewrite (submit_blocks t i s Hgt). simpl. rewrite lookup_insert_eq.
      split; split; intros; try discriminate; try lia; auto.
  - intros t' p st s' Hstep. simpl in Hstep. unfold call in Hstep.
    destruct (callers s !! t'); [discriminate|]. inversion Hstep; subst s'; clear Hstep.
    unfold gate_quantity, present, other_entries, submit_entries. simpl.
    rewrite !List.filter_app, !length_app. simpl. lia.
Qed.


(** ** Case analysis of one step *)

Ltac proj_simpl :=
  cbn [m_submitQueue m_finishQueue m_pending m_gpuIdle m_lastError m_stopped
       m_mutexQueue submitThread finishThread callers slots trace
       with_submitQueue with_finishQueue with_pending with_gpuIdle with_lastError
       with_stopped with_mutexQueue with_submitThread with_finishThread
       with_callers with_slots emit] in *.

Ltac break_step H :=
  unfold step, call, resume, submitCmdLists_step, finishCmdLists_step, spurious,
    lockDeviceQueue, unlockDeviceQueue, destroy_stage in H;
  repeat match type of H with
         | context [match ?x with _ => _ end] => destruct x eqn:?
         end;
  try discriminate H;
  inversion H; subst; clear H.

Ltac unfold_ops :=
  unfold submit, present, synchronize, synchronizeSubmission, destroy_begin,
    submitCmdLists_top, finishCmdLists_top, finishCmdLists_woken, finish_entry,
    complete, publish, sync_failure, notify_all_appendCond, notify_all_submitCond,
    notify_all_finishCond in *.

Ltac break_ops :=
  unfold_ops; proj_simpl;
  repeat (match goal with
          | |- context [match ?x with _ => _ end] => destruct x eqn:?
          | H : context [match ?x with _ => _ end] |- _ => destruct x eqn:?
          end; proj_simpl).

Ltac break_goal :=
  unfold_ops; proj_simpl;
  repeat (match goal with
          | |- context [match ?x with _ => _ end] => destruct x eqn:?
          end; proj_simpl).

(** ** The head of the pending queue while it is being dispatched *)


Lemma head_app_some {A} (q : list A) (x e : A) :
  head q = Some e -> head (q ++ [x]) = Some e.
Proof. destruct q; simpl; [discriminate | auto]. Qed.

Lemma head_in_flight_step (l : Label) (s s' : State) :
  head_in_flight s -> qstep l s = Some s' -> head_in_flight s'.
Proof.
  unfold head_in_flight. intros Hinv Hstep e He.
  break_step Hstep; break_ops.
  all: unfold in_flight in *; proj_simpl.
  all: repeat match goal with H : submitThread _ = _ |- _ => rewrite H in * end.
  all: try discriminate He.
  all: try (inversion He; subst; reflexivity).
  all: try (destruct (submitThread s) eqn:?; simpl in *; try discriminate He;
            auto using head_app_some; fail).
  all: try (apply Hinv; assumption).
  all: try (specialize (Hinv _ He); congruence).
  all: repeat match goal with H : _ = _ :> list DxvkSubmitEntry |- _ => rewrite H in * end.
  all: simpl in *; congruence.
Qed.

Lemma head_in_flight_reachable (s : State) : qreachable s -> head_in_flight s.
Proof.
  apply reachable_invariant.
  - intros e He. discriminate He.
  - intros l s1 s2. apply head_in_flight_step.
Qed.

(** The entry stays in flight until the submitter's completion step. *)
Lemma in_flight_step (l : Label) (s s' : State) (e : DxvkSubmitEntry) :
  in_flight s = Some e -> qstep l s = Some s' ->
  in_flight s' = Some e \/
  exists o status, l = LSubmitThread o /\ submitThread s = SubRelock e status /\
    m_submitQueue s' = tail (m_submitQueue s).
Proof.
  intros He Hstep.
  break_step Hstep; break_ops.
  all: unfold in_flight in *; proj_simpl.
  all: repeat match goal with H : submitThread _ = _ |- _ => rewrite H in * end.
  all: try discriminate He.
  all: try (left; assumption).
  all: try (inversion He; subst; right; eauto; fail).
  all: try (left; destruct (submitThread s); simpl in *; congruence).
Qed.

Lemma synchronize_returns (t : nat) (s : State) :
  callers (synchronize t s) !! t = None -> m_submitQueue s = [].
Proof.
  unfold synchronize. destruct (m_submitQueue s); [reflexivity|].
  proj_simpl. rewrite lookup_insert_eq. discriminate.
Qed.

Lemma synchronize_blocks (t : nat) (s : State) (e : DxvkSubmitEntry) :
  head (m_submitQueue s) = Some e ->
  callers (synchronize t s) !! t = Some (InSynchronize Waiting).
Proof.
  unfold synchronize. destruct (m_submitQueue s); [discriminate|].
  intros _. proj_simpl. apply lookup_insert_eq.
Qed.

(** C7.  In every state the queue can reach: a call of [synchronize] returns
    only if the pending queue is empty, on entry and after each wake-up; and
    while the submitter has an entry in flight (peeked, inside its device
    call, or waiting for the mutex to complete it) that entry is still the
    head of the pending queue, every [synchronize] stays in its wait, and the
    entry leaves the queue only by the submitter's own completion step. *)
Theorem synchronize_waits_for_in_flight (s : State) :
  qreachable s ->
  (forall t s', qstep (LCall t CallSynchronize) s = Some s' ->
     callers s' !! t = None -> m_submitQueue s = []) /\
  (forall t w s', callers s !! t = Some (InSynchronize w) ->
     qstep (LResume t) s = Some s' ->
     callers s' !! t = None -> m_submitQueue s = []) /\
  (forall e, in_flight s = Some e ->
     head (m_submitQueue s) = Some e /\
     (forall t s', qstep (LCall t CallSynchronize) s = Some s' ->
        callers s' !! t = Some (InSynchronize Waiting)) /\
     (forall t w s', callers s !! t = Some (InSynchronize w) ->
        qstep (LResume t) s = Some s' ->
        callers s' !! t = Some (InSynchronize Waiting)) /\
     (forall l s', qstep l s = Some s' ->
        (in_flight s' = Some e /\ head (m_submitQueue s') = Some e) \/
        (exists o status, l = LSubmitThread o /\
           submitThread s = SubRelock e status /\
           m_submitQueue s' = tail (m_submitQueue s)))).
Proof.
  intros Hreach. pose proof (head_in_flight_reachable s Hreach) as Hhead.
  split; [|split].
  - intros t s' Hstep. simpl in Hstep. unfold call in Hstep.
    destruct (callers s !! t); [discriminate|].
    inversion Hstep; subst. apply synchronize_returns.
  - intros t w s' Hin Hstep. simpl in Hstep. unfold resume in Hstep.
    rewrite Hin in Hstep. destruct w; [discriminate|].
    inversion Hstep; subst. apply synchronize_returns.
  - intros e He. specialize (Hhead e He). split; [exact Hhead|]. split; [|split].
    + intros t s' Hstep. simpl in Hstep. unfold call in Hstep.
      destruct (callers s !! t); [discriminate|].
      inversion Hstep; subst. eapply synchronize_blocks, Hhead.
    + intros t w s' Hin Hstep. simpl in Hstep. unfold resume in Hstep.
      rewrite Hin in Hstep. destruct w; [discriminate|].
      inversion Hstep; subst. eapply synchronize_blocks, Hhead.
    + intros l s' Hstep.
      destruct (in_flight_step l s s' e He Hstep) as [Hkeep|Hpop]; [left|right; exact Hpop].
      split; [exact Hkeep|].
      apply (head_in_flight_step l s s'); [|exact Hstep|exact Hkeep].
      apply head_in_flight_reachable, Hreach.
Qed.

(** ** What a step of a producer leaves alone *)

Lemma wake_submitThread_relock (p : SubmitPhase) (e : DxvkSubmitEntry) (st : VkResult) :
  wake_submitThread p = SubRelock e st -> p = SubRelock e st.
Proof. destruct p; simpl; congruence. Qed.

Lemma wake_submitThread_lockQueue (p : SubmitPhase) (e : DxvkSubmitEntry) :
  wake_submitThread p = SubLockQueue e -> p = SubLockQueue e.
Proof. destruct p; simpl; congruence. Qed.

Lemma wake_finishThread_loaded (p : FinishPhase) (e : DxvkSubmitEntry) (st : VkResult) :
  wake_finishThread p = FinLoaded e st -> p = FinLoaded e st.
Proof. destruct p; simpl; congruence. Qed.

Lemma wake_finishThread_fault (p : FinishPhase) :
  wake_finishThread p = FinFault -> p = FinFault.
Proof. destruct p; simpl; congruence. Qed.

Lemma producer_step_frame (l : Label) (s s' : State) :
  is_worker_label l = false -> qstep l s = Some s' ->
  m_finishQueue s' = m_finishQueue s /\
  trace s' = trace s /\
  m_lastError s' = m_lastError s /\
  slots s' = slots s /\
  (submitThread s' = submitThread s \/ submitThread s' = wake_submitThread (submitThread s)) /\
  (finishThread s' = finishThread s \/ finishThread s' = wake_finishThread (finishThread s)).
Proof.
  intros Hl Hstep. destruct l; try discriminate Hl; clear Hl.
  all: break_step Hstep; break_ops; auto 10.
Qed.

(** ** Only submitted command lists reach the completion queue *)


Lemma submitted_ok_mono (tr evs : list Event) (e : DxvkSubmitEntry) :
  submitted_ok tr e -> submitted_ok (tr ++ evs) e.
Proof.
  intros (c & Hc & Hin). exists c. split; [exact Hc|].
  apply in_or_app. left. exact Hin.
Qed.

Lemma Forall_submitted_ok_mono (tr evs : list Event) (q : list DxvkSubmitEntry) :
  Forall (submitted_ok tr) q -> Forall (submitted_ok (tr ++ evs)) q.
Proof. apply List.Forall_impl. intros e. apply submitted_ok_mono. Qed.

Lemma finishing_wake (p : FinishPhase) :
  match wake_finishThread p with
  | FinPeeked e | FinLoaded e _ | FinRelock e => Some e
  | _ => None
  end = match p with
        | FinPeeked e | FinLoaded e _ | FinRelock e => Some e
        | _ => None
        end.
Proof. destruct p; reflexivity. Qed.

Lemma finish_inv_producer (l : Label) (s s' : State) :
  is_worker_label l = false ->
  finish_inv s -> qstep l s = Some s' -> finish_inv s'.
Proof.
  intros Hl (Hq & Hf & Hs & Hn) Hstep.
  destruct (producer_step_frame l s s' Hl Hstep) as (Eq & Et & _ & _ & Es & Ef).
  unfold finish_inv, finishing. rewrite Eq, Et. split; [exact Hq|]. split; [|split].
  - intros e. destruct Ef as [-> | ->]; [apply Hf|].
    rewrite finishing_wake. apply Hf.
  - intros e He. apply Hs. destruct Es as [Es|Es]; rewrite Es in He; [exact He|].
    apply wake_submitThread_relock, He.
  - intros Hfault. apply Hn. destruct Ef as [Ef|Ef]; rewrite Ef in Hfault; [exact Hfault|].
    apply wake_finishThread_fault, Hfault.
Qed.

Lemma dispatch_success (o : Oracle) (e : DxvkSubmitEntry) (st : VkResult)
    (evs tr : list Event) :
  dispatch cfg o e = (st, evs) -> st = VK_SUCCESS -> has_cmdList e = true ->
  submitted_ok (tr ++ evs) e.
Proof.
  unfold dispatch, has_cmdList. intros Hd Hst Hc.
  destruct (cmdList (entry_submit e)) as [c|] eqn:Ec; [|discriminate Hc].
  inversion Hd; subst. exists c. split; [exact Ec|].
  apply in_or_app. right. rewrite H0. simpl. auto.
Qed.

Lemma finish_inv_top (s : State) :
  Forall (submitted_ok (trace s)) (m_finishQueue s) ->
  (forall e, submitThread s = SubRelock e VK_SUCCESS -> has_cmdList e = true ->
     submitted_ok (trace s) e) ->
  finish_inv (finishCmdLists_top s).
Proof.
  intros Hq Hs. unfold finishCmdLists_top, finish_inv, finishing.
  destruct (m_stopped s); [|destruct (m_finishQueue s) as [|d q] eqn:Eq]; proj_simpl.
  all: rewrite ?Eq; repeat split; try assumption; try discriminate.
  intros e He. inversion He; subst. inversion Hq; assumption.
Qed.

Lemma finish_inv_woken (o : Oracle) (s : State) :
  Forall (submitted_ok (trace s)) (m_finishQueue s) ->
  (forall e, submitThread s = SubRelock e VK_SUCCESS -> has_cmdList e = true ->
     submitted_ok (trace s) e) ->
  finish_inv (finishCmdLists_woken o s).
Proof.
  intros Hq Hs. unfold finishCmdLists_woken, finish_inv, finishing.
  destruct (m_stopped s); [|destruct (m_finishQueue s) as [|d q] eqn:Eq]; proj_simpl.
  all: rewrite ?Eq; repeat split; try assumption; try discriminate.
  intros e He. inversion He; subst. inversion Hq; assumption.
Qed.

Lemma finish_inv_step (l : Label) (s s' : State) :
  finish_inv s -> qstep l s = Some s' -> finish_inv s'.
Proof.
  intros Hinv Hstep.
  destruct (is_worker_label l) eqn:Hl; [|eapply finish_inv_producer; eassumption].
  destruct Hinv as (Hq & Hf & Hs & Hn).
  destruct l; try discriminate Hl; clear Hl.
  - (* the submitter *)
    simpl in Hstep. unfold submitCmdLists_step in Hstep.
    destruct (submitThread s) as [|[]|e|e|e st|] eqn:Hph; try discriminate Hstep.
    all: repeat match type of Hstep with
         | context [match ?x with _ => _ end] => destruct x eqn:?
         end; try discriminate Hstep; inversion Hstep; subst; clear Hstep.
    all: unfold finish_inv; break_goal.
    all: unfold finishing in *; proj_simpl; rewrite ?finishing_wake.
    all: repeat match goal with
         | |- _ /\ _ => split
         | |- Forall _ (_ ++ [_]) => apply Forall_app; split; [|apply Forall_cons; [|apply Forall_nil]]
         end.
    all: try (intros; discriminate).
    all: try assumption.
    all: try (apply Forall_submitted_ok_mono; assumption).
    all: try (intros e' He'; first [apply submitted_ok_mono|idtac]; apply Hf; assumption).
    all: try (intros Hfault; apply Hn; apply wake_finishThread_fault, Hfault).
    all: try (intros e0 He0 Hc; inversion He0; subst; eapply dispatch_success; eauto; fail).
    all: apply List.Forall_app; split; [assumption|];
      constructor; [|constructor];
      apply Hs; [|assumption];
      match goal with H : (_ =? _) = true |- _ => apply Z.eqb_eq in H; rewrite H end;
      reflexivity.
  - (* the finisher *)
    simpl in Hstep. unfold finishCmdLists_step in Hstep.
    destruct (finishThread s) as [|[]|e|e st|e| |] eqn:Hph; try discriminate Hstep.
    all: inversion Hstep; subst; clear Hstep.
    + apply finish_inv_top; assumption.
    + apply finish_inv_woken; assumption.
    + unfold finish_inv, finishing in *. proj_simpl. rewrite Hph in Hf. auto.
    + assert (He : submitted_ok (trace s) e).
      { apply Hf. unfold finishing. rewrite Hph. reflexivity. }
      destruct He as (c & Hc & Hin). unfold finish_entry. rewrite Hc.
      unfold finish_inv, finishing. proj_simpl.
      assert (Hmono : forall e', submitted_ok (trace s) e' ->
                submitted_ok (trace (sync_failure
                  (if negb (st =? VK_ERROR_DEVICE_LOST) then o_result o else st)
                  (if negb (st =? VK_ERROR_DEVICE_LOST)
                   then emit [EvCmdSynchronize c (o_result o)] s else s))
                  ++ [EvNotifySignals c; EvReset c; EvRecycle c]) e').
      { intros e' He'. apply submitted_ok_mono. unfold sync_failure.
        destruct (negb (st =? VK_ERROR_DEVICE_LOST));
          destruct (negb (_ =? VK_SUCCESS)); proj_simpl;
          repeat apply submitted_ok_mono; exact He'. }
      assert (Hframe : forall r s0,
                m_finishQueue (sync_failure r s0) = m_finishQueue s0 /\
                submitThread (sync_failure r s0) = submitThread s0).
      { intros r s0. unfold sync_failure. destruct (negb (r =? VK_SUCCESS)); auto. }
      destruct (Hframe (if negb (st =? VK_ERROR_DEVICE_LOST) then o_result o else st)
                  (if negb (st =? VK_ERROR_DEVICE_LOST)
                   then emit [EvCmdSynchronize c (o_result o)] s else s)) as (Eq & Es).
      rewrite Eq, Es.
      assert (Eq' : m_finishQueue (if negb (st =? VK_ERROR_DEVICE_LOST)
                   then emit [EvCmdSynchronize c (o_result o)] s else s) = m_finishQueue s)
        by (destruct (negb (st =? VK_ERROR_DEVICE_LOST)); reflexivity).
      assert (Es' : submitThread (if negb (st =? VK_ERROR_DEVICE_LOST)
                   then emit [EvCmdSynchronize c (o_result o)] s else s) = submitThread s)
        by (destruct (negb (st =? VK_ERROR_DEVICE_LOST)); reflexivity).
      rewrite Eq', Es'. split; [|split; [|split]].
      * eapply List.Forall_impl; [|exact Hq]. exact Hmono.
      * intros e' He'. inversion He'; subst. apply Hmono. exists c. auto.
      * intros e' He' Hc'. apply Hmono. apply Hs; assumption.
      * discriminate.
    + apply finish_inv_top.
      * unfold notify_all_finishCond. proj_simpl.
        destruct (m_finishQueue s) as [|d q]; simpl; [constructor|].
        inversion Hq; assumption.
      * unfold notify_all_finishCond. proj_simpl. exact Hs.
Qed.

(** ** After the device is lost *)

Lemma queue_calls_app (tr evs : list Event) :
  queue_calls (tr ++ evs) = queue_calls tr ++ queue_calls evs.
Proof. apply List.filter_app. Qed.

Lemma queue_calls_aftermath_poll (fuel : nat) (crash : nat -> CrashDumpStatus) :
  forall counter n, queue_calls (aftermath_poll fuel counter n crash) = [].
Proof.
  induction fuel as [|fuel IH]; intros counter n; simpl; [reflexivity|].
  destruct (counter <? kTimeoutPreventionLimit); [|reflexivity].
  simpl. destruct (crashDump_done (crash n)); simpl; auto.
Qed.

Lemma queue_calls_failure_events (o : Oracle) (status : VkResult) :
  queue_calls (failure_events cfg o status) = [].
Proof.
  unfold failure_events. cbn [queue_calls List.filter is_queue_call].
  fold (queue_calls ((if enableAftermath cfg
          then aftermath_poll poll_fuel 0 0 (o_crashDump o) else []) ++ [EvWaitForIdle])).
  rewrite queue_calls_app. destruct (enableAftermath cfg).
  - rewrite queue_calls_aftermath_poll. reflexivity.
  - reflexivity.
Qed.


Lemma slots_lost_refl (s s' : State) : slots s' = slots s -> slots_lost s s'.
Proof. intros E slot. left. rewrite E. reflexivity. Qed.

Ltac settle :=
  unfold device_lost_settled; proj_simpl;
  repeat match goal with |- _ /\ _ => split end;
  try assumption; try reflexivity; try (intros; discriminate);
  try (intros; congruence);
  try (apply slots_lost_refl; reflexivity).

Lemma device_lost_settled_step (l : Label) (s s' : State) :
  device_lost_settled s -> qstep l s = Some s' ->
  device_lost_settled s' /\
  queue_calls (trace s') = queue_calls (trace s) /\
  slots_lost s s'.
Proof.
  intros (Herr & Hlock & Hrel & Hload) Hstep.
  destruct (is_worker_label l) eqn:Hl.
  2:{ destruct (producer_step_frame l s s' Hl Hstep) as (_ & Et & Ee & Esl & Es & Ef).
      unfold device_lost_settled. rewrite Et, Ee. split; [|split; [reflexivity|]].
      - split; [exact Herr|]. split; [|split].
        + intros e He. destruct Es as [Es|Es]; rewrite Es in He.
          * exact (Hlock e He).
          * exact (Hlock e (wake_submitThread_lockQueue _ _ He)).
        + intros e st He. destruct Es as [Es|Es]; rewrite Es in He.
          * exact (Hrel e st He).
          * exact (Hrel e st (wake_submitThread_relock _ _ _ He)).
        + intros e st He. destruct Ef as [Ef|Ef]; rewrite Ef in He.
          * exact (Hload e st He).
          * exact (Hload e st (wake_finishThread_loaded _ _ _ He)).
      - apply slots_lost_refl, Esl. }
  destruct l; try discriminate Hl; clear Hl.
  - simpl in Hstep. unfold submitCmdLists_step in Hstep.
    destruct (submitThread s) as [|[]|e|e|e st|] eqn:Hph; try discriminate Hstep.
    + inversion Hstep; subst; clear Hstep. unfold submitCmdLists_top.
      destruct (m_stopped s); [|destruct (m_submitQueue s)]; settle.
    + inversion Hstep; subst; clear Hstep. unfold submitCmdLists_top.
      destruct (m_stopped s); [|destruct (m_submitQueue s)]; settle.
    + rewrite Herr, Z.eqb_refl in Hstep. simpl in Hstep.
      inversion Hstep; subst; clear Hstep. unfold publish.
      destruct (entry_status e) as [slot0|]; settle.
      intros slot. proj_simpl. destruct (decide (slot0 = slot)) as [->|Hne].
      * right. apply lookup_insert_eq.
      * left. apply lookup_insert_ne, Hne.
    + exfalso. exact (Hlock e eq_refl).
    + assert (st = VK_ERROR_DEVICE_LOST) by (eapply Hrel; reflexivity). subst st.
      inversion Hstep; subst; clear Hstep.
      unfold complete. change (VK_ERROR_DEVICE_LOST =? VK_SUCCESS) with false.
      rewrite Z.eqb_refl. cbn [orb].
      unfold submitCmdLists_top, notify_all_submitCond. proj_simpl.
      destruct (m_stopped s); [|destruct (tail (m_submitQueue s))]; settle.
      all: try (intros e' st' He'; eapply Hload;
                apply wake_finishThread_loaded; exact He').
      all: rewrite queue_calls_app, queue_calls_failure_events; apply app_nil_r.
  - simpl in Hstep. unfold finishCmdLists_step in Hstep.
    destruct (finishThread s) as [|[]|e|e st|e| |] eqn:Hph; try discriminate Hstep.
    all: inversion Hstep; subst; clear Hstep.
    + unfold finishCmdLists_top.
      destruct (m_stopped s); [|destruct (m_finishQueue s)]; settle.
    + unfold finishCmdLists_woken.
      destruct (m_stopped s); [|destruct (m_finishQueue s)]; settle.
    + settle.
    + assert (st = VK_ERROR_DEVICE_LOST) by (eapply Hload; reflexivity). subst st.
      unfold finish_entry, sync_failure. rewrite Z.eqb_refl. cbn [negb].
      change (VK_ERROR_DEVICE_LOST =? VK_SUCCESS) with false. cbn [negb].
      destruct (cmdList (entry_submit e)); settle.
      all: rewrite !queue_calls_app; simpl; rewrite ?app_nil_r; reflexivity.
    + unfold finishCmdLists_top, notify_all_finishCond. proj_simpl.
      destruct (m_stopped s); [|destruct (tail (m_finishQueue s))]; settle.
Qed.

Lemma slots_lost_trans (s1 s2 s3 : State) :
  slots_lost s1 s2 -> slots_lost s2 s3 -> slots_lost s1 s3.
Proof.
  intros H12 H23 slot. destruct (H23 slot) as [E|E]; [|right; exact E].
  rewrite E. apply H12.
Qed.

(** C1, as amended.  The submitter tests [m_lastError] against
    [VK_ERROR_DEVICE_LOST] only.  From a state where [m_lastError] is
    [VK_ERROR_DEVICE_LOST] and no worker is still acting on a test made
    before the loss, along every run: [m_lastError] stays
    [VK_ERROR_DEVICE_LOST], no [CmdList.submit], [presentImage], latency
    marker or device queue lock is added to the trace, every entry the
    submitter completes carries the status [VK_ERROR_DEVICE_LOST], and every
    status cell written holds [VK_ERROR_DEVICE_LOST]. *)
Theorem no_queue_call_after_device_lost (ls : list Label) (s s' : State) :
  device_lost_settled s -> qexec ls s = Some s' ->
  m_lastError s' = VK_ERROR_DEVICE_LOST /\
  queue_calls (trace s') = queue_calls (trace s) /\
  (forall e st, submitThread s' = SubRelock e st -> st = VK_ERROR_DEVICE_LOST) /\
  slots_lost s s' /\
  device_lost_settled s'.
Proof.
  revert s. induction ls as [|l ls IH]; intros s Hs Hexec; simpl in Hexec.
  - inversion Hexec; subst. destruct Hs as (He & Hl & Hr & Hf).
    split; [exact He|]. split; [reflexivity|]. split; [exact Hr|].
    split; [apply slots_lost_refl; reflexivity|].
    repeat split; assumption.
  - destruct (qstep l s) as [s1|] eqn:Hstep; [|discriminate Hexec].
    destruct (device_lost_settled_step l s s1 Hs Hstep) as (Hs1 & Hq1 & Hsl1).
    destruct (IH s1 Hs1 Hexec) as (He & Hq & Hr & Hsl & Hs').
    split; [exact He|]. split; [rewrite Hq; exact Hq1|]. split; [exact Hr|].
    split; [eapply slots_lost_trans; eassumption | exact Hs'].
Qed.

(** ** Draining one entry after the device is lost *)








(** ** The crash dump poll *)

Lemma crashDump_polls_app (tr evs : list Event) :
  crashDump_polls (tr ++ evs) = crashDump_polls tr ++ crashDump_polls evs.
Proof. apply List.filter_app. Qed.

(** The fuel of [aftermath_poll] is never what ends the loop: fifty rounds
    bring the counter to [kTimeoutPreventionLimit]. *)
Lemma aftermath_poll_fuel (crash : nat -> CrashDumpStatus) (extra : nat) :
  forall fuel counter n,
    kTimeoutPreventionLimit <= counter + kTimeoutPerTry * Z.of_nat fuel ->
    aftermath_poll (fuel + extra) counter n crash = aftermath_poll fuel counter n crash.
Proof.
  induction fuel as [|fuel IH]; intros counter n Hfuel.
  - simpl. destruct extra; simpl; [reflexivity|].
    destruct (Z.ltb_spec counter kTimeoutPreventionLimit); [lia | reflexivity].
  - cbn [Nat.add aftermath_poll].
    destruct (counter <? kTimeoutPreventionLimit); [|reflexivity].
    destruct (crashDump_done (crash n)); [reflexivity|].
    rewrite IH; [reflexivity|]. unfold kTimeoutPerTry in *. lia.
Qed.

Lemma aftermath_poll_bound (crash : nat -> CrashDumpStatus) :
  forall fuel counter n,
    (length (crashDump_polls (aftermath_poll fuel counter n crash)) <= fuel)%nat.
Proof.
  induction fuel as [|fuel IH]; intros counter n; simpl; [lia|].
  destruct (counter <? kTimeoutPreventionLimit); simpl; [|lia].
  destruct (crashDump_done (crash n)); simpl; [lia|].
  specialize (IH (counter + kTimeoutPerTry) (S n)).
  lia.
Qed.

Lemma aftermath_poll_fuel_enough (crash : nat -> CrashDumpStatus) (extra : nat) :
  aftermath_poll (poll_fuel + extra) 0 0 crash = aftermath_poll poll_fuel 0 0 crash.
Proof. apply aftermath_poll_fuel. vm_compute. discriminate. Qed.

Lemma crashDump_polls_failure_events (o : Oracle) (status : VkResult) :
  crashDump_polls (failure_events cfg o status) =
  if enableAftermath cfg
  then crashDump_polls (aftermath_poll poll_fuel 0 0 (o_crashDump o)) else [].
Proof.
  unfold failure_events. cbn [crashDump_polls List.filter is_crashDump_poll].
  fold (crashDump_polls ((if enableAftermath cfg
          then aftermath_poll poll_fuel 0 0 (o_crashDump o) else []) ++ [EvWaitForIdle])).
  rewrite crashDump_polls_app. simpl. rewrite app_nil_r.
  destruct (enableAftermath cfg); reflexivity.
Qed.

Lemma finisher_never_polls (o : Oracle) (s s' : State) :
  qstep (LFinishThread o) s = Some s' ->
  crashDump_polls (trace s') = crashDump_polls (trace s).
Proof.
  intros Hstep. simpl in Hstep. unfold finishCmdLists_step in Hstep.
  destruct (finishThread s) as [|[]|e|e st|e| |]; try discriminate Hstep.
  all: inversion Hstep; subst; clear Hstep.
  all: break_goal; rewrite ?crashDump_polls_app; simpl; rewrite ?app_nil_r; reflexivity.
Qed.

(** C6, as amended.  When the submitter completes an entry with a status
    other than [VK_SUCCESS] that is [VK_ERROR_DEVICE_LOST] or belongs to a
    submit, it stores the status into [m_lastError], logs, and runs the crash
    dump poll whenever the crash reporter is enabled, whatever the failing
    result is: the poll asks for the status at least once and at most fifty
    times.  With the crash reporter disabled there is no poll.  No step of
    the finisher polls, fence failures included. *)
Theorem crash_poll_on_any_failure (o : Oracle) (e : DxvkSubmitEntry)
    (status : VkResult) (s : State) :
  submitThread s = SubRelock e status ->
  status <> VK_SUCCESS ->
  status = VK_ERROR_DEVICE_LOST \/ has_cmdList e = true ->
  exists s',
    qstep (LSubmitThread o) s = Some s' /\
    m_lastError s' = status /\
    trace s' = trace s ++ failure_events cfg o status /\
    In (EvLogErr CommandSubmissionFailed status) (failure_events cfg o status) /\
    (enableAftermath cfg = true ->
       In (EvGetCrashDumpStatus (o_crashDump o 0)) (failure_events cfg o status) /\
       (1 <= length (crashDump_polls (failure_events cfg o status)) <= 50)%nat) /\
    (enableAftermath cfg = false ->
       crashDump_polls (failure_events cfg o status) = []) /\
    (forall o' s0 s0', qstep (LFinishThread o') s0 = Some s0' ->
       crashDump_polls (trace s0') = crashDump_polls (trace s0)).
Proof.
  intros Hph Hne Hbranch. eexists. split.
  { simpl. unfold submitCmdLists_step. rewrite Hph. reflexivity. }
  unfold complete.
  destruct (Z.eqb_spec status VK_SUCCESS) as [Heq|_]; [contradiction|].
  assert (Hb : (status =? VK_ERROR_DEVICE_LOST) || has_cmdList e = true).
  { destruct Hbranch as [-> | ->]; [rewrite Z.eqb_refl; reflexivity|].
    apply orb_true_r. }
  rewrite Hb. unfold submitCmdLists_top, notify_all_submitCond. proj_simpl.
  split; [destruct (m_stopped s); [|destruct (tail (m_submitQueue s))]; reflexivity|].
  split; [destruct (m_stopped s); [|destruct (tail (m_submitQueue s))]; reflexivity|].
  split; [left; reflexivity|].
  split; [|split].
  - intros Hon. rewrite crashDump_polls_failure_events. unfold failure_events.
    rewrite Hon. split.
    + right. apply in_or_app. left. simpl. left. reflexivity.
    + split.
      * simpl. destruct (crashDump_done (o_crashDump o 0)); simpl; lia.
      * apply (aftermath_poll_bound (o_crashDump o) poll_fuel 0 0).
  - intros Hoff. rewrite crashDump_polls_failure_events, Hoff. reflexivity.
  - intros o' s0 s0'. apply finisher_never_polls.
Qed.

(** C9.  In every state the queue can reach, each entry of the completion
    queue, and the entry the finisher is working on, has a command list that
    is not null on which [CmdList.submit] was called and returned
    [VK_SUCCESS]; the finisher has not dereferenced a null command list, and
    no step makes it do so. *)
Theorem completion_queue_entries_submitted (s : State) :
  qreachable s ->
  Forall (submitted_ok (trace s)) (m_finishQueue s) /\
  (forall e, finishing s = Some e -> submitted_ok (trace s) e) /\
  finishThread s <> FinFault /\
  (forall l s', qstep l s = Some s' -> finishThread s' <> FinFault).
Proof.
  intros Hreach.
  assert (Hinv : finish_inv s).
  { revert s Hreach. apply reachable_invariant.
    - unfold finish_inv, finishing. simpl. repeat split; try discriminate.
      constructor.
    - intros l s1 s2. apply finish_inv_step. }
  destruct Hinv as (Hq & Hf & Hs & Hn).
  split; [exact Hq|]. split; [exact Hf|]. split; [exact Hn|].
  intros l s' Hstep.
  apply (finish_inv_step l s s' (conj Hq (conj Hf (conj Hs Hn))) Hstep).
Qed.

(** ** Who wakes a producer blocked in [submit] *)

Lemma lookup_wake_on_submitCond (m : gmap nat CallPhase) (t : nat)
    (i : DxvkSubmitInfo) (w : Wake) :
  m !! t = Some (InSubmit i w) ->
  (wake_on_submitCond <$> m) !! t = Some (InSubmit i w).
Proof. intros H. rewrite lookup_fmap, H. reflexivity. Qed.

Lemma lookup_wake_on_finishCond (m : gmap nat CallPhase) (t : nat)
    (i : DxvkSubmitInfo) (w : Wake) :
  m !! t = Some (InSubmit i w) ->
  (wake_on_finishCond <$> m) !! t = Some (InSubmit i Notified).
Proof. intros H. rewrite lookup_fmap, H. reflexivity. Qed.

Ltac other_thread t :=
  match goal with
  | Hw : callers ?s !! t = Some _, Ho : callers ?s !! ?t' = _ |- _ =>
      lazymatch t' with
      | t => fail
      | _ => assert (t' <> t) by (intros ->; rewrite Hw in Ho; discriminate Ho)
      end
  end.

(** A producer waiting on [m_finishCond] stays where it is under every step
    except the finisher's pop (lines 243-247) and a spurious wake-up of its
    own wait. *)
Lemma submit_waiter_step (l : Label) (s s' : State) (t : nat) (i : DxvkSubmitInfo) :
  callers s !! t = Some (InSubmit i Waiting) -> qstep l s = Some s' ->
  callers s' !! t = Some (InSubmit i Waiting) \/
  (callers s' !! t = Some (InSubmit i Notified) /\
   ((exists o e, l = LFinishThread o /\ finishThread s = FinRelock e /\
       m_finishQueue s' = tail (m_finishQueue s)) \/
    l = LSpurious (TCaller t))).
Proof.
  intros Hw Hstep.
  break_step Hstep; break_goal.
  all: try (left; exact Hw).
  all: try (other_thread t).
  all: try (left; rewrite ?lookup_insert_ne, ?lookup_delete_ne by assumption;
            first [exact Hw | apply lookup_wake_on_submitCond; exact Hw]).
  all: try (right; split; [eapply lookup_wake_on_finishCond; exact Hw|];
            left; eexists; eexists; repeat split; reflexivity).
  destruct (decide (t0 = t)) as [->|Hne].
  - right. rewrite lookup_insert_eq. rewrite Hw in *.
    match goal with H : Some _ = Some _ |- _ => inversion H; subst end.
    split; [reflexivity | right; reflexivity].
  - left. rewrite lookup_insert_ne by assumption. exact Hw.
Qed.

(** C10, as amended.  While a producer is blocked in the wait of [submit]:
    a destructor can be entered, it sets [m_stopped] and wakes nobody; its
    first notification wakes the waiter on [m_appendCond] (the submitter)
    and nobody else, its second one the waiters on [m_submitCond] (the
    finisher and the callers of synchronize and synchronizeSubmission) and
    nobody else; every statement of a destructor leaves the producer
    blocked, so shutdown does not wake it; the producer cannot go on by
    itself.  The only step of the program after which it is no longer
    waiting is the finisher's pop of the completion queue, which does wake
    it; the one other way out of the wait is a spurious return of the wait
    itself.  However it was woken, the producer then tests the predicate of
    the wait again: it appends its entry and returns exactly when at most
    MaxNumQueuedCommandBuffers entries are queued, whoever removed the
    others, and goes back to waiting otherwise. *)
Theorem destructor_never_signals_finishCond (t : nat) (i : DxvkSubmitInfo) (s : State) :
  callers s !! t = Some (InSubmit i Waiting) ->
  (forall d, callers s !! d = None ->
     exists s', qstep (LCall d CallDestroy) s = Some s' /\
       m_stopped s' = true /\
       submitThread s' = submitThread s /\
       finishThread s' = finishThread s /\
       callers s' = <[d := InDestroy DtorNotifyAppend]> (callers s) /\
       callers s' !! t = Some (InSubmit i Waiting)) /\
  (forall d, callers s !! d = Some (InDestroy DtorNotifyAppend) ->
     exists s', qstep (LResume d) s = Some s' /\
       submitThread s' = wake_submitThread (submitThread s) /\
       finishThread s' = finishThread s /\
       callers s' = <[d := InDestroy DtorNotifySubmit]> (callers s) /\
       callers s' !! t = Some (InSubmit i Waiting)) /\
  (forall d, callers s !! d = Some (InDestroy DtorNotifySubmit) ->
     exists s', qstep (LResume d) s = Some s' /\
       finishThread s' = wake_finishThread (finishThread s) /\
       submitThread s' = submitThread s /\
       callers s' = <[d := InDestroy DtorJoinSubmit]> (wake_on_submitCond <$> callers s) /\
       callers s' !! t = Some (InSubmit i Waiting)) /\
  (forall d stage s', callers s !! d = Some (InDestroy stage) ->
     qstep (LResume d) s = Some s' ->
     callers s' !! t = Some (InSubmit i Waiting)) /\
  qstep (LResume t) s = None /\
  (forall l s', qstep l s = Some s' ->
     callers s' !! t = Some (InSubmit i Waiting) \/
     (callers s' !! t = Some (InSubmit i Notified) /\
      ((exists o e, l = LFinishThread o /\ finishThread s = FinRelock e /\
          m_finishQueue s' = tail (m_finishQueue s)) \/
       l = LSpurious (TCaller t)))) /\
  (forall o e, finishThread s = FinRelock e ->
     exists s', qstep (LFinishThread o) s = Some s' /\
       callers s' !! t = Some (InSubmit i Notified)) /\
  (exists s', qstep (LSpurious (TCaller t)) s = Some s' /\
     callers s' !! t = Some (InSubmit i Notified)) /\
  (forall s1, callers s1 !! t = Some (InSubmit i Notified) ->
     exists s2, qstep (LResume t) s1 = Some s2 /\
       ((gate_quantity s1 <= MAX)%nat ->
          callers s2 !! t = None /\
          m_submitQueue s2 = m_submitQueue s1 ++ [submit_entry i]) /\
       ((MAX < gate_quantity s1)%nat ->
          callers s2 !! t = Some (InSubmit i Waiting) /\
          m_submitQueue s2 = m_submitQueue s1)).
Proof.
  intros Hw.
  assert (Hother : forall d c, callers s !! d = c -> c <> Some (InSubmit i Waiting) -> d <> t).
  { intros d c Hd Hc ->. apply Hc. rewrite <- Hd. exact Hw. }
  split; [|split; [|split; [|split; [|split; [|split; [|split; [|split]]]]]]].
  - intros d Hd. assert (Hne : d <> t) by (eapply Hother; [exact Hd | discriminate]).
    eexists. split; [simpl; unfold call; rewrite Hd; reflexivity|].
    unfold destroy_begin. proj_simpl. repeat split.
    rewrite lookup_insert_ne by exact Hne. exact Hw.
  - intros d Hd. assert (Hne : d <> t) by (eapply Hother; [exact Hd | discriminate]).
    eexists. split; [simpl; unfold resume; rewrite Hd; reflexivity|].
    unfold notify_all_appendCond. proj_simpl. repeat split.
    rewrite lookup_insert_ne by exact Hne. exact Hw.
  - intros d Hd. assert (Hne : d <> t) by (eapply Hother; [exact Hd | discriminate]).
    eexists. split; [simpl; unfold resume; rewrite Hd; reflexivity|].
    unfold notify_all_submitCond. proj_simpl. repeat split.
    rewrite lookup_insert_ne by exact Hne.
    apply lookup_wake_on_submitCond, Hw.
  - intros d stage s' Hd Hstep.
    destruct (submit_waiter_step _ s s' t i Hw Hstep) as [Hk|(_ & [(o & e & Hl & _)|Hl])];
      try discriminate Hl.
    exact Hk.
  - simpl. unfold resume. rewrite Hw. reflexivity.
  - intros l s'. apply submit_waiter_step, Hw.
  - intros o e Hph. eexists.
    split; [simpl; unfold finishCmdLists_step; rewrite Hph; reflexivity|].
    unfold finishCmdLists_top, notify_all_finishCond. proj_simpl.
    destruct (m_stopped s); [|destruct (tail (m_finishQueue s))]; proj_simpl.
    all: eapply lookup_wake_on_finishCond; exact Hw.
  - eexists. split; [simpl; unfold spurious; rewrite Hw; reflexivity|].
    proj_simpl. apply lookup_insert_eq.
  - intros s1 H1. exists (qsubmit t i s1). unfold resume. simpl. unfold resume.
    rewrite H1. split; [reflexivity|]. split.
    + intros Hle. destruct (submit_proceeds t i s1 Hle) as (? & ? & _). auto.
    + intros Hgt. rewrite (submit_blocks t i s1 Hgt). proj_simpl.
      rewrite lookup_insert_eq. auto.
Qed.

(** ** The pending counter *)

(** C2.  A run the code can make: one submit is queued, the submitter
    dispatches it, [CmdList.submit] answers [VK_ERROR_DEVICE_LOST], the entry
    is popped, and both workers go to their waits.  At that quiescent point
    both queues are empty and [m_pending] is 1: the failure branch of lines
    173-196 drops the entry without the decrement that the finisher makes at
    line 244.  When the same submit succeeds and the finisher completes it,
    [m_pending] is back to 0. *)
Theorem pending_count_leaks_on_failed_submit :
  (exists s,
     qexec (run_one_submit VK_ERROR_DEVICE_LOST) init = Some s /\
     quiescent s /\
     m_submitQueue s = [] /\ m_finishQueue s = [] /\
     m_pending s = 1 /\
     m_pending s <>
       Z.of_nat (length (submit_entries (m_submitQueue s)) + length (m_finishQueue s))) /\
  (exists s,
     qexec (run_one_submit VK_SUCCESS ++ run_finish) init = Some s /\
     quiescent s /\
     m_submitQueue s = [] /\ m_finishQueue s = [] /\
     m_pending s = 0).
Proof.
  split.
  - exists (state_after MAX cfg (run_one_submit VK_ERROR_DEVICE_LOST)).
    unfold quiescent. vm_compute. repeat split; try reflexivity. discriminate.
  - exists (state_after MAX cfg (run_one_submit VK_SUCCESS ++ run_finish)).
    unfold quiescent. vm_compute. repeat split; reflexivity.
Qed.


(** ** The trace only grows *)

Lemma trace_grows (l : Label) (s s' : State) :
  qstep l s = Some s' -> exists evs, trace s' = trace s ++ evs.
Proof.
  intros Hstep.
  destruct (is_worker_label l) eqn:Hl.
  2:{ destruct (producer_step_frame l s s' Hl Hstep) as (_ & Et & _).
      exists []. rewrite Et, app_nil_r. reflexivity. }
  destruct l; try discriminate Hl; clear Hl.
  - simpl in Hstep. unfold submitCmdLists_step in Hstep.
    destruct (submitThread s) as [|[]|e|e|e st|]; try discriminate Hstep.
    all: repeat match type of Hstep with
         | context [match ?x with _ => _ end] => destruct x eqn:?
         end; try discriminate Hstep; inversion Hstep; subst; clear Hstep.
    all: break_goal.
    all: first [ exists []; rewrite app_nil_r; reflexivity | eexists; reflexivity ].
  - simpl in Hstep. unfold finishCmdLists_step in Hstep.
    destruct (finishThread s) as [|[]|e|e st|e| |]; try discriminate Hstep.
    all: inversion Hstep; subst; clear Hstep.
    all: break_goal; rewrite <- ?app_assoc.
    all: first [ exists []; rewrite app_nil_r; reflexivity | eexists; reflexivity ].
Qed.

(** ** The device queue lock *)

(** X3.  Taking and releasing the device queue lock gives back the very
    state the producer started from. *)
Theorem lock_unlock_roundtrip (t : nat) (s : State) :
  callers s !! t = None -> m_mutexQueue s = None ->
  qexec [LCall t CallLockDeviceQueue; LCall t CallUnlockDeviceQueue] s = Some s.
Proof.
  intros Hidle Hfree. destruct s. simpl in *. subst.
  unfold call, lockDeviceQueue, unlockDeviceQueue. simpl. rewrite Hidle. simpl.
  rewrite Hidle. reflexivity.
Qed.

Lemma mutexQueue_step (l : Label) (s s' : State) (h : nat) :
  m_mutexQueue s = Some h -> qstep l s = Some s' ->
  m_mutexQueue s' = Some h \/ exists t, l = LCall t CallUnlockDeviceQueue.
Proof.
  intros Hh Hstep. break_step Hstep; break_goal; eauto; congruence.
Qed.

(** X4.  While a producer holds the device queue lock: a call of
    [lockDeviceQueue] cannot go on, whoever makes it; no step releases the
    lock except a call of [unlockDeviceQueue], and the holder's own call
    releases it; the submitter cannot start the device call of the entry it
    has peeked; producers still enqueue, since the lock is not [m_mutex];
    and an entry peeked after device loss is completed without the lock. *)
Theorem queue_lock_excludes_submitter (h : nat) (s : State) :
  m_mutexQueue s = Some h ->
  (forall t, qstep (LCall t CallLockDeviceQueue) s = None) /\
  (forall l s', qstep l s = Some s' ->
     m_mutexQueue s' = Some h \/ exists t, l = LCall t CallUnlockDeviceQueue) /\
  (callers s !! h = None ->
     exists s', qstep (LCall h CallUnlockDeviceQueue) s = Some s' /\
       m_mutexQueue s' = None) /\
  (forall e o, submitThread s = SubLockQueue e -> qstep (LSubmitThread o) s = None) /\
  (forall t i, callers s !! t = None ->
     qstep (LCall t (CallSubmit i)) s = Some (submit MAX t i s)) /\
  (forall t p st, callers s !! t = None ->
     qstep (LCall t (CallPresent p st)) s = Some (present t p st s)) /\
  (forall e o, submitThread s = SubPeeked e -> m_lastError s = VK_ERROR_DEVICE_LOST ->
     exists s', qstep (LSubmitThread o) s = Some s' /\
       submitThread s' = SubRelock e VK_ERROR_DEVICE_LOST /\
       m_mutexQueue s' = Some h).
Proof.
  intros Hh. split; [|split; [|split; [|split; [|split; [|split]]]]].
  - intros t. simpl. unfold call, lockDeviceQueue. rewrite Hh.
    destruct (callers s !! t); reflexivity.
  - intros l s'. apply mutexQueue_step, Hh.
  - intros Hidle. eexists.
    split; [simpl; unfold call, unlockDeviceQueue; rewrite Hidle; reflexivity|].
    reflexivity.
  - intros e o Hph. simpl. unfold submitCmdLists_step. rewrite Hph, Hh. reflexivity.
  - intros t i Hidle. simpl. unfold call. rewrite Hidle. reflexivity.
  - intros t p st Hidle. simpl. unfold call. rewrite Hidle. reflexivity.
  - intros e o Hph Herr. eexists. split.
    + simpl. unfold submitCmdLists_step. rewrite Hph, Herr, Z.eqb_refl. reflexivity.
    + unfold publish. destruct (entry_status e); split; auto.
Qed.

(** X5.  The finisher never needs the device queue lock and never touches the
    device queue: each of its steps does the same whoever holds the lock, and
    adds no queue call to the trace. *)
Theorem finisher_ignores_queue_lock (o : Oracle) (holder : option nat) (s : State) :
  qstep (LFinishThread o) (with_mutexQueue holder s) =
    with_mutexQueue holder <$> qstep (LFinishThread o) s /\
  (forall s', qstep (LFinishThread o) s = Some s' ->
     queue_calls (trace s') = queue_calls (trace s) /\
     m_mutexQueue s' = m_mutexQueue s /\
     m_submitQueue s' = m_submitQueue s).
Proof.
  split.
  - simpl. unfold finishCmdLists_step. proj_simpl.
    destruct (finishThread s) as [|[]|e|e st|e| |]; try reflexivity.
    all: simpl; f_equal; break_goal; reflexivity.
  - intros s' Hstep. simpl in Hstep. unfold finishCmdLists_step in Hstep.
    destruct (finishThread s) as [|[]|e|e st|e| |]; try discriminate Hstep.
    all: inversion Hstep; subst; clear Hstep.
    all: break_goal; rewrite ?queue_calls_app; simpl; rewrite ?app_nil_r; auto.
Qed.

(** ** [m_lastError] and the log *)

Lemma last_logged_app (tr evs : list Event) :
  forall acc, last_logged (tr ++ evs) acc = last_logged evs (last_logged tr acc).
Proof. induction tr as [|ev tr IH]; intros acc; simpl; [reflexivity | apply IH]. Qed.

Lemma last_logged_aftermath_poll (fuel : nat) (crash : nat -> CrashDumpStatus) :
  forall counter n acc, last_logged (aftermath_poll fuel counter n crash) acc = acc.
Proof.
  induction fuel as [|fuel IH]; intros counter n acc; simpl; [reflexivity|].
  destruct (counter <? kTimeoutPreventionLimit); [|reflexivity].
  simpl. destruct (crashDump_done (crash n)); simpl; auto.
Qed.

Lemma last_logged_failure_events (o : Oracle) (status acc : VkResult) :
  last_logged (failure_events cfg o status) acc = status.
Proof.
  unfold failure_events. cbn [last_logged logged_result default].
  rewrite last_logged_app. destruct (enableAftermath cfg).
  - rewrite last_logged_aftermath_poll. reflexivity.
  - reflexivity.
Qed.

Lemma logs_failure_aftermath_poll (fuel : nat) (crash : nat -> CrashDumpStatus) :
  forall counter n, List.filter logs_failure (aftermath_poll fuel counter n crash) = [].
Proof.
  induction fuel as [|fuel IH]; intros counter n; simpl; [reflexivity|].
  destruct (counter <? kTimeoutPreventionLimit); [|reflexivity].
  simpl. destruct (crashDump_done (crash n)); simpl; auto.
Qed.

Lemma Forall_not_success_aftermath_poll (fuel : nat) (crash : nat -> CrashDumpStatus) :
  forall counter n,
    Forall (fun ev => logged_result ev <> Some VK_SUCCESS)
      (aftermath_poll fuel counter n crash).
Proof.
  induction fuel as [|fuel IH]; intros counter n; simpl; [constructor|].
  destruct (counter <? kTimeoutPreventionLimit); [|constructor].
  constructor; [discriminate|].
  destruct (crashDump_done (crash n)); [constructor|].
  constructor; [discriminate | apply IH].
Qed.

Lemma no_log_events (evs : list Event) :
  List.filter logs_failure evs = [] ->
  (forall acc, last_logged evs acc = acc) /\
  Forall (fun ev => logged_result ev <> Some VK_SUCCESS) evs.
Proof.
  induction evs as [|ev evs IH]; simpl; intros Hf.
  - split; [reflexivity | constructor].
  - destruct ev; simpl in Hf; try discriminate Hf.
    all: destruct (IH Hf) as (H1 & H2); split;
      [intros acc; simpl; apply H1 | constructor; [discriminate | exact H2]].
Qed.

Lemma dispatch_no_log (o : Oracle) (e : DxvkSubmitEntry) :
  List.filter logs_failure (snd (dispatch cfg o e)) = [].
Proof.
  unfold dispatch.
  destruct (cmdList (entry_submit e)); [reflexivity|].
  destruct (presenter (entry_present e)); [|reflexivity].
  simpl. destruct (0 <? presentThrottleDelay cfg); reflexivity.
Qed.

Lemma lastError_inv_emit_quiet (evs : list Event) (s : State) :
  List.filter logs_failure evs = [] ->
  lastError_inv s -> lastError_inv (emit evs s).
Proof.
  intros Hq (Herr & Hlog). destruct (no_log_events evs Hq) as (H1 & H2).
  unfold lastError_inv. proj_simpl. rewrite last_logged_app, H1.
  split; [exact Herr | apply Forall_app; split; assumption].
Qed.

Lemma lastError_inv_same (s s' : State) :
  m_lastError s' = m_lastError s -> trace s' = trace s ->
  lastError_inv s -> lastError_inv s'.
Proof. unfold lastError_inv. intros -> ->. auto. Qed.

Lemma lastError_inv_failure (status : VkResult) (evs : list Event) (s : State) :
  status <> VK_SUCCESS ->
  (exists msg rest, evs = EvLogErr msg status :: rest /\
     List.filter logs_failure rest = []) ->
  lastError_inv s -> lastError_inv (emit evs (with_lastError status s)).
Proof.
  intros Hne (msg & rest & -> & Hq) (Herr & Hlog).
  destruct (no_log_events rest Hq) as (H1 & H2).
  unfold lastError_inv. proj_simpl. rewrite last_logged_app. simpl. rewrite H1.
  split; [reflexivity|]. apply Forall_app. split; [exact Hlog|].
  constructor; [|exact H2]. simpl. intros H. inversion H. contradiction.
Qed.

Lemma failure_events_shape (o : Oracle) (status : VkResult) :
  exists msg rest, failure_events cfg o status = EvLogErr msg status :: rest /\
    List.filter logs_failure rest = [].
Proof.
  unfold failure_events. eexists. eexists. split; [reflexivity|].
  rewrite List.filter_app.
  change (List.filter logs_failure [EvWaitForIdle]) with (@nil Event).
  rewrite app_nil_r.
  destruct (enableAftermath cfg); [apply logs_failure_aftermath_poll | reflexivity].
Qed.

Lemma lastError_inv_step (l : Label) (s s' : State) :
  lastError_inv s -> qstep l s = Some s' -> lastError_inv s'.
Proof.
  intros Hinv Hstep.
  destruct (is_worker_label l) eqn:Hl.
  2:{ destruct (producer_step_frame l s s' Hl Hstep) as (_ & Et & Ee & _).
      eapply lastError_inv_same; eassumption. }
  destruct l; try discriminate Hl; clear Hl.
  - simpl in Hstep. unfold submitCmdLists_step in Hstep.
    destruct (submitThread s) as [|[]|e|e|e st|] eqn:Hph; try discriminate Hstep.
    + inversion Hstep; subst. eapply lastError_inv_same; [| |exact Hinv];
        unfold submitCmdLists_top; break_goal; reflexivity.
    + inversion Hstep; subst. eapply lastError_inv_same; [| |exact Hinv];
        unfold submitCmdLists_top; break_goal; reflexivity.
    + destruct (negb (m_lastError s =? VK_ERROR_DEVICE_LOST));
        inversion Hstep; subst; (eapply lastError_inv_same; [| |exact Hinv]);
        break_goal; reflexivity.
    + destruct (m_mutexQueue s); [discriminate|].
      pose proof (dispatch_no_log o e) as Hq.
      destruct (dispatch cfg o e) as [st evs]. simpl in Hq.
      inversion Hstep; subst; clear Hstep.
      apply (lastError_inv_emit_quiet evs s Hq) in Hinv.
      eapply lastError_inv_same; [| |exact Hinv]; break_goal; reflexivity.
    + inversion Hstep; subst; clear Hstep.
      assert (Hc : lastError_inv (complete cfg o e st s)).
      { unfold complete. destruct (Z.eqb_spec st VK_SUCCESS) as [_|Hne].
        - destruct (has_cmdList e); [|exact Hinv].
          eapply lastError_inv_same; [| |exact Hinv]; reflexivity.
        - destruct ((st =? VK_ERROR_DEVICE_LOST) || has_cmdList e); [|exact Hinv].
          apply lastError_inv_failure; [exact Hne | apply failure_events_shape | exact Hinv]. }
      eapply lastError_inv_same; [| |exact Hc];
        unfold submitCmdLists_top, notify_all_submitCond; break_goal; reflexivity.
  - simpl in Hstep. unfold finishCmdLists_step in Hstep.
    destruct (finishThread s) as [|[]|e|e st|e| |] eqn:Hph; try discriminate Hstep.
    all: inversion Hstep; subst; clear Hstep.
    1,2,3,5: (eapply lastError_inv_same; [| |exact Hinv]);
        unfold finishCmdLists_top, finishCmdLists_woken, notify_all_finishCond;
        break_goal; reflexivity.
    assert (Hsf : forall r s0, lastError_inv s0 -> lastError_inv (sync_failure r s0)).
    { intros r s0 H0. unfold sync_failure.
      destruct (Z.eqb_spec r VK_SUCCESS) as [_|Hne]; simpl; [exact H0|].
      apply lastError_inv_failure; [exact Hne| |exact H0].
      eexists. eexists. split; reflexivity. }
    unfold finish_entry. destruct (cmdList (entry_submit e)) as [c|].
    + apply lastError_inv_emit_quiet; [reflexivity|].
      eapply lastError_inv_same with
        (s := sync_failure (if negb (st =? VK_ERROR_DEVICE_LOST) then o_result o else st)
                (if negb (st =? VK_ERROR_DEVICE_LOST)
                 then emit [EvCmdSynchronize c (o_result o)] s else s));
        [reflexivity | reflexivity |].
      apply Hsf. destruct (negb (st =? VK_ERROR_DEVICE_LOST)); [|exact Hinv].
      apply lastError_inv_emit_quiet; [reflexivity | exact Hinv].
    + destruct (negb (st =? VK_ERROR_DEVICE_LOST)).
      * eapply lastError_inv_same; [| |exact Hinv]; reflexivity.
      * eapply lastError_inv_same; [| |apply (Hsf st s Hinv)]; reflexivity.
Qed.

Lemma last_logged_success (tr : list Event) :
  Forall (fun ev => logged_result ev <> Some VK_SUCCESS) tr ->
  forall acc, last_logged tr acc = VK_SUCCESS <->
              List.filter logs_failure tr = [] /\ acc = VK_SUCCESS.
Proof.
  induction tr as [|ev tr IH]; intros Hall acc; simpl.
  - split; [intros ->; auto | intros [_ ->]; reflexivity].
  - inversion Hall as [|? ? Hev Htr]; subst. rewrite (IH Htr).
    destruct ev; simpl in *; try reflexivity.
    split; intros [H1 H2]; [exfalso; apply Hev; congruence | discriminate H1].
Qed.

Lemma exec_trace_grows (ls : list Label) :
  forall s s', qexec ls s = Some s' -> exists evs, trace s' = trace s ++ evs.
Proof.
  induction ls as [|l ls IH]; intros s s' Hexec; simpl in Hexec.
  - inversion Hexec; subst. exists []. rewrite app_nil_r. reflexivity.
  - destruct (qstep l s) as [s1|] eqn:Hstep; [|discriminate].
    destruct (IH s1 s' Hexec) as [evs Hevs].
    destruct (trace_grows l s s1 Hstep) as [evs1 Hevs1].
    exists (evs1 ++ evs). rewrite Hevs, Hevs1, app_assoc. reflexivity.
Qed.

Lemma reachable_exec (ls : list Label) (s s' : State) :
  qreachable s -> qexec ls s = Some s' -> qreachable s'.
Proof.
  intros [ls0 H0] Hexec. exists (ls0 ++ ls). rewrite exec_app, H0. exact Hexec.
Qed.

Lemma last_logged_in (tr : list Event) :
  forall acc, last_logged tr acc = acc \/
              exists msg, In (EvLogErr msg (last_logged tr acc)) tr.
Proof.
  induction tr as [|ev tr IH]; intros acc; simpl; [left; reflexivity|].
  destruct (IH (default acc (logged_result ev))) as [E|(msg & Hin)].
  - rewrite E. destruct ev; simpl; auto. right. eexists. left. reflexivity.
  - right. exists msg. right. exact Hin.
Qed.

(** X13.  In every state the queue can reach: no result written to the log
    is [VK_SUCCESS]; [m_lastError] is [VK_SUCCESS] or a result that has been
    written to the log, since each store follows the log line for the same
    result; and once [m_lastError] is not [VK_SUCCESS] it never becomes
    [VK_SUCCESS] again. *)
Theorem lastError_was_logged (s : State) :
  qreachable s ->
  Forall (fun ev => logged_result ev <> Some VK_SUCCESS) (trace s) /\
  (m_lastError s = VK_SUCCESS \/
   exists msg, In (EvLogErr msg (m_lastError s)) (trace s)) /\
  (forall ls s', qexec ls s = Some s' ->
     m_lastError s <> VK_SUCCESS -> m_lastError s' <> VK_SUCCESS).
Proof.
  assert (Hinv : forall s0, qreachable s0 -> lastError_inv s0).
  { apply reachable_invariant.
    - split; [reflexivity | constructor].
    - intros l s1 s2. apply lastError_inv_step. }
  intros Hreach. destruct (Hinv s Hreach) as (Herr & Hlog).
  split; [exact Hlog|]. split.
  - rewrite Herr. apply last_logged_in.
  - intros ls s' Hexec Hne Heq. apply Hne.
    destruct (Hinv s' (reachable_exec ls s s' Hreach Hexec)) as (Herr' & Hlog').
    rewrite Herr' in Heq. apply (last_logged_success _ Hlog') in Heq.
    destruct Heq as [Hf _].
    destruct (exec_trace_grows ls s s' Hexec) as [evs Hevs].
    rewrite Hevs, List.filter_app in Hf. apply app_eq_nil in Hf.
    rewrite Herr. apply (last_logged_success _ Hlog). split; [apply Hf | reflexivity].
Qed.

(** ** Which entry is dispatched, and in which order *)

Lemma queue_calls_step (l : Label) (s s' : State) :
  qstep l s = Some s' ->
  queue_calls (trace s') = queue_calls (trace s) \/
  exists o e, l = LSubmitThread o /\ submitThread s = SubLockQueue e /\
    m_mutexQueue s = None /\
    trace s' = trace s ++ snd (dispatch cfg o e) /\
    submitThread s' = SubRelock e (fst (dispatch cfg o e)) /\
    m_submitQueue s' = m_submitQueue s.
Proof.
  intros Hstep.
  destruct (is_worker_label l) eqn:Hl.
  2:{ destruct (producer_step_frame l s s' Hl Hstep) as (_ & Et & _).
      left. rewrite Et. reflexivity. }
  destruct l; try discriminate Hl; clear Hl.
  - simpl in Hstep. unfold submitCmdLists_step in Hstep.
    destruct (submitThread s) as [|[]|e|e|e st|] eqn:Hph; try discriminate Hstep.
    4:{ destruct (m_mutexQueue s) eqn:Hq; [discriminate|]. right.
        exists o, e. destruct (dispatch cfg o e) as [st evs].
        inversion Hstep; subst; clear Hstep. unfold publish.
        destruct (entry_status e); simpl; auto 10. }
    all: left.
    all: repeat match type of Hstep with
         | context [match ?x with _ => _ end] => destruct x eqn:?
         end; try discriminate Hstep; inversion Hstep; subst; clear Hstep.
    all: break_goal; rewrite ?queue_calls_app, ?queue_calls_failure_events, ?app_nil_r;
      reflexivity.
  - left. simpl in Hstep. unfold finishCmdLists_step in Hstep.
    destruct (finishThread s) as [|[]|e|e st|e| |]; try discriminate Hstep.
    all: inversion Hstep; subst; clear Hstep.
    all: break_goal; rewrite ?queue_calls_app; simpl; rewrite ?app_nil_r; reflexivity.
Qed.

(** X6.  In every state the queue can reach, a step that adds calls to the
    device queue is the submitter's device call for the entry at the head of
    the pending queue, made while no producer holds the device queue lock;
    the calls are those of that one entry, and the entry stays queued. *)
Theorem only_head_dispatched (l : Label) (s s' : State) :
  qreachable s -> qstep l s = Some s' ->
  queue_calls (trace s') <> queue_calls (trace s) ->
  exists o e, l = LSubmitThread o /\ submitThread s = SubLockQueue e /\
    head (m_submitQueue s) = Some e /\
    m_mutexQueue s = None /\
    trace s' = trace s ++ snd (dispatch cfg o e) /\
    submitThread s' = SubRelock e (fst (dispatch cfg o e)) /\
    m_submitQueue s' = m_submitQueue s.
Proof.
  intros Hreach Hstep Hne.
  destruct (queue_calls_step l s s' Hstep) as [Heq|(o & e & Hl & Hph & Hq & Ht & Hp & Hs)];
    [contradiction|].
  exists o, e. repeat split; try assumption.
  apply (head_in_flight_reachable s Hreach). unfold in_flight. rewrite Hph. reflexivity.
Qed.

Lemma head_finishing_step (l : Label) (s s' : State) :
  head_finishing s -> qstep l s = Some s' -> head_finishing s'.
Proof.
  unfold head_finishing. intros Hinv Hstep e He.
  break_step Hstep; break_ops.
  all: unfold finishing in *; proj_simpl.
  all: repeat match goal with H : finishThread _ = _ |- _ => rewrite H in * end.
  all: try discriminate He.
  all: try (inversion He; subst; reflexivity).
  all: try (destruct (finishThread s) eqn:?; simpl in *; try discriminate He;
            auto using head_app_some; fail).
  all: try (apply Hinv; assumption).
  all: try (specialize (Hinv _ He); congruence).
  all: try (apply head_app_some; apply Hinv; assumption).
  all: repeat match goal with H : _ = _ :> list DxvkSubmitEntry |- _ => rewrite H in * end.
  all: simpl in *; congruence.
Qed.

Lemma head_finishing_reachable (s : State) : qreachable s -> head_finishing s.
Proof.
  apply reachable_invariant.
  - intros e He. discriminate He.
  - intros l s1 s2. apply head_finishing_step.
Qed.

Lemma producer_step_queue (l : Label) (s s' : State) :
  is_worker_label l = false -> qstep l s = Some s' ->
  m_submitQueue s' = m_submitQueue s \/
  exists x, m_submitQueue s' = m_submitQueue s ++ [x].
Proof.
  intros Hl Hstep. destruct l; try discriminate Hl; clear Hl.
  all: break_step Hstep; break_goal; eauto.
Qed.

Lemma producer_step_pushed (l : Label) (s s' : State) :
  is_worker_label l = false -> qstep l s = Some s' ->
  m_submitQueue s' = m_submitQueue s ++ pushed_by MAX l s.
Proof.
  intros Hl Hstep. destruct l; try discriminate Hl; clear Hl.
  all: break_step Hstep; unfold pushed_by; cbn beta iota.
  all: repeat match goal with H : callers _ !! _ = _ |- _ => rewrite H end.
  all: cbn beta iota; break_goal; rewrite ?app_nil_r; first [reflexivity | assumption].
Qed.

Lemma head_cons_tail {A} (q : list A) (e : A) :
  head q = Some e -> q = e :: tail q.
Proof. destruct q; simpl; [discriminate | congruence]. Qed.

Lemma pending_entries_eq (s : State) :
  head_in_flight s -> pending_entries s = m_submitQueue s.
Proof.
  intros Hh. unfold pending_entries. destruct (in_flight s) as [e|] eqn:He; [|reflexivity].
  symmetry. apply head_cons_tail, Hh, He.
Qed.

Lemma completion_entries_eq (s : State) :
  head_finishing s -> completion_entries s = m_finishQueue s.
Proof.
  intros Hh. unfold completion_entries. destruct (finishing s) as [e|] eqn:He; [|reflexivity].
  symmetry. apply head_cons_tail, Hh, He.
Qed.

(** One step: what it appends to a queue and what it takes from its head. *)
Lemma fifo_step (l : Label) (s s' : State) :
  head_in_flight s -> head_finishing s -> qstep l s = Some s' ->
  m_submitQueue s ++ pushed_by MAX l s
    = map fst (completed_by l s) ++ m_submitQueue s' /\
  m_finishQueue s ++ map fst (List.filter forwarded (completed_by l s))
    = finished_by l s ++ m_finishQueue s'.
Proof.
  intros Hhs Hhf Hstep.
  destruct (is_worker_label l) eqn:Hl.
  2:{ destruct (producer_step_frame l s s' Hl Hstep) as (Ef & _).
      rewrite (producer_step_pushed l s s' Hl Hstep), Ef.
      destruct l; try discriminate Hl; simpl; rewrite ?app_nil_r; auto. }
  destruct l; try discriminate Hl; clear Hl.
  - simpl in Hstep. unfold submitCmdLists_step in Hstep.
    unfold pushed_by, completed_by, finished_by.
    destruct (submitThread s) as [|[]|e|e|e st|] eqn:Hph; try discriminate Hstep.
    5:{ assert (Hq : m_submitQueue s = e :: tail (m_submitQueue s)).
        { apply head_cons_tail, Hhs. unfold in_flight. rewrite Hph. reflexivity. }
        inversion Hstep; subst; clear Hstep.
        unfold complete, forwarded. cbn [List.filter fst snd map].
        destruct (st =? VK_SUCCESS); [destruct (has_cmdList e)|
          destruct ((st =? VK_ERROR_DEVICE_LOST) || has_cmdList e)].
        all: unfold submitCmdLists_top, notify_all_submitCond; proj_simpl.
        all: destruct (m_stopped s); [|destruct (tail (m_submitQueue s)) eqn:Et];
          proj_simpl; rewrite ?Et, ?app_nil_r; cbn [andb map fst app];
          (split; [rewrite Hq at 1; rewrite ?Et; reflexivity | reflexivity]). }
    all: repeat match type of Hstep with
         | context [match ?x with _ => _ end] => destruct x eqn:?
         end; try discriminate Hstep; inversion Hstep; subst; clear Hstep.
    all: break_goal; simpl; rewrite ?app_nil_r; split; congruence.
  - simpl in Hstep. unfold finishCmdLists_step in Hstep.
    unfold pushed_by, completed_by, finished_by.
    destruct (finishThread s) as [|[]|e|e st|e| |] eqn:Hph; try discriminate Hstep.
    5:{ assert (Hq : m_finishQueue s = e :: tail (m_finishQueue s)).
        { apply head_cons_tail, Hhf. unfold finishing. rewrite Hph. reflexivity. }
        inversion Hstep; subst; clear Hstep.
        unfold finishCmdLists_top, notify_all_finishCond. proj_simpl.
        destruct (m_stopped s); [|destruct (tail (m_finishQueue s)) eqn:Et];
          proj_simpl; rewrite ?Et, ?app_nil_r; simpl;
          (split; [reflexivity | rewrite Hq at 1; rewrite ?Et; reflexivity]). }
    all: inversion Hstep; subst; clear Hstep.
    all: break_goal; simpl; rewrite ?app_nil_r; split; congruence.
Qed.

(** X7.  Both queues are first in, first out.  Along every run from a state
    the queue can reach, the entries pending at the start followed by the
    entries the producers enqueued during the run, in the order of their
    calls, are the entries the submitter completed during the run, in the
    order it completed them, followed by the entries pending at the end; and
    the completion queue at the start followed by the completed entries that
    were handed on (a command list, submitted with [VK_SUCCESS]) are the
    entries the finisher retired, in its order, followed by the completion
    queue at the end.  An entry a worker is processing is read from the
    worker's copy. *)
Theorem queues_are_fifo (ls : list Label) (s s' : State) :
  qreachable s -> qexec ls s = Some s' ->
  pending_entries s ++ history MAX cfg (pushed_by MAX) ls s
    = map fst (history MAX cfg completed_by ls s) ++ pending_entries s' /\
  completion_entries s
    ++ map fst (List.filter forwarded (history MAX cfg completed_by ls s))
    = history MAX cfg finished_by ls s ++ completion_entries s'.
Proof.
  intros Hreach Hexec.
  rewrite (pending_entries_eq s), (completion_entries_eq s)
    by (first [apply head_in_flight_reachable | apply head_finishing_reachable]; exact Hreach).
  rewrite (pending_entries_eq s'), (completion_entries_eq s')
    by (first [apply head_in_flight_reachable | apply head_finishing_reachable];
        eapply reachable_exec; eassumption).
  revert s Hreach Hexec. induction ls as [|l ls IH]; intros s Hreach Hexec; simpl in Hexec.
  - inversion Hexec; subst. simpl. rewrite !app_nil_r. auto.
  - cbn [history]. destruct (qstep l s) as [s1|] eqn:Hstep; [|discriminate].
    destruct (fifo_step l s s1) as (Hs & Hf);
      [apply head_in_flight_reachable, Hreach | apply head_finishing_reachable, Hreach
      | exact Hstep |].
    destruct (IH s1 (reachable_step l s s1 Hreach Hstep) Hexec) as (IHs & IHf).
    split.
    + rewrite app_assoc, Hs, <- app_assoc, IHs, map_app, <- app_assoc. reflexivity.
    + rewrite List.filter_app, map_app, app_assoc, Hf, <- app_assoc, IHf, <- app_assoc.
      reflexivity.
Qed.

(** ** The pending counter when nothing fails *)

Lemma u32_succ (n : nat) : u32 (u32 (Z.of_nat n) + 1) = u32 (Z.of_nat (S n)).
Proof.
  unfold u32. rewrite Z.add_mod_idemp_l by lia. f_equal. lia.
Qed.

Lemma u32_pred (n : nat) : u32 (u32 (Z.of_nat (S n)) - 1) = u32 (Z.of_nat n).
Proof.
  unfold u32. rewrite Zminus_mod_idemp_l. f_equal. lia.
Qed.

Lemma submit_entries_app (q1 q2 : list DxvkSubmitEntry) :
  submit_entries (q1 ++ q2) = submit_entries q1 ++ submit_entries q2.
Proof. apply List.filter_app. Qed.

Lemma submit_infos_ok_insert (m : gmap nat CallPhase) (t : nat) (c : CallPhase) :
  submit_infos_ok m ->
  (forall i w, c = InSubmit i w -> cmdList i <> None) ->
  submit_infos_ok (<[t := c]> m).
Proof.
  intros Hm Hc t' i w. destruct (decide (t = t')) as [->|Hne].
  - rewrite lookup_insert_eq. intros H. inversion H; subst. eapply Hc. reflexivity.
  - rewrite lookup_insert_ne by assumption. apply Hm.
Qed.

Lemma submit_infos_ok_delete (m : gmap nat CallPhase) (t : nat) :
  submit_infos_ok m -> submit_infos_ok (delete t m).
Proof.
  intros Hm t' i w. destruct (decide (t = t')) as [->|Hne].
  - rewrite lookup_delete_eq. discriminate.
  - rewrite lookup_delete_ne by assumption. apply Hm.
Qed.

Lemma submit_infos_ok_wake_submitCond (m : gmap nat CallPhase) :
  submit_infos_ok m -> submit_infos_ok (wake_on_submitCond <$> m).
Proof.
  intros Hm t i w. rewrite lookup_fmap.
  destruct (m !! t) as [[]|] eqn:E; simpl; try discriminate.
  intros H. inversion H; subst. eapply Hm. exact E.
Qed.

Lemma submit_infos_ok_wake_finishCond (m : gmap nat CallPhase) :
  submit_infos_ok m -> submit_infos_ok (wake_on_finishCond <$> m).
Proof.
  intros Hm t i w. rewrite lookup_fmap.
  destruct (m !! t) as [[]|] eqn:E; simpl; try discriminate.
  intros H. inversion H; subst. eapply Hm. exact E.
Qed.

Lemma pending_inv_submit (t : nat) (i : DxvkSubmitInfo) (s : State) :
  cmdList i <> None -> pending_inv s -> pending_inv (submit MAX t i s).
Proof.
  intros Hi (Herr & Hp & Hs & Hf & Hc). unfold submit.
  destruct (submit_may_proceed MAX s); unfold pending_inv, notify_all_appendCond; proj_simpl.
  - split; [exact Herr|]. split; [|split; [|split]].
    + rewrite Hp, submit_entries_app, length_app. unfold submit_entries at 3.
      simpl. unfold has_cmdList. simpl. destruct (cmdList i); [|contradiction].
      simpl. rewrite u32_succ. f_equal. lia.
    + intros e st He. apply Hs. apply wake_submitThread_relock, He.
    + exact Hf.
    + apply submit_infos_ok_delete, Hc.
  - split; [exact Herr|]. split; [exact Hp|]. split; [exact Hs|]. split; [exact Hf|].
    apply submit_infos_ok_insert; [exact Hc|].
    intros i' w H. inversion H; subst. exact Hi.
Qed.

Lemma pending_inv_frame (s s' : State) :
  m_lastError s' = m_lastError s ->
  m_pending s' = m_pending s ->
  length (submit_entries (m_submitQueue s')) = length (submit_entries (m_submitQueue s)) ->
  length (m_finishQueue s') = length (m_finishQueue s) ->
  (forall e st, submitThread s' = SubRelock e st -> submitThread s = SubRelock e st) ->
  (forall e st, finishThread s' = FinLoaded e st -> finishThread s = FinLoaded e st) ->
  submit_infos_ok (callers s') ->
  pending_inv s -> pending_inv s'.
Proof.
  intros E1 E2 E3 E4 E5 E6 E7 (Herr & Hp & Hs & Hf & Hc). unfold pending_inv.
  rewrite E1, E2, E3, E4. split; [exact Herr|]. split; [exact Hp|]. split; [|split].
  - intros e st H. eapply Hs, E5, H.
  - intros e st H. eapply Hf, E6, H.
  - exact E7.
Qed.

Lemma pending_inv_producer (l : Label) (s s' : State) :
  is_worker_label l = false -> answers_success l = true ->
  pending_inv s -> qstep l s = Some s' -> pending_inv s'.
Proof.
  intros Hl Hans Hinv Hstep. destruct l; try discriminate Hl; clear Hl.
  - (* a producer enters a call *)
    simpl in Hstep. unfold call in Hstep.
    destruct (callers s !! t) eqn:Hidle; [discriminate|].
    destruct c; simpl in Hans.
    + inversion Hstep; subst. apply pending_inv_submit; [|exact Hinv].
      destruct (cmdList submitInfo); [discriminate | discriminate Hans].
    + inversion Hstep; subst. eapply pending_inv_frame; [..|exact Hinv];
        unfold present, notify_all_appendCond; proj_simpl; try reflexivity.
      * rewrite submit_entries_app, length_app. simpl. lia.
      * intros e st. apply wake_submitThread_relock.
      * auto.
      * apply submit_infos_ok_delete, Hinv.
    + inversion Hstep; subst. eapply pending_inv_frame; [..|exact Hinv];
        unfold synchronizeSubmission; break_goal; try reflexivity; try congruence; auto.
      * apply submit_infos_ok_delete, Hinv.
      * apply submit_infos_ok_insert; [apply Hinv | discriminate].
    + inversion Hstep; subst. eapply pending_inv_frame; [..|exact Hinv];
        unfold synchronize; break_goal; try reflexivity; try congruence; auto.
      * apply submit_infos_ok_delete, Hinv.
      * apply submit_infos_ok_insert; [apply Hinv | discriminate].
    + unfold lockDeviceQueue in Hstep. destruct (m_mutexQueue s); [discriminate|].
      inversion Hstep; subst. eapply pending_inv_frame; [..|exact Hinv];
        try reflexivity; auto. apply Hinv.
    + unfold unlockDeviceQueue in Hstep.
      inversion Hstep; subst. eapply pending_inv_frame; [..|exact Hinv];
        try reflexivity; auto. apply Hinv.
    + inversion Hstep; subst. eapply pending_inv_frame; [..|exact Hinv];
        unfold destroy_begin; proj_simpl; try reflexivity; auto.
      apply submit_infos_ok_insert; [apply Hinv | discriminate].
  - (* a producer goes on *)
    simpl in Hstep. unfold resume in Hstep.
    destruct (callers s !! t) as [[i [] | slot [] | [] | stage]|] eqn:Hin;
      try discriminate Hstep.
    + inversion Hstep; subst. apply pending_inv_submit; [|exact Hinv].
      destruct Hinv as (_ & _ & _ & _ & Hc). eapply Hc. exact Hin.
    + inversion Hstep; subst. eapply pending_inv_frame; [..|exact Hinv];
        unfold synchronizeSubmission; break_goal; try reflexivity; try congruence; auto.
      * apply submit_infos_ok_delete, Hinv.
      * apply submit_infos_ok_insert; [apply Hinv | discriminate].
    + inversion Hstep; subst. eapply pending_inv_frame; [..|exact Hinv];
        unfold synchronize; break_goal; try reflexivity; try congruence; auto.
      * apply submit_infos_ok_delete, Hinv.
      * apply submit_infos_ok_insert; [apply Hinv | discriminate].
    + unfold destroy_stage in Hstep.
      destruct stage; repeat match type of Hstep with
         | context [match ?x with _ => _ end] => destruct x eqn:?
         end; try discriminate Hstep; inversion Hstep; subst; clear Hstep.
      all: eapply pending_inv_frame; [..|exact Hinv];
        unfold notify_all_appendCond, notify_all_submitCond; proj_simpl;
        try reflexivity; auto.
      all: try (intros e st; apply wake_submitThread_relock).
      all: try (intros e st; apply wake_finishThread_loaded).
      all: try (apply submit_infos_ok_insert; [|discriminate]).
      all: try (apply submit_infos_ok_delete).
      all: try (apply submit_infos_ok_wake_submitCond).
      all: apply Hinv.
  - (* a spurious wake-up *)
    simpl in Hstep. unfold spurious in Hstep.
    destruct th.
    + destruct (submitThread s) as [|[]| | | |] eqn:Hph; try discriminate Hstep.
      inversion Hstep; subst. eapply pending_inv_frame; [..|exact Hinv];
        proj_simpl; try reflexivity; auto; try discriminate. apply Hinv.
    + destruct (finishThread s) as [|[]| | | | |] eqn:Hph; try discriminate Hstep.
      inversion Hstep; subst. eapply pending_inv_frame; [..|exact Hinv];
        proj_simpl; try reflexivity; auto; try discriminate. apply Hinv.
    + destruct (callers s !! t) as [[i [] | slot [] | [] | stage]|] eqn:Hin;
        try discriminate Hstep.
      all: inversion Hstep; subst; eapply pending_inv_frame; [..|exact Hinv];
        proj_simpl; try reflexivity; auto.
      all: apply submit_infos_ok_insert; [apply Hinv|]; try discriminate.
      intros i' w H. inversion H; subst.
      destruct Hinv as (_ & _ & _ & _ & Hc). eapply Hc. exact Hin.
Qed.

Lemma dispatch_answers_success (o : Oracle) (e : DxvkSubmitEntry) :
  o_result o = VK_SUCCESS ->
  fst (dispatch cfg o e) <> VK_ERROR_DEVICE_LOST /\
  (has_cmdList e = true -> fst (dispatch cfg o e) = VK_SUCCESS).
Proof.
  intros Ho. unfold dispatch, has_cmdList.
  destruct (cmdList (entry_submit e)); simpl.
  - rewrite Ho. split; [discriminate | reflexivity].
  - destruct (presenter (entry_present e)); simpl.
    + rewrite Ho. split; [discriminate | discriminate].
    + split; [discriminate | discriminate].
Qed.

Lemma pending_inv_step (l : Label) (s s' : State) :
  answers_success l = true ->
  head_in_flight s -> head_finishing s ->
  pending_inv s -> qstep l s = Some s' -> pending_inv s'.
Proof.
  intros Hans Hhs Hhf Hinv Hstep.
  destruct (is_worker_label l) eqn:Hl; [|eapply pending_inv_producer; eassumption].
  destruct l; try discriminate Hl; clear Hl; simpl in Hans; apply Z.eqb_eq in Hans.
  - (* the submitter *)
    simpl in Hstep. unfold submitCmdLists_step in Hstep.
    destruct (submitThread s) as [|[]|e|e|e st|] eqn:Hph; try discriminate Hstep.
    + inversion Hstep; subst. eapply pending_inv_frame; [..|exact Hinv];
        unfold submitCmdLists_top; break_goal; try reflexivity; try congruence;
        try (intros; discriminate); apply Hinv.
    + inversion Hstep; subst. eapply pending_inv_frame; [..|exact Hinv];
        unfold submitCmdLists_top; break_goal; try reflexivity; try congruence;
        try (intros; discriminate); apply Hinv.
    + destruct Hinv as (Herr & Hrest). rewrite Herr in Hstep.
      change (negb (VK_SUCCESS =? VK_ERROR_DEVICE_LOST)) with true in Hstep.
      inversion Hstep; subst. eapply pending_inv_frame; [..|exact (conj Herr Hrest)];
        proj_simpl; try reflexivity; try (intros; discriminate); auto; apply Hrest.
    + destruct (m_mutexQueue s); [discriminate|].
      pose proof (dispatch_answers_success o e Hans) as (Hd1 & Hd2).
      destruct (dispatch cfg o e) as [st evs]. simpl in Hd1, Hd2.
      inversion Hstep; subst; clear Hstep.
      destruct Hinv as (Herr & Hp & Hs & Hf & Hc).
      unfold pending_inv, publish. destruct (entry_status e); proj_simpl.
      all: split; [exact Herr|]; split; [exact Hp|]; split; [|split; [exact Hf | exact Hc]].
      all: intros e' st' He'; inversion He'; subst; split; assumption.
    + destruct Hinv as (Herr & Hp & Hs & Hf & Hc).
      destruct (Hs e st Hph) as (Hndl & Hsucc).
      assert (Hq : m_submitQueue s = e :: tail (m_submitQueue s)).
      { apply head_cons_tail, Hhs. unfold in_flight. rewrite Hph. reflexivity. }
      inversion Hstep; subst; clear Hstep.
      assert (Hcomp : exists s1, complete cfg o e st s = s1 /\
                m_lastError s1 = VK_SUCCESS /\ m_pending s1 = m_pending s /\
                m_submitQueue s1 = m_submitQueue s /\
                m_stopped s1 = m_stopped s /\
                finishThread s1 = finishThread s /\ callers s1 = callers s /\
                (length (submit_entries (tail (m_submitQueue s))) + length (m_finishQueue s1)
                 = length (submit_entries (m_submitQueue s)) + length (m_finishQueue s))%nat).
      { eexists. split; [reflexivity|]. unfold complete.
        destruct (Z.eqb_spec st VK_SUCCESS) as [->|Hne].
        - destruct (has_cmdList e) eqn:Hhas; proj_simpl; repeat split; try assumption.
          + rewrite Hq at 2. unfold submit_entries at 2. simpl. rewrite Hhas.
            rewrite length_app. simpl. unfold submit_entries. lia.
          + rewrite Hq at 2. unfold submit_entries at 2. simpl. rewrite Hhas.
            reflexivity.
        - assert (Hhas : has_cmdList e = false).
          { destruct (has_cmdList e); [|reflexivity]. exfalso. apply Hne, Hsucc. reflexivity. }
          destruct (Z.eqb_spec st VK_ERROR_DEVICE_LOST) as [Hdl|_]; [contradiction|].
          rewrite Hhas. simpl. repeat split; try assumption.
          rewrite Hq at 2. unfold submit_entries at 2. simpl. rewrite Hhas. reflexivity. }
      destruct Hcomp as (s1 & -> & E1 & E2 & E3 & E4 & E5 & E6 & E7).
      unfold pending_inv, submitCmdLists_top, notify_all_submitCond. proj_simpl.
      rewrite E3, E4.
      destruct (m_stopped s); [|destruct (tail (m_submitQueue s)) eqn:Et]; proj_simpl.
      all: rewrite ?Et in *.
      all: split; [exact E1|]; split; [rewrite E2, Hp; f_equal; f_equal; lia|].
      all: split; [intros; discriminate|]; split.
      all: try (rewrite E5; intros e' st' He'; apply (Hf e' st');
                apply wake_finishThread_loaded, He').
      all: rewrite E6; apply submit_infos_ok_wake_submitCond, Hc.
  - (* the finisher *)
    simpl in Hstep. unfold finishCmdLists_step in Hstep.
    destruct (finishThread s) as [|[]|e|e st|e| |] eqn:Hph; try discriminate Hstep.
    all: inversion Hstep; subst; clear Hstep.
    + eapply pending_inv_frame; [..|exact Hinv];
        unfold finishCmdLists_top; break_goal; try reflexivity; try congruence;
        try (intros; discriminate); apply Hinv.
    + eapply pending_inv_frame; [..|exact Hinv];
        unfold finishCmdLists_woken; break_goal; try reflexivity; try congruence;
        try (intros; discriminate); apply Hinv.
    + destruct Hinv as (Herr & Hp & Hs & Hf & Hc). unfold pending_inv. proj_simpl.
      split; [exact Herr|]. split; [exact Hp|]. split; [exact Hs|]. split; [|exact Hc].
      intros e' st' He'. inversion He'; subst. congruence.
    + destruct Hinv as (Herr & Hp & Hs & Hf & Hc).
      assert (st = VK_SUCCESS) by exact (Hf e st Hph). subst st.
      unfold finish_entry, sync_failure.
      change (negb (VK_SUCCESS =? VK_ERROR_DEVICE_LOST)) with true. cbn iota.
      rewrite Hans. change (negb (VK_SUCCESS =? VK_SUCCESS)) with false. cbn iota.
      destruct (cmdList (entry_submit e)); unfold pending_inv; proj_simpl.
      all: split; [exact Herr|]; split; [exact Hp|]; split; [exact Hs|];
        split; [intros; discriminate | exact Hc].
    + destruct Hinv as (Herr & Hp & Hs & Hf & Hc).
      assert (Hq : m_finishQueue s = e :: tail (m_finishQueue s)).
      { apply head_cons_tail, Hhf. unfold finishing. rewrite Hph. reflexivity. }
      unfold pending_inv, finishCmdLists_top, notify_all_finishCond. proj_simpl.
      assert (Hcount : u32 (m_pending s - 1) =
                u32 (Z.of_nat (length (submit_entries (m_submitQueue s))
                               + length (tail (m_finishQueue s))))).
      { rewrite Hp. rewrite Hq at 1. simpl length. rewrite Nat.add_succ_r.
        apply u32_pred. }
      destruct (m_stopped s); [|destruct (tail (m_finishQueue s)) eqn:Et]; proj_simpl.
      all: rewrite ?Et in *.
      all: split; [exact Herr|]; split; [exact Hcount|]; split; [exact Hs|].
      all: split; [intros; discriminate|].
      all: apply submit_infos_ok_wake_finishCond, Hc.
Qed.

(** X1.  Along every run from the initial state in which every submit
    carries a command list and every device call ([CmdList.submit],
    [presentImage], [CmdList.synchronize]) answers [VK_SUCCESS], the counter
    [m_pending] is, modulo 2^32, the number of pending entries with a
    command list plus the length of the completion queue, in every state and
    not only at quiescent ones; the entry the submitter is processing is
    counted by the submitter's copy of it, not by the slot it was moved out
    of.  [m_lastError] stays [VK_SUCCESS]. *)
Theorem pending_count_exact_without_failures (ls : list Label) (s : State) :
  forallb answers_success ls = true ->
  qexec ls init = Some s ->
  m_pending s =
    u32 (Z.of_nat (length (submit_entries (pending_entries s)) + length (m_finishQueue s))) /\
  m_lastError s = VK_SUCCESS.
Proof.
  intros Hall Hexec.
  assert (Hgen : forall ls s0 s1,
            forallb answers_success ls = true -> qreachable s0 -> pending_inv s0 ->
            qexec ls s0 = Some s1 -> pending_inv s1).
  { clear. induction ls as [|l ls IH]; intros s0 s1 Hall Hreach Hinv Hexec; simpl in *.
    - inversion Hexec; subst. exact Hinv.
    - apply andb_true_iff in Hall. destruct Hall as (Hl & Hall).
      destruct (qstep l s0) as [s2|] eqn:Hstep; [|discriminate].
      apply (IH s2 s1 Hall); [eapply reachable_step; eassumption| |exact Hexec].
      apply (pending_inv_step l s0 s2 Hl); try assumption.
      + apply head_in_flight_reachable, Hreach.
      + apply head_finishing_reachable, Hreach. }
  assert (H0 : pending_inv init).
  { unfold pending_inv. simpl. repeat split; discriminate. }
  destruct (Hgen ls init s Hall reachable_init H0 Hexec) as (Herr & Hp & _).
  rewrite pending_entries_eq
    by (apply head_in_flight_reachable; exists ls; exact Hexec).
  split; assumption.
Qed.

(** ** No lost wake-up *)

Lemma wake_submitThread_not_waiting (p : SubmitPhase) :
  wake_submitThread p <> SubWait Waiting.
Proof. destruct p; discriminate. Qed.

Lemma wake_finishThread_not_waiting (p : FinishPhase) :
  wake_finishThread p <> FinWait Waiting.
Proof. destruct p; discriminate. Qed.

Lemma wake_on_submitCond_not_waiting (m : gmap nat CallPhase) (t : nat) :
  (wake_on_submitCond <$> m) !! t <> Some (InSynchronize Waiting).
Proof. rewrite lookup_fmap. destruct (m !! t) as [[]|]; discriminate. Qed.

Lemma wake_on_finishCond_synchronize (m : gmap nat CallPhase) (t : nat) (w : Wake) :
  (wake_on_finishCond <$> m) !! t = Some (InSynchronize w) ->
  m !! t = Some (InSynchronize w).
Proof. rewrite lookup_fmap. destruct (m !! t) as [[]|]; simpl; congruence. Qed.

Lemma app_not_nil {A} (q : list A) (x : A) : q ++ [x] <> [].
Proof. destruct q; discriminate. Qed.

Lemma lookup_update_other (m : gmap nat CallPhase) (t t' : nat) (c c' : CallPhase) :
  <[t := c]> m !! t' = Some c' -> c' <> c -> m !! t' = Some c'.
Proof.
  destruct (decide (t = t')) as [->|Hne].
  - rewrite lookup_insert_eq. congruence.
  - rewrite lookup_insert_ne by assumption. auto.
Qed.

Lemma lookup_delete_some (m : gmap nat CallPhase) (t t' : nat) (c' : CallPhase) :
  delete t m !! t' = Some c' -> m !! t' = Some c'.
Proof.
  destruct (decide (t = t')) as [->|Hne].
  - rewrite lookup_delete_eq. discriminate.
  - rewrite lookup_delete_ne by assumption. auto.
Qed.

Lemma wakeup_inv_step (l : Label) (s s' : State) :
  wakeup_inv s -> qstep l s = Some s' -> wakeup_inv s'.
Proof.
  intros (Hs & Hf & Hc) Hstep. unfold wakeup_inv.
  break_step Hstep; break_goal.
  all: repeat match goal with |- _ /\ _ => split end.
  all: try assumption.
  all: try (intros; discriminate).
  all: try (intros H; exfalso; first [exact (wake_submitThread_not_waiting _ H)
                                     | exact (wake_finishThread_not_waiting _ H)]).
  all: try (intros t' H; exfalso; exact (wake_on_submitCond_not_waiting _ _ H)).
  all: try (intros; apply app_not_nil).
  all: try (intros t' H; apply lookup_delete_some in H; eapply Hc; exact H).
  all: try (intros t' H; apply lookup_update_other in H; [|discriminate]; eapply Hc; exact H).
  all: try (intros t' H; apply wake_on_finishCond_synchronize in H; eapply Hc; exact H).
  all: try (intros; congruence).
  all: try (intros t' H;
            first [ apply lookup_delete_some in H
                  | apply lookup_update_other in H; [|discriminate]
                  | apply wake_on_finishCond_synchronize in H
                  | idtac ];
            first [ exfalso; exact (wake_on_submitCond_not_waiting _ _ H)
                  | specialize (Hc _ H); congruence
                  | congruence ]).
  all: intros H; specialize (Hs H); congruence.
Qed.

(** X2.  In every state the queue can reach no wake-up has been lost: if the
    submitter is still waiting on [m_appendCond] the pending queue is empty,
    if the finisher is still waiting on [m_submitCond] the completion queue
    is empty, and if a caller of [synchronize] is still waiting the pending
    queue is not empty. *)
Theorem no_lost_wakeup (s : State) :
  qreachable s ->
  (submitThread s = SubWait Waiting -> m_submitQueue s = []) /\
  (finishThread s = FinWait Waiting -> m_finishQueue s = []) /\
  (forall t, callers s !! t = Some (InSynchronize Waiting) -> m_submitQueue s <> []).
Proof.
  revert s. apply reachable_invariant.
  - repeat split; try discriminate.
  - intros l s1 s2. apply wakeup_inv_step.
Qed.

(** ** Shutdown *)

Lemma in_flight_wake_eq (p : SubmitPhase) (s : State) :
  in_flight (with_submitThread (wake_submitThread p) s) = in_flight (with_submitThread p s).
Proof. destruct p; reflexivity. Qed.

Ltac stopped_close :=
  repeat match goal with |- _ /\ _ => split end;
  try reflexivity; try assumption;
  try (intros e' He'; rewrite ?finishing_wake in He';
       first [exact He' | discriminate He' | congruence]);
  try (intros Hn1 Hn2;
       first [ discriminate Hn1 | discriminate Hn2
             | repeat match goal with |- _ /\ _ => split end;
               try reflexivity; exists []; rewrite app_nil_r; reflexivity ]).

Lemma submitCmdLists_top_stopped (s : State) :
  m_stopped s = true -> submitCmdLists_top s = with_submitThread SubExited s.
Proof. intros H. unfold submitCmdLists_top. rewrite H. reflexivity. Qed.

Lemma finishCmdLists_top_stopped (s : State) :
  m_stopped s = true -> finishCmdLists_top s = with_finishThread FinExited s.
Proof. intros H. unfold finishCmdLists_top. rewrite H. reflexivity. Qed.

Lemma stopped_step (l : Label) (s s' : State) :
  m_stopped s = true -> qstep l s = Some s' ->
  m_stopped s' = true /\
  (forall e, in_flight s' = Some e -> in_flight s = Some e) /\
  (forall e, finishing s' = Some e -> finishing s = Some e) /\
  (in_flight s = None -> finishing s = None ->
     trace s' = trace s /\ slots s' = slots s /\ m_lastError s' = m_lastError s /\
     m_finishQueue s' = m_finishQueue s /\
     exists xs, m_submitQueue s' = m_submitQueue s ++ xs).
Proof.
  intros Hstop Hstep.
  destruct (is_worker_label l) eqn:Hl.
  - destruct l; try discriminate Hl; clear Hl.
    + simpl in Hstep. unfold submitCmdLists_step in Hstep.
      destruct (submitThread s) as [|[]|e|e|e st|] eqn:Hph; try discriminate Hstep.
      1,2: rewrite (submitCmdLists_top_stopped s Hstop) in Hstep.
      5: rewrite submitCmdLists_top_stopped in Hstep
           by (unfold notify_all_submitCond, complete; break_goal; exact Hstop).
      all: repeat match type of Hstep with
           | context [match ?x with _ => _ end] => destruct x eqn:?
           end; try discriminate Hstep; inversion Hstep; subst; clear Hstep.
      all: unfold notify_all_submitCond, complete, publish; break_goal.
      all: unfold in_flight, finishing; proj_simpl; rewrite ?Hph, ?finishing_wake.
      all: stopped_close.
    + simpl in Hstep. unfold finishCmdLists_step in Hstep.
      destruct (finishThread s) as [|[]|e|e st|e| |] eqn:Hph; try discriminate Hstep.
      1: rewrite (finishCmdLists_top_stopped s Hstop) in Hstep.
      5: rewrite finishCmdLists_top_stopped in Hstep
           by (unfold notify_all_finishCond; proj_simpl; exact Hstop).
      all: inversion Hstep; subst; clear Hstep.
      all: unfold finishCmdLists_woken, notify_all_finishCond, finish_entry, sync_failure.
      all: proj_simpl; rewrite ?Hstop; break_goal.
      all: unfold in_flight, finishing; proj_simpl; rewrite ?Hph.
      all: stopped_close.
  - destruct (producer_step_frame l s s' Hl Hstep) as (Ef & Et & Ee & Esl & Es & Ewf).
    assert (Hst : m_stopped s' = true).
    { destruct l; try discriminate Hl; break_step Hstep; break_goal; auto. }
    split; [exact Hst|]. split; [|split].
    + unfold in_flight. intros e. destruct Es as [-> | ->]; [auto|].
      destruct (submitThread s); simpl; auto.
    + unfold finishing. intros e. destruct Ewf as [-> | ->]; [auto|].
      rewrite finishing_wake. auto.
    + intros _ _. repeat split; try assumption.
      destruct (producer_step_queue l s s' Hl Hstep) as [Eq|[x Eq]]; rewrite Eq.
      * exists []. rewrite app_nil_r. reflexivity.
      * exists [x]. reflexivity.
Qed.

(** X8.  Once [m_stopped] is set it stays set, and along every run no worker
    takes up a new entry: an entry in flight afterwards was already in
    flight.  If no entry was in flight when the flag was set, nothing is
    dispatched any more: the trace, the status cells, [m_lastError] and the
    completion queue stay as they are, and the pending queue only grows, so
    the entries left in it are dropped with their status cells unwritten. *)
Theorem stopped_no_new_entry (ls : list Label) (s s' : State) :
  m_stopped s = true -> qexec ls s = Some s' ->
  m_stopped s' = true /\
  (forall e, in_flight s' = Some e -> in_flight s = Some e) /\
  (forall e, finishing s' = Some e -> finishing s = Some e) /\
  (in_flight s = None -> finishing s = None ->
     trace s' = trace s /\ slots s' = slots s /\ m_lastError s' = m_lastError s /\
     m_finishQueue s' = m_finishQueue s /\
     exists xs, m_submitQueue s' = m_submitQueue s ++ xs).
Proof.
  revert s. induction ls as [|l ls IH]; intros s Hstop Hexec; simpl in Hexec.
  - inversion Hexec; subst. repeat split; auto. exists []. rewrite app_nil_r. reflexivity.
  - destruct (qstep l s) as [s1|] eqn:Hstep; [|discriminate].
    destruct (stopped_step l s s1 Hstop Hstep) as (Hst1 & Hi1 & Hf1 & Hq1).
    destruct (IH s1 Hst1 Hexec) as (Hst & Hi & Hf & Hq).
    split; [exact Hst|]. split; [auto|]. split; [auto|].
    intros Hn1 Hn2.
    assert (Hn1' : in_flight s1 = None).
    { destruct (in_flight s1) as [e|] eqn:E; [|reflexivity].
      rewrite (Hi1 e eq_refl) in Hn1. discriminate. }
    assert (Hn2' : finishing s1 = None).
    { destruct (finishing s1) as [e|] eqn:E; [|reflexivity].
      rewrite (Hf1 e eq_refl) in Hn2. discriminate. }
    destruct (Hq1 Hn1 Hn2) as (A1 & A2 & A3 & A4 & xs1 & A5).
    destruct (Hq Hn1' Hn2') as (B1 & B2 & B3 & B4 & xs2 & B5).
    rewrite B1, B2, B3, B4, B5, A1, A2, A3, A4, A5.
    repeat split. exists (xs1 ++ xs2). rewrite app_assoc. reflexivity.
Qed.

(** ** A producer blocked in [submit] and the submitter's pop *)

(** X9.  When the submitter completes an entry that does not go to the
    completion queue (a present, or a submit that failed), the two queues
    together shrink by one entry, but a producer waiting in [submit] is not
    woken: it is still waiting after the step, whatever the bound is. *)
Theorem submitter_pop_does_not_wake_submit (t : nat) (i : DxvkSubmitInfo)
    (e : DxvkSubmitEntry) (status : VkResult) (o : Oracle) (s : State) :
  qreachable s ->
  callers s !! t = Some (InSubmit i Waiting) ->
  submitThread s = SubRelock e status ->
  status <> VK_SUCCESS \/ has_cmdList e = false ->
  exists s',
    qstep (LSubmitThread o) s = Some s' /\
    callers s' !! t = Some (InSubmit i Waiting) /\
    S (gate_quantity s') = gate_quantity s /\
    qstep (LResume t) s' = None.
Proof.
  intros Hreach Hw Hph Hdrop.
  assert (Hq : m_submitQueue s = e :: tail (m_submitQueue s)).
  { apply head_cons_tail, (head_in_flight_reachable s Hreach).
    unfold in_flight. rewrite Hph. reflexivity. }
  eexists. split; [simpl; unfold submitCmdLists_step; rewrite Hph; reflexivity|].
  assert (Hc : m_finishQueue (complete cfg o e status s) = m_finishQueue s /\
               m_submitQueue (complete cfg o e status s) = m_submitQueue s /\
               callers (complete cfg o e status s) = callers s /\
               m_stopped (complete cfg o e status s) = m_stopped s).
  { unfold complete. destruct (Z.eqb_spec status VK_SUCCESS) as [Heq|Hne].
    - destruct Hdrop as [Hd|Hd]; [contradiction|]. rewrite Hd. auto.
    - destruct ((status =? VK_ERROR_DEVICE_LOST) || has_cmdList e); auto. }
  destruct Hc as (C1 & C2 & C3 & C4).
  unfold submitCmdLists_top, notify_all_submitCond, gate_quantity, resume. proj_simpl.
  rewrite ?C4, ?C2.
  destruct (m_stopped s); [|destruct (tail (m_submitQueue s)) eqn:Et]; proj_simpl.
  all: rewrite ?C1, ?C2, ?C3, ?C4, ?Et.
  all: rewrite (lookup_wake_on_submitCond _ _ _ _ Hw).
  all: rewrite Hq; simpl length.
  all: split; [reflexivity|]; split; [reflexivity|].
  all: cbn [step]; unfold resume; proj_simpl.
  all: rewrite (lookup_wake_on_submitCond _ _ _ _ Hw); reflexivity.
Qed.

(** ** Status cells and [synchronizeSubmission] *)

Lemma slots_step (l : Label) (s s' : State) :
  qstep l s = Some s' ->
  slots s' = slots s \/
  exists o e st slot, l = LSubmitThread o /\ in_flight s = Some e /\
    submitThread s' = SubRelock e st /\ entry_status e = Some slot /\
    slots s' = <[slot := st]> (slots s).
Proof.
  intros Hstep.
  destruct (is_worker_label l) eqn:Hl.
  2:{ left. apply (producer_step_frame l s s' Hl Hstep). }
  destruct l; try discriminate Hl; clear Hl.
  - simpl in Hstep. unfold submitCmdLists_step in Hstep. unfold in_flight.
    destruct (submitThread s) as [|[]|e|e|e st|] eqn:Hph; try discriminate Hstep.
    all: repeat match type of Hstep with
         | context [match ?x with _ => _ end] => destruct x eqn:?
         end; try discriminate Hstep; inversion Hstep; subst; clear Hstep.
    all: unfold publish; break_goal; eauto 10.
  - left. simpl in Hstep. unfold finishCmdLists_step in Hstep.
    destruct (finishThread s) as [|[]|e|e st|e| |]; try discriminate Hstep.
    all: inversion Hstep; subst; clear Hstep.
    all: break_goal; reflexivity.
Qed.

Lemma published_step (l : Label) (s s' : State) :
  (forall e st slot, submitThread s = SubRelock e st -> entry_status e = Some slot ->
     slots s !! slot = Some st) ->
  qstep l s = Some s' ->
  forall e st slot, submitThread s' = SubRelock e st -> entry_status e = Some slot ->
    slots s' !! slot = Some st.
Proof.
  intros Hinv Hstep e st slot Hph Hslot.
  destruct (is_worker_label l) eqn:Hl.
  2:{ destruct (producer_step_frame l s s' Hl Hstep) as (_ & _ & _ & Esl & Es & _).
      rewrite Esl. apply (Hinv e st slot); [|exact Hslot].
      destruct Es as [Es|Es]; rewrite Es in Hph; [exact Hph|].
      apply wake_submitThread_relock, Hph. }
  destruct l; try discriminate Hl; clear Hl.
  - simpl in Hstep. unfold submitCmdLists_step in Hstep.
    destruct (submitThread s) as [|[]|e0|e0|e0 st0|] eqn:Hph0; try discriminate Hstep.
    all: repeat match type of Hstep with
         | context [match ?x with _ => _ end] => destruct x eqn:?
         end; try discriminate Hstep; inversion Hstep; subst; clear Hstep.
    all: unfold submitCmdLists_top, notify_all_submitCond, publish in *.
    all: repeat match type of Hph with
         | context [match ?x with _ => _ end] => destruct x eqn:?
         end; proj_simpl; try discriminate Hph.
    all: inversion Hph; subst; try congruence.
    all: match goal with
         | H1 : entry_status ?e = Some ?a, H2 : entry_status ?e = Some ?b |- _ =>
             rewrite H1 in H2; inversion H2; subst
         end; apply lookup_insert_eq.
  - simpl in Hstep. unfold finishCmdLists_step in Hstep.
    destruct (finishThread s) as [|[]|e0|e0 st0|e0| |]; try discriminate Hstep.
    all: inversion Hstep; subst; clear Hstep.
    all: unfold finishCmdLists_top, finishCmdLists_woken, notify_all_finishCond,
           finish_entry, sync_failure in *.
    all: repeat match type of Hph with
         | context [match ?x with _ => _ end] => destruct x eqn:?
         end; proj_simpl.
    all: repeat match goal with
         | |- context [match ?x with _ => _ end] => destruct x eqn:?
         end; proj_simpl.
    all: eapply Hinv; eassumption.
Qed.

Lemma published_reachable (s : State) :
  qreachable s ->
  forall e st slot, submitThread s = SubRelock e st -> entry_status e = Some slot ->
    slots s !! slot = Some st.
Proof.
  revert s. apply (reachable_invariant
    (fun s => forall e st slot, submitThread s = SubRelock e st ->
                entry_status e = Some slot -> slots s !! slot = Some st)).
  - intros e st slot H. discriminate H.
  - intros l s1 s2 Hinv Hstep. exact (published_step l s1 s2 Hinv Hstep).
Qed.

(** X10.  When the submitter takes [m_mutex] again to complete an entry that
    has a status cell, the cell already holds the entry's status.  Its
    completion step wakes every caller of [synchronizeSubmission] on that
    cell without changing the cell, and the woken caller returns if the
    status is anything but [VK_NOT_READY]; with [VK_NOT_READY] (what an entry
    with neither command list nor presenter gets) it waits again. *)
Theorem synchronizeSubmission_after_signal (t slot : nat) (w : Wake)
    (e : DxvkSubmitEntry) (status : VkResult) (o : Oracle) (s : State) :
  qreachable s ->
  submitThread s = SubRelock e status ->
  entry_status e = Some slot ->
  callers s !! t = Some (InSynchronizeSubmission slot w) ->
  slots s !! slot = Some status /\
  exists s1 s2,
    qstep (LSubmitThread o) s = Some s1 /\
    slots s1 = slots s /\
    callers s1 !! t = Some (InSynchronizeSubmission slot Notified) /\
    qstep (LResume t) s1 = Some s2 /\
    (status <> VK_NOT_READY -> callers s2 !! t = None) /\
    (status = VK_NOT_READY ->
       callers s2 !! t = Some (InSynchronizeSubmission slot Waiting)).
Proof.
  intros Hreach Hph Hslot Hw.
  pose proof (published_reachable s Hreach e status slot Hph Hslot) as Hpub.
  split; [exact Hpub|].
  assert (Hstep : exists s1, qstep (LSubmitThread o) s = Some s1 /\
            slots s1 = slots s /\ callers s1 = wake_on_submitCond <$> callers s).
  { eexists. split; [simpl; unfold submitCmdLists_step; rewrite Hph; reflexivity|].
    unfold submitCmdLists_top, notify_all_submitCond, complete. break_goal; auto. }
  destruct Hstep as (s1 & Hs1 & Esl & Ec).
  assert (Hw1 : callers s1 !! t = Some (InSynchronizeSubmission slot Notified)).
  { rewrite Ec, lookup_fmap, Hw. reflexivity. }
  exists s1, (synchronizeSubmission t slot s1).
  split; [exact Hs1|]. split; [exact Esl|]. split; [exact Hw1|].
  split; [simpl; unfold resume; rewrite Hw1; reflexivity|].
  unfold synchronizeSubmission, slot_result. rewrite Esl, Hpub. simpl.
  destruct (Z.eqb_spec status VK_NOT_READY) as [Heq|Hne]; simpl.
  - rewrite lookup_insert_eq. split; [contradiction | reflexivity].
  - rewrite lookup_delete_eq. split; [reflexivity | contradiction].
Qed.

(** ** A present that fails *)

(** X11.  Completing an entry without a command list (a present) whose status
    is not [VK_ERROR_DEVICE_LOST] only pops it: whatever the status is,
    nothing is logged, no device call is made, and [m_lastError], the
    completion queue, the counter and the status cells are left alone. *)
Theorem failed_present_is_dropped (e : DxvkSubmitEntry) (status : VkResult)
    (o : Oracle) (s : State) :
  submitThread s = SubRelock e status ->
  has_cmdList e = false ->
  status <> VK_ERROR_DEVICE_LOST ->
  exists s',
    qstep (LSubmitThread o) s = Some s' /\
    m_submitQueue s' = tail (m_submitQueue s) /\
    trace s' = trace s /\
    m_lastError s' = m_lastError s /\
    m_finishQueue s' = m_finishQueue s /\
    m_pending s' = m_pending s /\
    slots s' = slots s.
Proof.
  intros Hph Hhas Hne.
  eexists. split; [simpl; unfold submitCmdLists_step; rewrite Hph; reflexivity|].
  unfold complete. rewrite Hhas.
  destruct (Z.eqb_spec status VK_ERROR_DEVICE_LOST) as [Heq|_]; [contradiction|].
  simpl orb. unfold submitCmdLists_top, notify_all_submitCond.
  destruct (status =? VK_SUCCESS); break_goal; auto 10.
Qed.

(** ** The budget of the crash dump poll *)

Lemma aftermath_poll_exact (crash : nat -> CrashDumpStatus) (k : nat) :
  (k <= 50)%nat ->
  (forall n, (n < k)%nat -> crashDump_done (crash n) = false) ->
  ((k < 50)%nat -> crashDump_done (crash k) = true) ->
  forall fuel n, (fuel + n = 50)%nat -> (n <= k)%nat ->
    crashDump_polls (aftermath_poll fuel (kTimeoutPerTry * Z.of_nat n) n crash) =
      map (fun m => EvGetCrashDumpStatus (crash m)) (seq n (Nat.min (S k) 50 - n)) /\
    sleep_total (aftermath_poll fuel (kTimeoutPerTry * Z.of_nat n) n crash) =
      kTimeoutPerTry * Z.of_nat (k - n).
Proof.
  intros Hk Hbefore Hat. induction fuel as [|fuel IH]; intros n Hsum Hn.
  - assert (n = 50)%nat by lia. assert (k = 50)%nat by lia. subst.
    simpl. split; reflexivity.
  - cbn [aftermath_poll].
    destruct (Z.ltb_spec (kTimeoutPerTry * Z.of_nat n) kTimeoutPreventionLimit) as [_|Hge];
      [|unfold kTimeoutPerTry, kTimeoutPreventionLimit in Hge; lia].
    destruct (crashDump_done (crash n)) eqn:Hdone.
    + assert (n = k).
      { destruct (Nat.eq_dec n k) as [E|E]; [exact E|].
        rewrite Hbefore in Hdone by lia. discriminate. }
      subst n. replace (Nat.min (S k) 50 - k)%nat with 1%nat by lia.
      rewrite Nat.sub_diag. simpl. split; [reflexivity | lia].
    + assert (n < k)%nat.
      { destruct (Nat.eq_dec n k) as [E|E]; [|lia].
        subst n. rewrite Hat in Hdone by lia. discriminate. }
      replace (kTimeoutPerTry * Z.of_nat n + kTimeoutPerTry)
        with (kTimeoutPerTry * Z.of_nat (S n)) by (unfold kTimeoutPerTry; lia).
      destruct (IH (S n)) as (Hp & Hs); [lia | lia |].
      cbn [crashDump_polls List.filter is_crashDump_poll sleep_total fold_right].
      fold (crashDump_polls (aftermath_poll fuel (kTimeoutPerTry * Z.of_nat (S n)) (S n) crash)).
      fold (sleep_total (aftermath_poll fuel (kTimeoutPerTry * Z.of_nat (S n)) (S n) crash)).
      rewrite Hp, Hs. split.
      * replace (Nat.min (S k) 50 - n)%nat with (S (Nat.min (S k) 50 - S n)) by lia.
        reflexivity.
      * unfold kTimeoutPerTry. lia.
Qed.

(** X12.  The crash dump poll stops at the first status that is Finished or
    Unknown and at the latest after fifty polls: if the [k]-th status is the
    first such one (or there is none among the first fifty, [k] = 50), the
    poll asks for the status [min (k+1) 50] times, in order, and sleeps
    exactly [100 * k] milliseconds, which is at most
    [kTimeoutPreventionLimit]. *)
Theorem aftermath_poll_budget (crash : nat -> CrashDumpStatus) (k : nat) :
  (k <= 50)%nat ->
  (forall n, (n < k)%nat -> crashDump_done (crash n) = false) ->
  ((k < 50)%nat -> crashDump_done (crash k) = true) ->
  crashDump_polls (aftermath_poll poll_fuel 0 0 crash) =
    map (fun m => EvGetCrashDumpStatus (crash m)) (seq 0 (Nat.min (S k) 50)) /\
  sleep_total (aftermath_poll poll_fuel 0 0 crash) = kTimeoutPerTry * Z.of_nat k /\
  sleep_total (aftermath_poll poll_fuel 0 0 crash) <= kTimeoutPreventionLimit.
Proof.
  intros Hk Hbefore Hat.
  destruct (aftermath_poll_exact crash k Hk Hbefore Hat poll_fuel 0) as (Hp & Hs);
    [reflexivity | lia |].
  change (kTimeoutPerTry * Z.of_nat 0) with 0 in Hp, Hs.
  rewrite Nat.sub_0_r in Hp, Hs. split; [exact Hp|]. split; [exact Hs|].
  rewrite Hs. unfold kTimeoutPerTry, kTimeoutPreventionLimit. lia.
Qed.

(** ** The bound on command lists in flight *)

Lemma submit_entries_length (q : list DxvkSubmitEntry) :
  (length (submit_entries q) <= length q)%nat.
Proof. unfold submit_entries. apply List.filter_length_le. Qed.

Lemma bounded_step (l : Label) (s s' : State) :
  head_in_flight s ->
  (length (submit_entries (m_submitQueue s)) + length (m_finishQueue s) <= MAX + 1)%nat ->
  qstep l s = Some s' ->
  (length (submit_entries (m_submitQueue s')) + length (m_finishQueue s') <= MAX + 1)%nat.
Proof.
  intros Hhead Hinv Hstep.
  destruct (is_worker_label l) eqn:Hl.
  2:{ destruct (producer_step_frame l s s' Hl Hstep) as (Ef & _). rewrite Ef.
      destruct l; try discriminate Hl; clear Hl.
      all: break_step Hstep; break_goal; try exact Hinv.
      all: try (repeat match goal with H : _ = _ :> list DxvkSubmitEntry |- _ =>
                  rewrite H in * end; exact Hinv).
      all: unfold submit_may_proceed in *;
        repeat match goal with H : (_ <=? _)%nat = true |- _ => apply Nat.leb_le in H end;
        pose proof (submit_entries_length (m_submitQueue s));
        rewrite submit_entries_app, length_app;
        unfold submit_entries at 2, has_cmdList; simpl;
        repeat match goal with
               | |- context [match ?x with _ => _ end] => destruct x
               end; simpl; lia. }
  destruct l; try discriminate Hl; clear Hl.
  - simpl in Hstep. unfold submitCmdLists_step in Hstep.
    destruct (submitThread s) as [|[]|e|e|e st|] eqn:Hph; try discriminate Hstep.
    5:{ assert (Hq : m_submitQueue s = e :: tail (m_submitQueue s)).
        { apply head_cons_tail, Hhead. unfold in_flight. rewrite Hph. reflexivity. }
        rewrite Hq in Hinv. unfold submit_entries in Hinv. simpl in Hinv.
        fold (submit_entries (tail (m_submitQueue s))) in Hinv.
        inversion Hstep; subst; clear Hstep.
        unfold complete, submitCmdLists_top, notify_all_submitCond.
        destruct (st =? VK_SUCCESS); [destruct (has_cmdList e) eqn:Hhas|
          destruct ((st =? VK_ERROR_DEVICE_LOST) || has_cmdList e)].
        all: proj_simpl.
        all: destruct (m_stopped s); [|destruct (tail (m_submitQueue s)) eqn:Et]; proj_simpl.
        all: rewrite ?Et in *; rewrite ?length_app; simpl in *.
        all: destruct (has_cmdList e); simpl in *; try discriminate; lia. }
    all: repeat match type of Hstep with
         | context [match ?x with _ => _ end] => destruct x eqn:?
         end; try discriminate Hstep; inversion Hstep; subst; clear Hstep.
    all: break_goal; try exact Hinv.
    all: repeat match goal with H : _ = _ :> list DxvkSubmitEntry |- _ =>
           rewrite H in * end; exact Hinv.
  - simpl in Hstep. unfold finishCmdLists_step in Hstep.
    destruct (finishThread s) as [|[]|e|e st|e| |] eqn:Hph; try discriminate Hstep.
    5:{ inversion Hstep; subst; clear Hstep.
        assert (Hlen : (length (tail (m_finishQueue s)) <= length (m_finishQueue s))%nat)
          by (destruct (m_finishQueue s); simpl; lia).
        unfold finishCmdLists_top, notify_all_finishCond. proj_simpl.
        destruct (m_stopped s); [|destruct (tail (m_finishQueue s)) eqn:Et]; proj_simpl.
        all: rewrite ?Et in *; simpl in *; lia. }
    all: inversion Hstep; subst; clear Hstep.
    all: break_goal; try exact Hinv.
    all: repeat match goal with H : _ = _ :> list DxvkSubmitEntry |- _ =>
           rewrite H in * end; exact Hinv.
Qed.

(** X14.  In every state the queue can reach, the command lists held by the
    two queues (entries with a command list in the pending queue, and the
    completion queue) number at most MaxNumQueuedCommandBuffers + 1, however
    many presents are queued. *)
Theorem command_lists_in_flight_bounded (s : State) :
  qreachable s ->
  (length (submit_entries (m_submitQueue s)) + length (m_finishQueue s) <= MAX + 1)%nat.
Proof.
  intros Hreach.
  assert (H : head_in_flight s /\
    (length (submit_entries (m_submitQueue s)) + length (m_finishQueue s) <= MAX + 1)%nat).
  { revert s Hreach. apply reachable_invariant.
    - split; [intros e He; discriminate He | simpl; lia].
    - intros l s1 s2 (Hh & Hb) Hstep. split.
      + eapply head_in_flight_step; eassumption.
      + eapply bounded_step; eassumption. }
  apply H.
Qed.

(** ** The submitter always gets through the pending queue *)

Lemma exited_step (l : Label) (s s' : State) :
  (submitThread s = SubExited -> m_stopped s = true) ->
  qstep l s = Some s' ->
  submitThread s' = SubExited -> m_stopped s' = true.
Proof.
  intros Hinv Hstep. break_step Hstep; break_goal.
  all: try exact Hinv; try reflexivity; try (intros; discriminate).
  all: try (intros H; apply Hinv; destruct (submitThread s); simpl in H; congruence).
  all: try (intros _; assumption).
  all: intros H; try (rewrite H in *; discriminate).
  all: specialize (Hinv H); congruence.
Qed.

Lemma exited_reachable (s : State) :
  qreachable s -> submitThread s = SubExited -> m_stopped s = true.
Proof.
  revert s. apply (reachable_invariant
    (fun s => submitThread s = SubExited -> m_stopped s = true)).
  - discriminate.
  - intros l s1 s2. apply exited_step.
Qed.

Lemma submitter_run_app (os : nat -> Oracle) (k a b : nat) :
  submitter_run os k (a + b) = submitter_run os k a ++ submitter_run os (k + a) b.
Proof. unfold submitter_run. rewrite seq_app, map_app. reflexivity. Qed.

Lemma submitter_run_S (os : nat -> Oracle) (k n : nat) (s : State) :
  qexec (submitter_run os k (S n)) s =
  match qstep (LSubmitThread (os k)) s with
  | Some s1 => qexec (submitter_run os (S k) n) s1
  | None => None
  end.
Proof. reflexivity. Qed.

Lemma relock_step (o : Oracle) (e : DxvkSubmitEntry) (st : VkResult) (s : State) :
  submitThread s = SubRelock e st -> m_stopped s = false ->
  exists s1, qstep (LSubmitThread o) s = Some s1 /\
    m_submitQueue s1 = tail (m_submitQueue s) /\
    m_stopped s1 = false /\ m_mutexQueue s1 = m_mutexQueue s /\
    submitThread s1 = match tail (m_submitQueue s) with
                      | [] => SubWait Waiting
                      | e' :: _ => SubPeeked e'
                      end.
Proof.
  intros Hph Hstop. eexists.
  split; [simpl; unfold submitCmdLists_step; rewrite Hph; reflexivity|].
  assert (Hc : m_submitQueue (complete cfg o e st s) = m_submitQueue s /\
               m_stopped (complete cfg o e st s) = false /\
               m_mutexQueue (complete cfg o e st s) = m_mutexQueue s).
  { unfold complete. break_goal; auto. }
  destruct Hc as (C1 & C2 & C3).
  unfold submitCmdLists_top, notify_all_submitCond. proj_simpl. rewrite C1, C2.
  destruct (tail (m_submitQueue s)); proj_simpl; auto.
Qed.

Lemma lockQueue_step (o : Oracle) (e : DxvkSubmitEntry) (s : State) :
  submitThread s = SubLockQueue e -> m_mutexQueue s = None ->
  exists s1 st, qstep (LSubmitThread o) s = Some s1 /\
    submitThread s1 = SubRelock e st /\
    m_submitQueue s1 = m_submitQueue s /\
    m_stopped s1 = m_stopped s /\ m_mutexQueue s1 = None.
Proof.
  intros Hph Hq. simpl. unfold submitCmdLists_step. rewrite Hph, Hq.
  destruct (dispatch cfg o e) as [st evs]. eexists. exists st.
  split; [reflexivity|]. unfold publish. destruct (entry_status e); auto.
Qed.

Lemma peeked_step (o : Oracle) (e : DxvkSubmitEntry) (s : State) :
  submitThread s = SubPeeked e ->
  exists s1, qstep (LSubmitThread o) s = Some s1 /\
    (submitThread s1 = SubLockQueue e \/ exists st, submitThread s1 = SubRelock e st) /\
    m_submitQueue s1 = m_submitQueue s /\
    m_stopped s1 = m_stopped s /\ m_mutexQueue s1 = m_mutexQueue s.
Proof.
  intros Hph. simpl. unfold submitCmdLists_step. rewrite Hph.
  destruct (negb (m_lastError s =? VK_ERROR_DEVICE_LOST)); eexists;
    (split; [reflexivity|]); unfold publish; destruct (entry_status e); eauto 10.
Qed.

(** Up to three steps take the entry in flight out of the pending queue. *)
Lemma submitter_advance (os : nat -> Oracle) (k : nat) (e : DxvkSubmitEntry) (s : State) :
  in_flight s = Some e -> m_stopped s = false -> m_mutexQueue s = None ->
  exists j s1, (j <= 3)%nat /\
    qexec (submitter_run os k j) s = Some s1 /\
    m_submitQueue s1 = tail (m_submitQueue s) /\
    m_stopped s1 = false /\ m_mutexQueue s1 = None /\
    submitThread s1 = match tail (m_submitQueue s) with
                      | [] => SubWait Waiting
                      | e' :: _ => SubPeeked e'
                      end.
Proof.
  intros He Hstop Hq.
  assert (Hrel : forall k' e' st s0, submitThread s0 = SubRelock e' st ->
            m_stopped s0 = false -> m_mutexQueue s0 = None ->
            exists s1, qexec (submitter_run os k' 1) s0 = Some s1 /\
              m_submitQueue s1 = tail (m_submitQueue s0) /\
              m_stopped s1 = false /\ m_mutexQueue s1 = None /\
              submitThread s1 = match tail (m_submitQueue s0) with
                                | [] => SubWait Waiting
                                | e' :: _ => SubPeeked e'
                                end).
  { intros k' e' st s0 Hph0 Hs0 Hq0.
    destruct (relock_step (os k') e' st s0 Hph0 Hs0) as (s1 & H1 & H2 & H3 & H4 & H5).
    exists s1. rewrite submitter_run_S, H1.
    rewrite H4, Hq0. split; [reflexivity | auto]. }
  assert (Hlock : forall k' e' s0, submitThread s0 = SubLockQueue e' ->
            m_stopped s0 = false -> m_mutexQueue s0 = None ->
            exists s1, qexec (submitter_run os k' 2) s0 = Some s1 /\
              m_submitQueue s1 = tail (m_submitQueue s0) /\
              m_stopped s1 = false /\ m_mutexQueue s1 = None /\
              submitThread s1 = match tail (m_submitQueue s0) with
                                | [] => SubWait Waiting
                                | e' :: _ => SubPeeked e'
                                end).
  { intros k' e' s0 Hph0 Hs0 Hq0.
    destruct (lockQueue_step (os k') e' s0 Hph0 Hq0) as (sa & st & H1 & H2 & H3 & H4 & H5).
    rewrite Hs0 in H4.
    destruct (Hrel (S k') e' st sa H2 H4 H5) as (s1 & G1 & G2 & G3 & G4 & G5).
    exists s1. rewrite H3 in G2, G5.
    rewrite submitter_run_S, H1. auto. }
  unfold in_flight in He.
  destruct (submitThread s) as [| |e0|e0|e0 st|] eqn:Hph; try discriminate He.
  - destruct (peeked_step (os k) e0 s Hph) as (sa & H1 & H2 & H3 & H4 & H5).
    rewrite Hstop in H4. rewrite Hq in H5.
    destruct H2 as [H2|[st H2]].
    + destruct (Hlock (S k) e0 sa H2 H4 H5) as (s1 & G1 & G2 & G3 & G4 & G5).
      exists 3%nat, s1. rewrite H3 in G2, G5. split; [lia|].
      rewrite submitter_run_S, H1. auto.
    + destruct (Hrel (S k) e0 st sa H2 H4 H5) as (s1 & G1 & G2 & G3 & G4 & G5).
      exists 2%nat, s1. rewrite H3 in G2, G5. split; [lia|].
      rewrite submitter_run_S, H1. auto.
  - destruct (Hlock k e0 s Hph Hstop Hq) as (s1 & G). exists 2%nat, s1. split; [lia | exact G].
  - destruct (Hrel k e0 st s Hph Hstop Hq) as (s1 & G). exists 1%nat, s1. split; [lia | exact G].
Qed.

Lemma drain_in_flight (os : nat -> Oracle) :
  forall m k e s,
    length (m_submitQueue s) = S m ->
    in_flight s = Some e -> m_stopped s = false -> m_mutexQueue s = None ->
    exists n s', (n <= 3 * S m)%nat /\
      qexec (submitter_run os k n) s = Some s' /\
      m_submitQueue s' = [] /\ submitThread s' = SubWait Waiting.
Proof.
  induction m as [|m IH]; intros k e s Hlen He Hstop Hq.
  - destruct (submitter_advance os k e s He Hstop Hq) as (j & s1 & Hj & Hrun & Hs1 & _ & _ & Hph).
    assert (Ht : tail (m_submitQueue s) = []).
    { destruct (m_submitQueue s) as [|x [|y q]]; simpl in *; try discriminate; reflexivity. }
    rewrite Ht in *. exists j, s1. split; [lia|]. auto.
  - destruct (submitter_advance os k e s He Hstop Hq)
      as (j & s1 & Hj & Hrun & Hs1 & Hstop1 & Hq1 & Hph).
    destruct (tail (m_submitQueue s)) as [|e' q] eqn:Ht.
    { destruct (m_submitQueue s) as [|x [|y q]]; simpl in *; discriminate. }
    assert (Hlen1 : length (m_submitQueue s1) = S m).
    { rewrite Hs1. destruct (m_submitQueue s); simpl in *; [discriminate|].
      subst. simpl in Hlen. lia. }
    assert (He1 : in_flight s1 = Some e') by (unfold in_flight; rewrite Hph; reflexivity).
    destruct (IH (k + j)%nat e' s1 Hlen1 He1 Hstop1 Hq1) as (n & s' & Hn & Hrun' & Hend).
    exists (j + n)%nat, s'. split; [lia|].
    rewrite submitter_run_app, exec_app, Hrun. auto.
Qed.

Lemma wakeup_reachable (s : State) : qreachable s -> wakeup_inv s.
Proof.
  revert s. apply reachable_invariant.
  - repeat split; try discriminate.
  - intros l s1 s2. apply wakeup_inv_step.
Qed.

Lemma synchronize_on_empty (t : nat) (s : State) :
  m_submitQueue s = [] -> callers s !! t = None ->
  exists s', qstep (LCall t CallSynchronize) s = Some s' /\ callers s' !! t = None.
Proof.
  intros He Ht. exists (synchronize t s). split.
  - simpl. unfold call. rewrite Ht. reflexivity.
  - unfold synchronize. rewrite He. proj_simpl. apply lookup_delete_eq.
Qed.

(** X15.  From a state the queue can reach, not stopped and with the device
    queue lock free, the submitter alone empties the pending queue, whatever
    the device answers: at most three steps per queued entry and one more
    bring it to its wait with the pending queue empty, and a call of
    [synchronize] made then returns at once. *)
Theorem submitter_drains_pending_queue (os : nat -> Oracle) (s : State) :
  qreachable s -> m_stopped s = false -> m_mutexQueue s = None ->
  exists n s',
    (n <= 3 * length (m_submitQueue s) + 1)%nat /\
    qexec (submitter_run os 0 n) s = Some s' /\
    m_submitQueue s' = [] /\
    submitThread s' = SubWait Waiting /\
    (forall t, callers s' !! t = None ->
       exists s'', qstep (LCall t CallSynchronize) s' = Some s'' /\
                   callers s'' !! t = None).
Proof.
  intros Hreach Hstop Hq.
  assert (Hfl : forall e k s0, in_flight s0 = Some e -> qreachable s0 ->
            m_stopped s0 = false -> m_mutexQueue s0 = None ->
            exists n s', (n <= 3 * length (m_submitQueue s0))%nat /\
              qexec (submitter_run os k n) s0 = Some s' /\
              m_submitQueue s' = [] /\ submitThread s' = SubWait Waiting).
  { intros e k s0 He Hr Hs0 Hq0.
    pose proof (head_in_flight_reachable s0 Hr e He) as Hhead.
    destruct (m_submitQueue s0) as [|x q] eqn:Eq; [discriminate|].
    destruct (drain_in_flight os (length q) k e s0) as (n & s' & Hn & Hrun & Hend); auto.
    - rewrite Eq. reflexivity.
    - exists n, s'. simpl length. auto. }
  assert (Htop : submitThread s = SubStart \/ submitThread s = SubWait Notified ->
            exists n s', (n <= 3 * length (m_submitQueue s) + 1)%nat /\
              qexec (submitter_run os 0 n) s = Some s' /\
              m_submitQueue s' = [] /\ submitThread s' = SubWait Waiting).
  { intros Hph.
    assert (Hstep : qstep (LSubmitThread (os 0%nat)) s = Some (submitCmdLists_top s)).
    { simpl. unfold submitCmdLists_step. destruct Hph as [-> | ->]; reflexivity. }
    unfold submitCmdLists_top in Hstep. rewrite Hstop in Hstep.
    destruct (m_submitQueue s) as [|x q] eqn:Eq.
    - exists 1%nat, (with_submitThread (SubWait Waiting) s).
      split; [simpl; lia|]. rewrite submitter_run_S, Hstep.
      split; [reflexivity|]. split; [exact Eq | reflexivity].
    - destruct (Hfl x 1%nat (with_submitThread (SubPeeked x) s))
        as (n & s' & Hn & Hrun & Hend);
        [reflexivity | eapply reachable_step; eassumption | exact Hstop | exact Hq |].
      exists (S n), s'. proj_simpl. rewrite Eq in Hn.
      split; [simpl length in *; lia|]. rewrite submitter_run_S, Hstep.
      split; [exact Hrun | exact Hend]. }
  assert (Hmain : exists n s', (n <= 3 * length (m_submitQueue s) + 1)%nat /\
            qexec (submitter_run os 0 n) s = Some s' /\
            m_submitQueue s' = [] /\ submitThread s' = SubWait Waiting).
  { destruct (in_flight s) as [e|] eqn:He.
    - destruct (Hfl e 0%nat s He Hreach Hstop Hq) as (n & s' & Hn & Hrun & Hend).
      exists n, s'. split; [lia|]. auto.
    - unfold in_flight in He.
      destruct (submitThread s) as [|[]| | | |] eqn:Hph; try discriminate He.
      + apply Htop. left. reflexivity.
      + exists 0%nat, s. split; [lia|]. split; [reflexivity|].
        split; [|exact Hph]. apply (wakeup_reachable s Hreach). exact Hph.
      + apply Htop. right. reflexivity.
      + rewrite (exited_reachable s Hreach Hph) in Hstop. discriminate. }
  destruct Hmain as (n & s' & Hn & Hrun & He' & Hph').
  exists n, s'. split; [exact Hn|]. split; [exact Hrun|]. split; [exact He'|].
  split; [exact Hph'|]. intros t. apply synchronize_on_empty, He'.
Qed.

End Properties.

(** * The scenarios, run on the code *)



Lemma present_never_blocks_witness :
  callers (state_after 2 cfg_plain two_submits) !! 0%nat = None /\
  gate_quantity (state_after 2 cfg_plain two_submits) = 2%nat /\
  exists s',
    step 2 cfg_plain (LCall 0 (CallPresent frame1 (Some 4%nat)))
      (state_after 2 cfg_plain two_submits) = Some s' /\
    callers s' = callers (state_after 2 cfg_plain two_submits) /\
    m_submitQueue s' =
      m_submitQueue (state_after 2 cfg_plain two_submits)
      ++ [present_entry frame1 (Some 4%nat)].
Proof.
  split; [reflexivity|]. split; [reflexivity|].
  destruct (present_never_blocks 2 cfg_plain 0 frame1 (Some 4%nat)
              (state_after 2 cfg_plain two_submits) eq_refl)
    as (s' & H1 & H2 & H3 & _).
  exists s'. auto.
Defined.

Lemma submit_gate_counts_presents_witness :
  callers (state_after 2 cfg_plain three_presents) !! 1%nat = None /\
  exists s',
    step 2 cfg_plain (LCall 1 (CallSubmit cmdA)) (state_after 2 cfg_plain three_presents)
      = Some s' /\
    (callers s' !! 1%nat = Some (InSubmit cmdA Waiting) <->
     (2 < gate_quantity (state_after 2 cfg_plain three_presents))%nat).
Proof.
  split; [reflexivity|].
  destruct (submit_gate_counts_presents 2 cfg_plain 1 cmdA
              (state_after 2 cfg_plain three_presents) eq_refl)
    as (_ & (s' & H1 & H2 & _) & _).
  exists s'. auto.
Defined.

(** C5 as stated fails: with a bound of two, three presents queued, no submit
    entry anywhere and an empty completion queue, a call of submit blocks. *)
Lemma presents_make_submit_block :
  exists s s',
    exec 2 cfg_plain three_presents init = Some s /\
    submit_entries (m_submitQueue s) = [] /\
    m_finishQueue s = [] /\
    step 2 cfg_plain (LCall 1 (CallSubmit cmdA)) s = Some s' /\
    callers s' !! 1%nat = Some (InSubmit cmdA Waiting) /\
    m_submitQueue s' = m_submitQueue s.
Proof.
  exists (state_after 2 cfg_plain three_presents),
         (state_after 2 cfg_plain (three_presents ++ [LCall 1 (CallSubmit cmdA)])).
  vm_compute. repeat split; reflexivity.
Defined.

(** C1 as stated fails: the first submit fails with
    [VK_ERROR_OUT_OF_HOST_MEMORY], which [m_lastError] then holds; the
    submitter nevertheless takes the device queue lock and calls
    [CmdList.submit] on the second command list, whose status is the
    device's answer and not [VK_ERROR_DEVICE_LOST]. *)
Lemma submit_after_other_error :
  exists s s',
    exec 2 cfg_plain (run_first_fails VK_ERROR_OUT_OF_HOST_MEMORY) init = Some s /\
    m_lastError s = VK_ERROR_OUT_OF_HOST_MEMORY /\
    m_lastError s <> VK_SUCCESS /\
    submitThread s = SubPeeked (submit_entry cmdB) /\
    exec 2 cfg_plain [LSubmitThread (answer VK_SUCCESS); LSubmitThread (answer VK_SUCCESS)] s
      = Some s' /\
    queue_calls (trace s') =
      queue_calls (trace s)
      ++ [EvQueueLock; EvCmdSubmit 2 None None VK_SUCCESS; EvQueueUnlock] /\
    submitThread s' = SubRelock (submit_entry cmdB) VK_SUCCESS.
Proof.
  exists (state_after 2 cfg_plain (run_first_fails VK_ERROR_OUT_OF_HOST_MEMORY)),
         (state_after 2 cfg_plain
            (run_first_fails VK_ERROR_OUT_OF_HOST_MEMORY
             ++ [LSubmitThread (answer VK_SUCCESS); LSubmitThread (answer VK_SUCCESS)])).
  vm_compute. repeat split; try reflexivity. discriminate.
Defined.

Lemma device_lost_settled_after_loss :
  device_lost_settled (state_after 2 cfg_aftermath (run_first_fails VK_ERROR_DEVICE_LOST)).
Proof.
  unfold device_lost_settled. vm_compute.
  repeat split; intros; discriminate.
Defined.

(** After the first submit has failed with [VK_ERROR_DEVICE_LOST], the second
    one is drained without any call to the device queue. *)
Lemma no_queue_call_after_device_lost_witness :
  device_lost_settled (state_after 2 cfg_aftermath (run_first_fails VK_ERROR_DEVICE_LOST)) /\
  exists s',
    exec 2 cfg_aftermath
      [LSubmitThread (answer VK_SUCCESS); LSubmitThread (answer VK_SUCCESS)]
      (state_after 2 cfg_aftermath (run_first_fails VK_ERROR_DEVICE_LOST)) = Some s' /\
    m_lastError s' = VK_ERROR_DEVICE_LOST /\
    queue_calls (trace s') =
      queue_calls (trace (state_after 2 cfg_aftermath (run_first_fails VK_ERROR_DEVICE_LOST))) /\
    m_submitQueue s' = [].
Proof.
  split; [exact device_lost_settled_after_loss|].
  exists (state_after 2 cfg_aftermath
            (run_first_fails VK_ERROR_DEVICE_LOST
             ++ [LSubmitThread (answer VK_SUCCESS); LSubmitThread (answer VK_SUCCESS)])).
  assert (Hrun : exec 2 cfg_aftermath
            [LSubmitThread (answer VK_SUCCESS); LSubmitThread (answer VK_SUCCESS)]
            (state_after 2 cfg_aftermath (run_first_fails VK_ERROR_DEVICE_LOST))
          = Some (state_after 2 cfg_aftermath
            (run_first_fails VK_ERROR_DEVICE_LOST
             ++ [LSubmitThread (answer VK_SUCCESS); LSubmitThread (answer VK_SUCCESS)])))
    by (vm_compute; reflexivity).
  destruct (no_queue_call_after_device_lost 2 cfg_aftermath _ _ _
              device_lost_settled_after_loss Hrun) as (H1 & H2 & _).
  split; [exact Hrun|]. split; [exact H1|]. split; [exact H2|].
  vm_compute. reflexivity.
Defined.



(** Without the condition on the workers the loss does not stick: the
    finisher has loaded [m_lastError] for the first command list before the
    second one is lost; its fence wait fails with
    [VK_ERROR_OUT_OF_HOST_MEMORY], line 235 stores that over
    [VK_ERROR_DEVICE_LOST], and the submitter dispatches the third command
    list to the device. *)
Lemma device_lost_overwritten_by_finisher :
  exists s s',
    exec 2 cfg_plain run_loss_overwritten init = Some s /\
    m_lastError s = VK_ERROR_DEVICE_LOST /\
    finishThread s = FinLoaded (submit_entry cmdA) VK_SUCCESS /\
    exec 2 cfg_plain run_after_overwrite s = Some s' /\
    m_lastError s' = VK_ERROR_OUT_OF_HOST_MEMORY /\
    queue_calls (trace s') =
      queue_calls (trace s)
      ++ [EvQueueLock; EvCmdSubmit 3 None None VK_SUCCESS; EvQueueUnlock].
Proof.
  exists (state_after 2 cfg_plain run_loss_overwritten),
         (state_after 2 cfg_plain (run_loss_overwritten ++ run_after_overwrite)).
  vm_compute. repeat split; reflexivity.
Defined.

(** C6 as stated fails: the submit fails with [VK_ERROR_OUT_OF_HOST_MEMORY],
    no result anywhere is [VK_ERROR_DEVICE_LOST], the crash reporter is
    enabled, and the crash dump status is polled three times. *)
Lemma poll_without_device_lost :
  exists s,
    exec 2 cfg_aftermath (run_one_submit VK_ERROR_OUT_OF_HOST_MEMORY) init = Some s /\
    m_lastError s = VK_ERROR_OUT_OF_HOST_MEMORY /\
    m_lastError s <> VK_ERROR_DEVICE_LOST /\
    crashDump_polls (trace s) =
      [EvGetCrashDumpStatus CrashDump_CollectingData;
       EvGetCrashDumpStatus CrashDump_CollectingData;
       EvGetCrashDumpStatus CrashDump_Finished].
Proof.
  exists (state_after 2 cfg_aftermath (run_one_submit VK_ERROR_OUT_OF_HOST_MEMORY)).
  vm_compute. repeat split; try reflexivity. discriminate.
Defined.

Lemma crash_poll_on_any_failure_witness :
  submitThread (state_after 2 cfg_aftermath (run_to_relock VK_ERROR_OUT_OF_DEVICE_MEMORY))
    = SubRelock (submit_entry cmdA) VK_ERROR_OUT_OF_DEVICE_MEMORY /\
  VK_ERROR_OUT_OF_DEVICE_MEMORY <> VK_SUCCESS /\
  has_cmdList (submit_entry cmdA) = true /\
  exists s',
    step 2 cfg_aftermath (LSubmitThread (answer VK_ERROR_OUT_OF_DEVICE_MEMORY))
      (state_after 2 cfg_aftermath (run_to_relock VK_ERROR_OUT_OF_DEVICE_MEMORY)) = Some s' /\
    m_lastError s' = VK_ERROR_OUT_OF_DEVICE_MEMORY /\
    In (EvGetCrashDumpStatus CrashDump_CollectingData)
       (failure_events cfg_aftermath (answer VK_ERROR_OUT_OF_DEVICE_MEMORY)
          VK_ERROR_OUT_OF_DEVICE_MEMORY).
Proof.
  assert (Hne : VK_ERROR_OUT_OF_DEVICE_MEMORY <> VK_SUCCESS) by discriminate.
  split; [reflexivity|]. split; [exact Hne|]. split; [reflexivity|].
  destruct (crash_poll_on_any_failure 2 cfg_aftermath
              (answer VK_ERROR_OUT_OF_DEVICE_MEMORY) (submit_entry cmdA)
              VK_ERROR_OUT_OF_DEVICE_MEMORY
              (state_after 2 cfg_aftermath (run_to_relock VK_ERROR_OUT_OF_DEVICE_MEMORY))
              eq_refl Hne (or_intror eq_refl))
    as (s' & H1 & H2 & _ & _ & H3 & _).
  exists s'. split; [exact H1|]. split; [exact H2|]. exact (proj1 (H3 eq_refl)).
Defined.

Lemma reachable_after (MAX : nat) (cfg : DxvkOptions) (ls : list Label) (s : State) :
  exec MAX cfg ls init = Some s -> reachable MAX cfg (state_after MAX cfg ls).
Proof. intros H. exists ls. unfold state_after. rewrite H. reflexivity. Defined.

(** While the submitter is about to make the device call for a submit, the
    entry is the head of the pending queue and [synchronize] blocks. *)
Lemma synchronize_waits_for_in_flight_witness :
  reachable 2 cfg_plain (state_after 2 cfg_plain run_to_device_call) /\
  in_flight (state_after 2 cfg_plain run_to_device_call)
    = Some (submit_entry cmdA) /\
  head (m_submitQueue (state_after 2 cfg_plain run_to_device_call))
    = Some (submit_entry cmdA) /\
  forall t s',
    step 2 cfg_plain (LCall t CallSynchronize)
      (state_after 2 cfg_plain run_to_device_call) = Some s' ->
    callers s' !! t = Some (InSynchronize Waiting).
Proof.
  assert (Hreach : reachable 2 cfg_plain
            (state_after 2 cfg_plain run_to_device_call)).
  { eapply reachable_after. vm_compute. reflexivity. }
  split; [exact Hreach|]. split; [reflexivity|].
  destruct (synchronize_waits_for_in_flight 2 cfg_plain _ Hreach) as (_ & _ & H).
  destruct (H (submit_entry cmdA) eq_refl) as (H1 & H2 & _).
  split; [exact H1 | exact H2].
Defined.

(** After a successful submit the completion queue holds its entry, and the
    trace holds the call that submitted it. *)
Lemma completion_queue_entries_submitted_witness :
  reachable 2 cfg_plain (state_after 2 cfg_plain (run_one_submit VK_SUCCESS)) /\
  m_finishQueue (state_after 2 cfg_plain (run_one_submit VK_SUCCESS)) = [submit_entry cmdA] /\
  Forall (submitted_ok (trace (state_after 2 cfg_plain (run_one_submit VK_SUCCESS))))
    (m_finishQueue (state_after 2 cfg_plain (run_one_submit VK_SUCCESS))).
Proof.
  assert (Hreach : reachable 2 cfg_plain
            (state_after 2 cfg_plain (run_one_submit VK_SUCCESS))).
  { eapply reachable_after. vm_compute. reflexivity. }
  split; [exact Hreach|]. split; [reflexivity|].
  exact (proj1 (completion_queue_entries_submitted 2 cfg_plain _ Hreach)).
Defined.

(** C10 as stated fails: with a bound of two, three presents are queued and
    a producer is blocked in [submit]; the destructor is entered and makes
    both notifications; the submitter completes the present it was working
    on, which leaves two entries, and exits; the wait of the producer returns
    spuriously, the predicate holds, and [submit] appends its entry and
    returns.  The finisher has not made a single step. *)
Lemma blocked_submit_released_in_shutdown :
  exists s s',
    exec 2 cfg_plain run_blocked_behind_presents init = Some s /\
    callers s !! 1%nat = Some (InSubmit cmdA Waiting) /\
    exec 2 cfg_plain run_release_in_shutdown s = Some s' /\
    forallb (fun l => negb (is_finisher_label l))
      (run_blocked_behind_presents ++ run_release_in_shutdown) = true /\
    finishThread s' = FinStart /\
    m_stopped s' = true /\
    callers s' !! 1%nat = None /\
    m_submitQueue s' =
      [present_entry frame1 None; present_entry frame1 None; submit_entry cmdA].
Proof.
  exists (state_after 2 cfg_plain run_blocked_behind_presents),
         (state_after 2 cfg_plain (run_blocked_behind_presents ++ run_release_in_shutdown)).
  vm_compute. repeat split; reflexivity.
Defined.

(** A producer is blocked in [submit] while both workers are in their waits.
    The destructor is entered: its first notification wakes the submitter,
    its second one the finisher, and the producer is still blocked. *)
Lemma destructor_never_signals_finishCond_witness :
  callers (state_after 0 cfg_plain run_blocked_workers_idle) !! 1%nat
    = Some (InSubmit cmdB Waiting) /\
  submitThread (state_after 0 cfg_plain run_blocked_workers_idle) = SubWait Waiting /\
  finishThread (state_after 0 cfg_plain run_blocked_workers_idle) = FinWait Waiting /\
  exists s1 s2 s3,
    step 0 cfg_plain (LCall 2 CallDestroy) (state_after 0 cfg_plain run_blocked_workers_idle)
      = Some s1 /\
    m_stopped s1 = true /\
    submitThread s1 = SubWait Waiting /\
    finishThread s1 = FinWait Waiting /\
    step 0 cfg_plain (LResume 2) s1 = Some s2 /\
    submitThread s2 = SubWait Notified /\
    finishThread s2 = FinWait Waiting /\
    step 0 cfg_plain (LResume 2) s2 = Some s3 /\
    finishThread s3 = FinWait Notified /\
    callers s3 !! 1%nat = Some (InSubmit cmdB Waiting).
Proof.
  split; [reflexivity|]. split; [reflexivity|]. split; [reflexivity|].
  destruct (destructor_never_signals_finishCond 0 cfg_plain 1 cmdB
              (state_after 0 cfg_plain run_blocked_workers_idle) eq_refl)
    as (Hcall & _).
  destruct (Hcall 2%nat eq_refl) as (s1 & Hs1 & Hst1 & Hsub1 & Hfin1 & Hc1 & Hw1).
  destruct (destructor_never_signals_finishCond 0 cfg_plain 1 cmdB s1 Hw1)
    as (_ & Happend & _).
  assert (Hd1 : callers s1 !! 2%nat = Some (InDestroy DtorNotifyAppend)).
  { rewrite Hc1. apply lookup_insert_eq. }
  destruct (Happend 2%nat Hd1) as (s2 & Hs2 & Hsub2 & Hfin2 & Hc2 & Hw2).
  destruct (destructor_never_signals_finishCond 0 cfg_plain 1 cmdB s2 Hw2)
    as (_ & _ & Hsubmit & _).
  assert (Hd2 : callers s2 !! 2%nat = Some (InDestroy DtorNotifySubmit)).
  { rewrite Hc2. apply lookup_insert_eq. }
  destruct (Hsubmit 2%nat Hd2) as (s3 & Hs3 & Hfin3 & _ & _ & Hw3).
  exists s1, s2, s3.
  split; [exact Hs1|]. split; [exact Hst1|].
  split; [rewrite Hsub1; reflexivity|]. split; [rewrite Hfin1; reflexivity|].
  split; [exact Hs2|].
  split; [rewrite Hsub2, Hsub1; reflexivity|].
  split; [rewrite Hfin2, Hfin1; reflexivity|].
  split; [exact Hs3|].
  split; [rewrite Hfin3, Hfin2, Hfin1; reflexivity | exact Hw3].
Defined.

(** * Further scenarios, run on the code *)

(** While a submit is in flight the counter is one. *)
Lemma pending_count_exact_without_failures_witness :
  forallb answers_success (run_to_relock VK_SUCCESS) = true /\
  exec 2 cfg_plain (run_to_relock VK_SUCCESS) init
    = Some (state_after 2 cfg_plain (run_to_relock VK_SUCCESS)) /\
  pending_entries (state_after 2 cfg_plain (run_to_relock VK_SUCCESS))
    = [submit_entry cmdA] /\
  m_pending (state_after 2 cfg_plain (run_to_relock VK_SUCCESS)) = 1.
Proof.
  assert (H1 : forallb answers_success (run_to_relock VK_SUCCESS) = true)
    by reflexivity.
  assert (H2 : exec 2 cfg_plain (run_to_relock VK_SUCCESS) init
               = Some (state_after 2 cfg_plain (run_to_relock VK_SUCCESS)))
    by (vm_compute; reflexivity).
  split; [exact H1|]. split; [exact H2|]. split; [reflexivity|].
  destruct (pending_count_exact_without_failures 2 cfg_plain _ _ H1 H2) as (Hp & _).
  rewrite Hp. vm_compute. reflexivity.
Defined.

Lemma no_lost_wakeup_witness :
  reachable 2 cfg_plain (state_after 2 cfg_plain (run_one_submit VK_SUCCESS ++ run_finish)) /\
  submitThread (state_after 2 cfg_plain (run_one_submit VK_SUCCESS ++ run_finish))
    = SubWait Waiting /\
  m_submitQueue (state_after 2 cfg_plain (run_one_submit VK_SUCCESS ++ run_finish)) = [].
Proof.
  assert (Hreach : reachable 2 cfg_plain
            (state_after 2 cfg_plain (run_one_submit VK_SUCCESS ++ run_finish))).
  { eapply reachable_after. vm_compute. reflexivity. }
  split; [exact Hreach|]. split; [reflexivity|].
  exact (proj1 (no_lost_wakeup 2 cfg_plain _ Hreach) eq_refl).
Defined.

Lemma lock_unlock_roundtrip_witness :
  callers (state_after 2 cfg_plain two_submits) !! 3%nat = None /\
  m_mutexQueue (state_after 2 cfg_plain two_submits) = None /\
  exec 2 cfg_plain [LCall 3 CallLockDeviceQueue; LCall 3 CallUnlockDeviceQueue]
    (state_after 2 cfg_plain two_submits) = Some (state_after 2 cfg_plain two_submits).
Proof.
  split; [reflexivity|]. split; [reflexivity|].
  exact (lock_unlock_roundtrip 2 cfg_plain 3 (state_after 2 cfg_plain two_submits)
           eq_refl eq_refl).
Defined.

(** The submitter waits for the device queue lock a producer holds, while
    another producer's submit is still accepted; the holder's unlock
    releases the lock. *)
Lemma queue_lock_excludes_submitter_witness :
  m_mutexQueue (state_after 2 cfg_plain run_locked_queue) = Some 1%nat /\
  submitThread (state_after 2 cfg_plain run_locked_queue) = SubLockQueue (submit_entry cmdA) /\
  step 2 cfg_plain (LSubmitThread (answer VK_SUCCESS))
    (state_after 2 cfg_plain run_locked_queue) = None /\
  step 2 cfg_plain (LCall 2 (CallSubmit cmdB)) (state_after 2 cfg_plain run_locked_queue)
    = Some (submit 2 2 cmdB (state_after 2 cfg_plain run_locked_queue)) /\
  exists s',
    step 2 cfg_plain (LCall 1 CallUnlockDeviceQueue)
      (state_after 2 cfg_plain run_locked_queue) = Some s' /\
    m_mutexQueue s' = None.
Proof.
  split; [reflexivity|]. split; [reflexivity|].
  destruct (queue_lock_excludes_submitter 2 cfg_plain 1
              (state_after 2 cfg_plain run_locked_queue) eq_refl)
    as (_ & _ & H3 & H4 & H5 & _).
  split; [apply (H4 (submit_entry cmdA)); reflexivity|].
  split; [apply H5; reflexivity | apply H3; reflexivity].
Defined.

Lemma only_head_dispatched_witness :
  reachable 2 cfg_plain (state_after 2 cfg_plain run_to_device_call) /\
  step 2 cfg_plain (LSubmitThread (answer VK_SUCCESS))
    (state_after 2 cfg_plain run_to_device_call)
    = Some (state_after 2 cfg_plain (run_to_relock VK_SUCCESS)) /\
  queue_calls (trace (state_after 2 cfg_plain (run_to_relock VK_SUCCESS))) <>
    queue_calls (trace (state_after 2 cfg_plain run_to_device_call)) /\
  head (m_submitQueue (state_after 2 cfg_plain run_to_device_call))
    = Some (submit_entry cmdA).
Proof.
  assert (Hreach : reachable 2 cfg_plain (state_after 2 cfg_plain run_to_device_call)).
  { eapply reachable_after. vm_compute. reflexivity. }
  assert (Hstep : step 2 cfg_plain (LSubmitThread (answer VK_SUCCESS))
            (state_after 2 cfg_plain run_to_device_call)
          = Some (state_after 2 cfg_plain (run_to_relock VK_SUCCESS)))
    by (vm_compute; reflexivity).
  assert (Hne : queue_calls (trace (state_after 2 cfg_plain (run_to_relock VK_SUCCESS))) <>
                queue_calls (trace (state_after 2 cfg_plain run_to_device_call)))
    by (vm_compute; discriminate).
  split; [exact Hreach|]. split; [exact Hstep|]. split; [exact Hne|].
  destruct (only_head_dispatched 2 cfg_plain _ _ _ Hreach Hstep Hne)
    as (o & e & _ & Hph & Hhead & _).
  rewrite Hhead. f_equal.
  assert (E : submitThread (state_after 2 cfg_plain run_to_device_call)
              = SubLockQueue (submit_entry cmdA)) by reflexivity.
  rewrite E in Hph. inversion Hph. reflexivity.
Defined.

(** Two submits are pending; the submitter completes both, a present is
    queued meanwhile, and the finisher retires the first submit. *)
Lemma queues_are_fifo_witness :
  reachable 2 cfg_plain (state_after 2 cfg_plain two_submits) /\
  exec 2 cfg_plain run_both_workers (state_after 2 cfg_plain two_submits)
    = Some (state_after 2 cfg_plain (two_submits ++ run_both_workers)) /\
  history 2 cfg_plain (pushed_by 2) run_both_workers (state_after 2 cfg_plain two_submits)
    = [present_entry frame1 None] /\
  history 2 cfg_plain completed_by run_both_workers (state_after 2 cfg_plain two_submits)
    = [(submit_entry cmdA, VK_SUCCESS); (submit_entry cmdB, VK_SUCCESS)] /\
  history 2 cfg_plain finished_by run_both_workers (state_after 2 cfg_plain two_submits)
    = [submit_entry cmdA] /\
  pending_entries (state_after 2 cfg_plain two_submits)
    ++ history 2 cfg_plain (pushed_by 2) run_both_workers
         (state_after 2 cfg_plain two_submits)
    = map fst (history 2 cfg_plain completed_by run_both_workers
                 (state_after 2 cfg_plain two_submits))
      ++ pending_entries (state_after 2 cfg_plain (two_submits ++ run_both_workers)) /\
  completion_entries (state_after 2 cfg_plain (two_submits ++ run_both_workers))
    = [submit_entry cmdB].
Proof.
  assert (Hreach : reachable 2 cfg_plain (state_after 2 cfg_plain two_submits)).
  { eapply reachable_after. vm_compute. reflexivity. }
  assert (Hrun : exec 2 cfg_plain run_both_workers (state_after 2 cfg_plain two_submits)
                 = Some (state_after 2 cfg_plain (two_submits ++ run_both_workers)))
    by (vm_compute; reflexivity).
  split; [exact Hreach|]. split; [exact Hrun|].
  split; [vm_compute; reflexivity|]. split; [vm_compute; reflexivity|].
  split; [vm_compute; reflexivity|].
  split; [exact (proj1 (queues_are_fifo 2 cfg_plain _ _ _ Hreach Hrun)) | reflexivity].
Defined.

(** The destructor is entered with two submits queued and nothing in flight:
    both workers exit, the two entries stay queued and nothing is dispatched. *)
Lemma stopped_no_new_entry_witness :
  m_stopped (state_after 2 cfg_plain run_destroy) = true /\
  exec 2 cfg_plain run_after_stop (state_after 2 cfg_plain run_destroy)
    = Some (state_after 2 cfg_plain (run_destroy ++ run_after_stop)) /\
  submitThread (state_after 2 cfg_plain (run_destroy ++ run_after_stop)) = SubExited /\
  finishThread (state_after 2 cfg_plain (run_destroy ++ run_after_stop)) = FinExited /\
  trace (state_after 2 cfg_plain (run_destroy ++ run_after_stop))
    = trace (state_after 2 cfg_plain run_destroy) /\
  length (m_submitQueue (state_after 2 cfg_plain (run_destroy ++ run_after_stop))) = 2%nat.
Proof.
  assert (Hrun : exec 2 cfg_plain run_after_stop (state_after 2 cfg_plain run_destroy)
                 = Some (state_after 2 cfg_plain (run_destroy ++ run_after_stop)))
    by (vm_compute; reflexivity).
  split; [reflexivity|]. split; [exact Hrun|].
  split; [reflexivity|]. split; [reflexivity|].
  destruct (stopped_no_new_entry 2 cfg_plain run_after_stop
              (state_after 2 cfg_plain run_destroy) _ eq_refl Hrun) as (_ & _ & _ & H).
  destruct (H eq_refl eq_refl) as (Ht & _).
  split; [exact Ht | reflexivity].
Defined.

(** With a bound of two: three presents queued, a producer blocked in submit;
    the submitter completes the first present, two entries are left, and the
    producer is still waiting. *)
Lemma submitter_pop_does_not_wake_submit_witness :
  reachable 2 cfg_plain (state_after 2 cfg_plain run_blocked_behind_presents) /\
  callers (state_after 2 cfg_plain run_blocked_behind_presents) !! 1%nat
    = Some (InSubmit cmdA Waiting) /\
  submitThread (state_after 2 cfg_plain run_blocked_behind_presents)
    = SubRelock (present_entry frame1 None) VK_SUCCESS /\
  has_cmdList (present_entry frame1 None) = false /\
  gate_quantity (state_after 2 cfg_plain run_blocked_behind_presents) = 3%nat /\
  exists s',
    step 2 cfg_plain (LSubmitThread (answer VK_SUCCESS))
      (state_after 2 cfg_plain run_blocked_behind_presents) = Some s' /\
    callers s' !! 1%nat = Some (InSubmit cmdA Waiting) /\
    gate_quantity s' = 2%nat.
Proof.
  assert (Hreach : reachable 2 cfg_plain
            (state_after 2 cfg_plain run_blocked_behind_presents)).
  { eapply reachable_after. vm_compute. reflexivity. }
  assert (Hg : gate_quantity (state_after 2 cfg_plain run_blocked_behind_presents) = 3%nat)
    by reflexivity.
  split; [exact Hreach|]. split; [reflexivity|]. split; [reflexivity|].
  split; [reflexivity|]. split; [exact Hg|].
  destruct (submitter_pop_does_not_wake_submit 2 cfg_plain 1 cmdA
              (present_entry frame1 None) VK_SUCCESS (answer VK_SUCCESS)
              (state_after 2 cfg_plain run_blocked_behind_presents)
              Hreach eq_refl eq_refl (or_intror eq_refl))
    as (s' & H1 & H2 & H3 & _).
  exists s'. split; [exact H1|]. split; [exact H2|]. rewrite Hg in H3. lia.
Defined.

Lemma synchronizeSubmission_after_signal_witness :
  reachable 2 cfg_plain (state_after 2 cfg_plain (run_present_with_slot VK_SUCCESS)) /\
  submitThread (state_after 2 cfg_plain (run_present_with_slot VK_SUCCESS))
    = SubRelock (present_entry frame1 (Some 4%nat)) VK_SUCCESS /\
  callers (state_after 2 cfg_plain (run_present_with_slot VK_SUCCESS)) !! 0%nat
    = Some (InSynchronizeSubmission 4 Waiting) /\
  exists s1 s2,
    step 2 cfg_plain (LSubmitThread (answer VK_SUCCESS))
      (state_after 2 cfg_plain (run_present_with_slot VK_SUCCESS)) = Some s1 /\
    step 2 cfg_plain (LResume 0) s1 = Some s2 /\
    callers s2 !! 0%nat = None.
Proof.
  assert (Hreach : reachable 2 cfg_plain
            (state_after 2 cfg_plain (run_present_with_slot VK_SUCCESS))).
  { eapply reachable_after. vm_compute. reflexivity. }
  split; [exact Hreach|]. split; [reflexivity|]. split; [reflexivity|].
  destruct (synchronizeSubmission_after_signal 2 cfg_plain 0 4 Waiting
              (present_entry frame1 (Some 4%nat)) VK_SUCCESS (answer VK_SUCCESS)
              (state_after 2 cfg_plain (run_present_with_slot VK_SUCCESS))
              Hreach eq_refl eq_refl eq_refl)
    as (_ & s1 & s2 & H1 & _ & _ & H2 & H3 & _).
  exists s1, s2. split; [exact H1|]. split; [exact H2|]. apply H3. discriminate.
Defined.

Lemma failed_present_is_dropped_witness :
  submitThread (state_after 2 cfg_plain (run_present_with_slot VK_ERROR_OUT_OF_HOST_MEMORY))
    = SubRelock (present_entry frame1 (Some 4%nat)) VK_ERROR_OUT_OF_HOST_MEMORY /\
  has_cmdList (present_entry frame1 (Some 4%nat)) = false /\
  VK_ERROR_OUT_OF_HOST_MEMORY <> VK_ERROR_DEVICE_LOST /\
  exists s',
    step 2 cfg_plain (LSubmitThread (answer VK_SUCCESS))
      (state_after 2 cfg_plain (run_present_with_slot VK_ERROR_OUT_OF_HOST_MEMORY))
      = Some s' /\
    m_lastError s' = VK_SUCCESS /\
    List.filter logs_failure (trace s') = [].
Proof.
  assert (Hne : VK_ERROR_OUT_OF_HOST_MEMORY <> VK_ERROR_DEVICE_LOST) by discriminate.
  split; [reflexivity|]. split; [reflexivity|]. split; [exact Hne|].
  destruct (failed_present_is_dropped 2 cfg_plain
              (present_entry frame1 (Some 4%nat)) VK_ERROR_OUT_OF_HOST_MEMORY
              (answer VK_SUCCESS)
              (state_after 2 cfg_plain (run_present_with_slot VK_ERROR_OUT_OF_HOST_MEMORY))
              eq_refl eq_refl Hne)
    as (s' & H1 & _ & H2 & H3 & _).
  exists s'. split; [exact H1|]. rewrite H2, H3. split; reflexivity.
Defined.

Lemma aftermath_poll_budget_witness :
  (2 <= 50)%nat /\
  crashDump_done (o_crashDump (answer VK_SUCCESS) 2) = true /\
  length (crashDump_polls (aftermath_poll poll_fuel 0 0 (o_crashDump (answer VK_SUCCESS))))
    = 3%nat /\
  sleep_total (aftermath_poll poll_fuel 0 0 (o_crashDump (answer VK_SUCCESS))) = 200.
Proof.
  assert (Hk : (2 <= 50)%nat) by lia.
  assert (Hbefore : forall n, (n < 2)%nat ->
            crashDump_done (o_crashDump (answer VK_SUCCESS) n) = false).
  { intros n Hn. destruct n as [|[|n]]; [reflexivity | reflexivity | lia]. }
  assert (Hat : (2 < 50)%nat -> crashDump_done (o_crashDump (answer VK_SUCCESS) 2) = true)
    by (intros _; reflexivity).
  split; [exact Hk|]. split; [reflexivity|].
  destruct (aftermath_poll_budget (o_crashDump (answer VK_SUCCESS)) 2
              Hk Hbefore Hat) as (Hp & Hs & _).
  rewrite Hp, Hs. split; reflexivity.
Defined.

(** After a submit has failed with [VK_ERROR_DEVICE_LOST], that result is in
    the log. *)
Lemma lastError_was_logged_witness :
  reachable 2 cfg_plain (state_after 2 cfg_plain (run_one_submit VK_ERROR_DEVICE_LOST)) /\
  m_lastError (state_after 2 cfg_plain (run_one_submit VK_ERROR_DEVICE_LOST))
    = VK_ERROR_DEVICE_LOST /\
  exists msg,
    In (EvLogErr msg VK_ERROR_DEVICE_LOST)
       (trace (state_after 2 cfg_plain (run_one_submit VK_ERROR_DEVICE_LOST))).
Proof.
  assert (Hreach : reachable 2 cfg_plain
            (state_after 2 cfg_plain (run_one_submit VK_ERROR_DEVICE_LOST))).
  { eapply reachable_after. vm_compute. reflexivity. }
  split; [exact Hreach|]. split; [reflexivity|].
  destruct (lastError_was_logged 2 cfg_plain _ Hreach) as (_ & [E | H] & _).
  - vm_compute in E. discriminate E.
  - exact H.
Defined.

(** With a bound of two, three submits are accepted: the bound is reached. *)
Lemma command_lists_in_flight_bounded_witness :
  reachable 2 cfg_plain (state_after 2 cfg_plain (removelast run_blocked_producer)) /\
  length (submit_entries
            (m_submitQueue (state_after 2 cfg_plain (removelast run_blocked_producer))))
    = 3%nat /\
  (length (submit_entries
             (m_submitQueue (state_after 2 cfg_plain (removelast run_blocked_producer))))
   + length (m_finishQueue (state_after 2 cfg_plain (removelast run_blocked_producer)))
   <= 2 + 1)%nat.
Proof.
  assert (Hreach : reachable 2 cfg_plain
            (state_after 2 cfg_plain (removelast run_blocked_producer))).
  { eapply reachable_after. vm_compute. reflexivity. }
  split; [exact Hreach|]. split; [reflexivity|].
  exact (command_lists_in_flight_bounded 2 cfg_plain _ Hreach).
Defined.

Lemma submitter_drains_pending_queue_witness :
  reachable 2 cfg_plain (state_after 2 cfg_plain two_submits) /\
  m_stopped (state_after 2 cfg_plain two_submits) = false /\
  m_mutexQueue (state_after 2 cfg_plain two_submits) = None /\
  exists n s',
    (n <= 7)%nat /\
    exec 2 cfg_plain (submitter_run (fun _ => answer VK_SUCCESS) 0 n)
      (state_after 2 cfg_plain two_submits) = Some s' /\
    m_submitQueue s' = [].
Proof.
  assert (Hreach : reachable 2 cfg_plain (state_after 2 cfg_plain two_submits)).
  { eapply reachable_after. vm_compute. reflexivity. }
  split; [exact Hreach|]. split; [reflexivity|]. split; [reflexivity|].
  destruct (submitter_drains_pending_queue 2 cfg_plain (fun _ => answer VK_SUCCESS)
              (state_after 2 cfg_plain two_submits) Hreach eq_refl eq_refl)
    as (n & s' & Hn & Hrun & He & _).
  exists n, s'. split; [exact Hn|]. split; [exact Hrun | exact He].
Defined.
